(** * 3D-printer backend ([server.js]): mesh decoding, bounding box,
      slicer command line, print-time extraction and temp-file handling.

    The development is a shallow embedding of [src/server.js].  JavaScript
    values are modelled as follows.

    - A Number is an IEEE-754 binary64 datum, [spec_float] with
      [prec = 53] and [emax = 1024]; there is one NaN, as in JavaScript.
    - A String is a list of UTF-16 code units ([list N]).
    - A [Buffer]/[ArrayBuffer] is a [list byte].
    - A function that can [throw] returns a [completion].
    - The file system touched by the submit handler is a finite map from
      paths to files ([gmap]), passed explicitly; the slicer is an
      arbitrary function on it.
    - [String.prototype.toLowerCase] is a parameter of the STL decoder.

    The definitions come first, in the order of the source; the
    properties follow. *)

From Stdlib Require Import ZArith NArith List String Ascii Strings.Byte Bool Lia.
From Stdlib Require Import Floats.SpecFloat DecimalString.
From stdpp Require Import gmap.
Import ListNotations.

Local Open Scope Z_scope.

(** ** Completions: a JavaScript call returns or throws *)

Inductive exn : Type :=
| Error (message : string)        (* [new Error(message)] *)
| TypeError (message : string)    (* raised by the runtime *)
| RangeError (message : string)   (* raised by [DataView] *)
| SystemError (code : string) (syscall : string) (path : list N).
                                  (* raised by [fs], e.g. ENOENT on unlink *)

Inductive completion (A : Type) : Type :=
| Return (a : A)
| Throw (e : exn).
Arguments Return {A} a.
Arguments Throw {A} e.

Definition cbind {A B} (c : completion A) (k : A -> completion B) : completion B :=
  match c with
  | Return a => k a
  | Throw e => Throw e
  end.

Notation "'let*' x ':=' c 'in' k" := (cbind c (fun x => k))
  (at level 10, x name, c at level 100, k at level 200).

(** ** Numbers *)

Module Num.

Definition number := spec_float.

Definition prec : Z := 53.
Definition emax : Z := 1024.

Definition NaN : number := S754_nan.
Definition Infinity : number := S754_infinity false.
Definition NegInfinity : number := S754_infinity true.

Definition isNaN (x : number) : bool :=
  match x with S754_nan => true | _ => false end.

(** [x < y], [x <= y], [x - y], [x * y] on Numbers. *)
Definition lt (x y : number) : bool := SFltb x y.
Definition le (x y : number) : bool := SFleb x y.
Definition sub (x y : number) : number := SFsub prec emax x y.
Definition mul (x y : number) : number := SFmul prec emax x y.

Definition isPosZero (x : number) : bool :=
  match x with S754_zero false => true | _ => false end.
Definition isNegZero (x : number) : bool :=
  match x with S754_zero true => true | _ => false end.

(** [Math.max(a, b)] (ECMAScript 21.3.2.24 on two arguments): NaN if one
    of them is NaN; [+0] is treated as larger than [-0]. *)
Definition max (a b : number) : number :=
  if isNaN a || isNaN b then NaN
  else if isPosZero b && isNegZero a then b
  else if lt a b then b else a.

(** [Math.min(a, b)] (ECMAScript 21.3.2.25 on two arguments). *)
Definition min (a b : number) : number :=
  if isNaN a || isNaN b then NaN
  else if isNegZero b && isPosZero a then b
  else if lt b a then b else a.

(** An integer as a Number (exact when it fits 53 bits, rounded to
    nearest-even otherwise). *)
Definition ofZ (z : Z) : number := binary_normalize prec emax z 0 false.

End Num.

Abbreviation number := Num.number.

(** ** [getSize]: bounding box of a vertex list (server.js 41-63) *)

Definition vertex : Type := number * number * number.

Definition vx (v : vertex) : number := fst (fst v).
Definition vy (v : vertex) : number := snd (fst v).
Definition vz (v : vertex) : number := snd v.

Record size := mkSize {
  size_x : number;
  size_y : number;
  size_z : number;
  vertexCount : nat
}.

(** The six running bounds of the [for ... of] loop. *)
Record bounds := mkBounds {
  minX : number; maxX : number;
  minY : number; maxY : number;
  minZ : number; maxZ : number
}.

Definition initialBounds : bounds :=
  mkBounds Num.Infinity Num.NegInfinity
           Num.Infinity Num.NegInfinity
           Num.Infinity Num.NegInfinity.

(** One iteration of the loop body (lines 49-54). *)
Definition updateBounds (b : bounds) (v : vertex) : bounds :=
  let '(x, y, z) := v in
  mkBounds (Num.min (minX b) x) (Num.max (maxX b) x)
           (Num.min (minY b) y) (Num.max (maxY b) y)
           (Num.min (minZ b) z) (Num.max (maxZ b) z).

Definition getSize (verts : list vertex) : completion size :=
  match verts with
  | [] => Throw (Error "No vertices found")
  | _ =>
      let b := fold_left updateBounds verts initialBounds in
      Return (mkSize (Num.sub (maxX b) (minX b))
                     (Num.sub (maxY b) (minY b))
                     (Num.sub (maxZ b) (minZ b))
                     (length verts))
  end.

(** ** Strings: sequences of UTF-16 code units *)

Abbreviation jsstring := (list N).

(** A Rocq string literal (ASCII text) as a JavaScript string. *)
Fixpoint js (s : string) : jsstring :=
  match s with
  | EmptyString => []
  | String a s' => N_of_ascii a :: js s'
  end.

Module Str.

Local Open Scope N_scope.

(** [WhiteSpace] and [LineTerminator] code points (ECMAScript 12.2, 12.3):
    the set stripped by [trim] and matched by [\s]. *)
Definition isLineTerminator (c : N) : bool :=
  (c =? 10) || (c =? 13) || (c =? 8232) || (c =? 8233).

Definition isWhiteSpace (c : N) : bool :=
  (c =? 9) || (c =? 11) || (c =? 12) || (c =? 32) || (c =? 160) ||
  (c =? 5760) || ((8192 <=? c) && (c <=? 8202)) || (c =? 8239) ||
  (c =? 8287) || (c =? 12288) || (c =? 65279) || isLineTerminator c.

Fixpoint dropWhile (p : N -> bool) (s : jsstring) : jsstring :=
  match s with
  | [] => []
  | c :: s' => if p c then dropWhile p s' else s
  end.

Fixpoint takeWhile (p : N -> bool) (s : jsstring) : jsstring :=
  match s with
  | [] => []
  | c :: s' => if p c then c :: takeWhile p s' else []
  end.

Definition trimStart (s : jsstring) : jsstring := dropWhile isWhiteSpace s.
Definition trimEnd (s : jsstring) : jsstring := rev (dropWhile isWhiteSpace (rev s)).

(** [s.trim()] *)
Definition trim (s : jsstring) : jsstring := trimEnd (trimStart s).

(** [s.startsWith(p)] *)
Fixpoint startsWith (s p : jsstring) {struct p} : bool :=
  match p, s with
  | [], _ => true
  | a :: p', b :: s' => (a =? b) && startsWith s' p'
  | _ :: _, [] => false
  end.

(** [s.includes(needle)] *)
Fixpoint includes (s needle : jsstring) : bool :=
  startsWith s needle ||
  match s with
  | [] => false
  | _ :: s' => includes s' needle
  end.

(** [s.split(sep)] for a separator of one code unit, as in
    [txt.split('\n')]: the result is never empty. *)
Fixpoint split (sep : N) (s : jsstring) : list jsstring :=
  match s with
  | [] => [[]]
  | c :: s' =>
      if c =? sep then [] :: split sep s'
      else match split sep s' with
           | l :: ls => (c :: l) :: ls
           | [] => [[c]]
           end
  end.

Definition eqb (a b : jsstring) : bool :=
  if decide (a = b) then true else false.

(** [String.prototype.toLowerCase] restricted to Basic Latin: [A-Z] go to
    [a-z], every other code unit is kept.  The decoders below take the
    case mapping as a parameter; this one is the instance used to run
    them on ASCII text. *)
Definition asciiLower (c : N) : N :=
  if (65 <=? c) && (c <=? 90) then c + 32 else c.
Definition asciiLowerCase (s : jsstring) : jsstring := map asciiLower s.

End Str.

(** ** Regular expressions

    The two patterns of the program, [/\s+/] and
    [/; estimated printing time[^=]*=\s*(.+)/], are sequences of
    one-character matchers, each taken once, or under a greedy [*] or [+],
    with at most one capture group around a single matcher.  [matchAt]
    is the backtracking matcher of ECMAScript 22.2.2 for such patterns. *)

Module Regex.

Inductive quantifier := Once | Star | Plus.

Record piece := mkPiece {
  accepts : N -> bool;      (* the character class *)
  quant : quantifier;
  captures : bool           (* is the piece a capture group? *)
}.

Definition pattern := list piece.

(** Result of a match: number of code units consumed, and the text of
    the capture group when the pattern has one. *)
Definition result : Type := nat * option jsstring.

(** Greedy repetition of [p] followed by the continuation [k]:
    take as many characters as possible, give them back one at a time
    while [k] fails. [taken] is what the repetition has consumed so far. *)
Fixpoint greedy (p : N -> bool) (k : jsstring -> jsstring -> option result)
         (taken s : jsstring) : option result :=
  match s with
  | c :: s' =>
      if p c then
        match greedy p k (taken ++ [c]) s' with
        | Some r => Some r
        | None => k taken s
        end
      else k taken s
  | [] => k taken []
  end.

Fixpoint run (re : pattern) (consumed : nat) (cap : option jsstring)
         (s : jsstring) : option result :=
  match re with
  | [] => Some (consumed, cap)
  | pc :: re' =>
      let k (taken rest : jsstring) :=
        run re' (consumed + length taken)%nat
            (if captures pc then Some taken else cap) rest in
      match quant pc with
      | Once =>
          match s with
          | c :: s' => if accepts pc c then k [c] s' else None
          | [] => None
          end
      | Star => greedy (accepts pc) k [] s
      | Plus =>
          match s with
          | c :: s' => if accepts pc c then greedy (accepts pc) k [c] s' else None
          | [] => None
          end
      end
  end.

(** A match anchored at the start of [s]. *)
Definition matchAt (re : pattern) (s : jsstring) : option result :=
  run re 0%nat None s.

(** [s.match(re)] for a pattern without the [g] flag: the leftmost
    match; the result carries capture group 1. *)
Fixpoint search (re : pattern) (s : jsstring) : option result :=
  match matchAt re s with
  | Some r => Some r
  | None =>
      match s with
      | [] => None
      | _ :: s' => search re s'
      end
  end.

(** [s.split(re)] (ECMAScript 22.2.6.14 without limit).  [cur] is the
    text since the last separator, [skip] the number of code units of
    the current separator still to be passed over. *)
Fixpoint splitFrom (re : pattern) (cur : jsstring) (skip : nat)
         (s : jsstring) : list jsstring :=
  match s with
  | [] => [cur]
  | c :: s' =>
      match skip with
      | S n => splitFrom re cur n s'
      | O =>
          match matchAt re s with
          | Some (S n, _) => cur :: splitFrom re [] n s'
          | Some (O, _) =>
              match cur with
              | [] => splitFrom re [c] O s'
              | _ => cur :: splitFrom re [c] O s'
              end
          | None => splitFrom re (cur ++ [c]) O s'
          end
      end
  end.

Definition split (re : pattern) (s : jsstring) : list jsstring :=
  match s with
  | [] => match matchAt re [] with Some _ => [] | None => [[]] end
  | _ => splitFrom re [] O s
  end.

(** Pattern constructors. *)
Definition char (c : N) : piece := mkPiece (N.eqb c) Once false.
Definition literal (s : jsstring) : pattern := map char s.
Definition whiteSpace : N -> bool := Str.isWhiteSpace.            (* [\s] *)
Definition anyChar (c : N) : bool := negb (Str.isLineTerminator c). (* [.] *)
Definition notChar (x : N) (c : N) : bool := negb (N.eqb c x).     (* [[^x]] *)

End Regex.

(** ** UTF-8 decoding

    [new TextDecoder().decode(buf)] and [fs.readFileSync(path, 'utf8')]:
    the UTF-8 decoder of the WHATWG Encoding Standard with replacement
    of ill-formed sequences by U+FFFD; [TextDecoder] also drops a leading
    byte-order mark. *)

Definition byteN (b : byte) : N := Byte.to_N b.
Definition byteZ (b : byte) : Z := Z.of_N (Byte.to_N b).

Module Utf8.

Local Open Scope N_scope.

Record state := mkState {
  codePoint : N;
  bytesNeeded : nat;
  lower : N;
  upper : N
}.

Definition start : state := mkState 0 0 128 191.

Definition replacement : N := 65533.

(** A byte read while no sequence is open: the code points emitted and
    the next state. *)
Definition lead (b : N) : list N * state :=
  if b <=? 127 then ([b], start)
  else if (194 <=? b) && (b <=? 223) then ([], mkState (N.land b 31) 1 128 191)
  else if (224 <=? b) && (b <=? 239) then
    ([], mkState (N.land b 15) 2 (if b =? 224 then 160 else 128)
                 (if b =? 237 then 159 else 191))
  else if (240 <=? b) && (b <=? 244) then
    ([], mkState (N.land b 7) 3 (if b =? 240 then 144 else 128)
                 (if b =? 244 then 143 else 191))
  else ([replacement], start).

Definition step (st : state) (b : N) : list N * state :=
  match bytesNeeded st with
  | O => lead b
  | S n =>
      if (lower st <=? b) && (b <=? upper st) then
        let cp := N.lor (N.shiftl (codePoint st) 6) (N.land b 63) in
        match n with
        | O => ([cp], start)
        | S _ => ([], mkState cp n 128 191)
        end
      else
        (* the byte is put back and read again from the start state *)
        let '(out, st') := lead b in (replacement :: out, st')
  end.

Fixpoint codePoints (st : state) (bs : list byte) : list N :=
  match bs with
  | [] => match bytesNeeded st with O => [] | S _ => [replacement] end
  | b :: bs' => let '(out, st') := step st (byteN b) in out ++ codePoints st' bs'
  end.

(** A code point as one or two UTF-16 code units. *)
Definition codeUnits (cp : N) : list N :=
  if cp <? 65536 then [cp]
  else let v := cp - 65536 in [55296 + N.shiftr v 10; 56320 + N.land v 1023].

(** [buf.toString('utf8')], [readFileSync(path, 'utf8')] *)
Definition toString (bs : list byte) : jsstring :=
  flat_map codeUnits (codePoints start bs).

(** [new TextDecoder().decode(buf)] *)
Definition decode (bs : list byte) : jsstring :=
  match codePoints start bs with
  | 65279 :: cps => flat_map codeUnits cps
  | cps => flat_map codeUnits cps
  end.

(** The bytes of an ASCII literal. *)
Fixpoint bytes (s : string) : list byte :=
  match s with
  | EmptyString => []
  | String a s' => byte_of_ascii a :: bytes s'
  end.

End Utf8.

(** ** Conversions between Strings and Numbers *)

Module Conv.

(** The Number nearest to [(-1)^neg * n * 10^e10] (round to nearest,
    ties to even), for [n >= 0]. *)
Definition ofDecimal (neg : bool) (n : Z) (e10 : Z) : number :=
  match n with
  | Zpos p =>
      match e10 with
      | Zneg k =>
          SFdiv Num.prec Num.emax (S754_finite neg p 0)
                (S754_finite false (Pos.pow 10 k) 0)
      | _ => binary_normalize Num.prec Num.emax (cond_Zopp neg (n * 10 ^ e10)) 0 false
      end
  | _ => S754_zero neg
  end.

Local Open Scope N_scope.

Definition isDigit (c : N) : bool := (48 <=? c) && (c <=? 57).

(** Value of a digit in the given radix, if it is one. *)
Definition digitIn (radix : N) (c : N) : option N :=
  let v := if (48 <=? c) && (c <=? 57) then Some (c - 48)
           else if (97 <=? c) && (c <=? 122) then Some (c - 87)
           else if (65 <=? c) && (c <=? 90) then Some (c - 55)
           else None in
  match v with
  | Some d => if d <? radix then Some d else None
  | None => None
  end.

(** The integer written by a string of digits, [None] if some character
    is not a digit of the radix.  The empty string gives 0. *)
Fixpoint digitsFrom (radix : N) (acc : Z) (s : jsstring) : option Z :=
  match s with
  | [] => Some acc
  | c :: s' =>
      match digitIn radix c with
      | Some d => digitsFrom radix (Z.of_N radix * acc + Z.of_N d)%Z s'
      | None => None
      end
  end.

Definition digitsValue (radix : N) (s : jsstring) : option Z :=
  match s with
  | [] => None
  | _ => digitsFrom radix 0%Z s
  end.

Definition decimalValue (s : jsstring) : Z :=
  match digitsFrom 10 0%Z s with Some z => z | None => 0%Z end.

(** [SignedInteger] of an [ExponentPart]. *)
Definition signedInteger (s : jsstring) : option Z :=
  match s with
  | 43 :: s' => digitsValue 10 s'
  | 45 :: s' => option_map Z.opp (digitsValue 10 s')
  | _ => digitsValue 10 s
  end.

(** The optional [ExponentPart] that ends a literal. *)
Definition exponentPart (s : jsstring) : option Z :=
  match s with
  | [] => Some 0%Z
  | 101 :: s' | 69 :: s' => signedInteger s'
  | _ => None
  end.

(** [StrUnsignedDecimalLiteral] *)
Definition unsignedDecimal (neg : bool) (s : jsstring) : option number :=
  if Str.eqb s (js "Infinity") then Some (S754_infinity neg)
  else
    let ip := Str.takeWhile isDigit s in
    let r1 := Str.dropWhile isDigit s in
    let '(fp, r2) :=
      match r1 with
      | 46 :: r => (Str.takeWhile isDigit r, Str.dropWhile isDigit r)
      | _ => ([], r1)
      end in
    match ip ++ fp with
    | [] => None
    | ds =>
        match exponentPart r2 with
        | Some e => Some (ofDecimal neg (decimalValue ds) (e - Z.of_nat (length fp)))
        | None => None
        end
    end.

(** [StrDecimalLiteral] *)
Definition strDecimalLiteral (s : jsstring) : option number :=
  match s with
  | 43 :: s' => unsignedDecimal false s'
  | 45 :: s' => unsignedDecimal true s'
  | _ => unsignedDecimal false s
  end.

(** [NonDecimalIntegerLiteral]: [0x], [0o], [0b] and their upper-case
    forms. *)
Definition nonDecimalInteger (s : jsstring) : option number :=
  match s with
  | 48 :: 120 :: s' | 48 :: 88 :: s' => option_map Num.ofZ (digitsValue 16 s')
  | 48 :: 111 :: s' | 48 :: 79 :: s' => option_map Num.ofZ (digitsValue 8 s')
  | 48 :: 98 :: s' | 48 :: 66 :: s' => option_map Num.ofZ (digitsValue 2 s')
  | _ => None
  end.

(** [Number(s)] on a String (ECMAScript 7.1.4.1.1 [StringToNumber]). *)
Definition StringToNumber (s : jsstring) : number :=
  match Str.trim s with
  | [] => S754_zero false
  | t =>
      match nonDecimalInteger t with
      | Some x => x
      | None =>
          match strDecimalLiteral t with
          | Some x => x
          | None => Num.NaN
          end
      end
  end.

(** *** [Number::toString] (ECMAScript 6.1.6.1.20, radix 10) *)

Local Open Scope Z_scope.

Definition sf_eqb (x y : number) : bool :=
  match x, y with
  | S754_zero a, S754_zero b => Bool.eqb a b
  | S754_infinity a, S754_infinity b => Bool.eqb a b
  | S754_nan, S754_nan => true
  | S754_finite a m e, S754_finite b m' e' =>
      Bool.eqb a b && Pos.eqb m m' && Z.eqb e e'
  | _, _ => false
  end.

(** The positive rational [m * 2^e * 10^d] as a fraction of integers. *)
Definition scaled (m : positive) (e d : Z) : Z * Z :=
  (Zpos m * 2 ^ Z.max e 0 * 10 ^ Z.max d 0,
   2 ^ Z.max (- e) 0 * 10 ^ Z.max (- d) 0).

(** [10^n <= m * 2^e] *)
Definition pow10_le (m : positive) (e n : Z) : bool :=
  let '(a, b) := scaled m e (- n) in b <=? a.

(** The least [n >= lo] with [m * 2^e < 10^n]. *)
Fixpoint decimalExponent (fuel : nat) (m : positive) (e lo : Z) : Z :=
  match fuel with
  | O => lo
  | S fuel' =>
      if pow10_le m e lo then decimalExponent fuel' m e (lo + 1) else lo
  end.

(** The [k]-digit integers [s] next to [m * 2^e / 10^(n-k)], the nearer
    one first (the even one on a tie). *)
Definition candidates (m : positive) (e n : Z) (k : Z) : Z * Z :=
  let '(a, b) := scaled m e (k - n) in
  let lo := a / b in
  match 2 * a ?= (2 * lo + 1) * b with
  | Lt => (lo, lo + 1)
  | Gt => (lo + 1, lo)
  | Eq => if Z.even lo then (lo, lo + 1) else (lo + 1, lo)
  end.

(** The digits [s] and their number [k], for the least [k] such that
    some [s * 10^(n-k)] reads back as [x]; [k] runs from [k] up. *)
Fixpoint shortest (fuel : nat) (x : number) (m : positive) (e n : Z) (k : Z)
  : Z * Z :=
  let '(c1, c2) := candidates m e n k in
  if sf_eqb (ofDecimal false c1 (n - k)) x then (k, c1)
  else if sf_eqb (ofDecimal false c2 (n - k)) x then (k, c2)
  else match fuel with
       | O => (k, c1)
       | S fuel' => shortest fuel' x m e n (k + 1)
       end.

Definition decimalString (z : Z) : jsstring :=
  js (NilEmpty.string_of_uint (N.to_uint (Z.to_N z))).

Definition zeros (n : Z) : jsstring := repeat 48%N (Z.to_nat n).

(** Steps 7-12: the text for digits [ds] ([k] of them) and exponent [n]. *)
Definition layout (ds : jsstring) (k n : Z) : jsstring :=
  if (k <=? n) && (n <=? 21) then ds ++ zeros (n - k)
  else if (0 <? n) && (n <=? 21) then
    firstn (Z.to_nat n) ds ++ 46%N :: skipn (Z.to_nat n) ds
  else if (-6 <? n) && (n <=? 0) then
    48%N :: 46%N :: zeros (- n) ++ ds
  else
    let sign := if n - 1 <? 0 then 45%N else 43%N in
    let expo := 101%N :: sign :: decimalString (Z.abs (n - 1)) in
    match ds with
    | [d] => d :: expo
    | d :: ds' => d :: 46%N :: ds' ++ expo
    | [] => expo
    end.

(** A lower bound of the decimal exponent of [m * 2^e], from its binary
    exponent: [log10 2] lies between 0.30102 and 0.30103. *)
Definition exponentEstimate (m : positive) (e : Z) : Z :=
  let l2 := Z.log2 (Zpos m) + e in
  (l2 * (if l2 <? 0 then 30103 else 30102)) / 100000.

Definition positiveToString (x : number) (m : positive) (e : Z) : jsstring :=
  let n := decimalExponent 8 m e (exponentEstimate m e) in
  let '(k, s) := shortest 20 x m e n 1 in
  if s =? 10 ^ k then layout (decimalString 1) 1 (n + 1)
  else layout (decimalString s) k n.

(** [x.toString()], [String(x)] and [`${x}`] on a Number. *)
Definition NumberToString (x : number) : jsstring :=
  match x with
  | S754_nan => js "NaN"
  | S754_zero _ => js "0"
  | S754_infinity false => js "Infinity"
  | S754_infinity true => js "-Infinity"
  | S754_finite false m e => positiveToString x m e
  | S754_finite true m e => 45%N :: positiveToString (S754_finite false m e) m e
  end.

End Conv.

(** ** Binary32 data and [DataView] *)

Module Float32.

(** The fields of a 32-bit pattern. *)
Definition signBit (bits : Z) : bool := Z.testbit bits 31.
Definition exponentField (bits : Z) : Z := Z.land (Z.shiftr bits 23) 255.
Definition fractionField (bits : Z) : Z := Z.land bits (2 ^ 23 - 1).

(** The binary32 datum denoted by a bit pattern ([prec = 24],
    [emax = 128]). *)
Definition ofBits (bits : Z) : spec_float :=
  let s := signBit bits in
  let e := exponentField bits in
  let f := fractionField bits in
  if e =? 255 then
    if f =? 0 then S754_infinity s else S754_nan
  else if e =? 0 then
    match f with
    | Zpos p => S754_finite s p (-149)
    | _ => S754_zero s
    end
  else S754_finite s (Z.to_pos (f + 2 ^ 23)) (e - 150).

(** A binary32 datum as a Number: the same value, with the mantissa
    aligned to 53 bits. *)
Definition toNumber (x : spec_float) : number :=
  match x with
  | S754_finite s m e => binary_round Num.prec Num.emax s m e
  | _ => x
  end.

End Float32.

Module DataView.

(** The [n] bytes at [offset], or the [RangeError] of an access outside
    the buffer. *)
Definition bytesAt (ab : list byte) (offset : Z) (n : nat)
  : completion (list byte) :=
  if (0 <=? offset) && (offset + Z.of_nat n <=? Z.of_nat (length ab)) then
    Return (firstn n (skipn (Z.to_nat offset) ab))
  else Throw (RangeError "Offset is outside the bounds of the DataView").

(** The unsigned integer written by bytes in little-endian order. *)
Fixpoint littleEndian (bs : list byte) : Z :=
  match bs with
  | [] => 0
  | b :: bs' => byteZ b + 256 * littleEndian bs'
  end.

(** [view.getUint32(offset, true)] *)
Definition getUint32 (ab : list byte) (offset : Z) : completion Z :=
  let* bs := bytesAt ab offset 4 in Return (littleEndian bs).

(** [view.getFloat32(offset, true)] *)
Definition getFloat32 (ab : list byte) (offset : Z) : completion number :=
  let* bs := bytesAt ab offset 4 in
  Return (Float32.toNumber (Float32.ofBits (littleEndian bs))).

End DataView.

(** ** The mesh decoders (server.js 65-140) *)

(** [readBinarySTL]: the inner loop reads [j] vertices from [offset] on
    and returns the new [offset] with the extended [verts]. *)
Fixpoint readVertices (ab : list byte) (j : nat) (offset : Z)
         (verts : list vertex) : completion (Z * list vertex) :=
  match j with
  | O => Return (offset, verts)
  | S j' =>
      let* x := DataView.getFloat32 ab offset in
      let* y := DataView.getFloat32 ab (offset + 4) in
      let* z := DataView.getFloat32 ab (offset + 8) in
      readVertices ab j' (offset + 12) (verts ++ [(x, y, z)])
  end.

(** The outer loop, for the [count] triangles still to be read. *)
Fixpoint readTriangles (ab : list byte) (count : nat) (offset : Z)
         (verts : list vertex) : completion (list vertex) :=
  match count with
  | O => Return verts
  | S count' =>
      let offset := offset + 12 in                      (* skip normal *)
      let* r := readVertices ab 3 offset verts in
      let '(offset, verts) := r in
      let offset := offset + 2 in                       (* skip attribute *)
      readTriangles ab count' offset verts
  end.

Definition readBinarySTL (ab : list byte) (count : Z) : completion (list vertex) :=
  readTriangles ab (Z.to_nat count) 84 [].

(** [/\s+/] *)
Definition whiteSpaceRun : Regex.pattern :=
  [Regex.mkPiece Regex.whiteSpace Regex.Plus false].

Section Decoders.

(** [String.prototype.toLowerCase]; the full Unicode case mapping is a
    parameter of the decoders. *)
Variable toLowerCase : jsstring -> jsstring.

(** One iteration of the [readASCIISTL] loop (lines 111-115): the
    vertices pushed for a line. *)
Definition asciiLineVertices (line : jsstring) : list vertex :=
  let parts := Regex.split whiteSpaceRun (toLowerCase (Str.trim line)) in
  match parts with
  | [p0; t1; t2; t3] =>
      if Str.eqb p0 (js "vertex") then
        [(Conv.StringToNumber t1, Conv.StringToNumber t2, Conv.StringToNumber t3)]
      else []
  | _ => []
  end.

Definition readASCIISTL (txt : jsstring) : list vertex :=
  flat_map asciiLineVertices (Str.split 10 txt).

Definition readSTL (buf : list byte) : completion (list vertex) :=
  let ab := buf in
  let byteLength := Z.of_nat (length ab) in
  let ascii :=
    let text := Utf8.decode ab in
    if Str.includes (toLowerCase text) (js "solid")
       && Str.includes (toLowerCase text) (js "facet")
    then Return (readASCIISTL text)
    else Throw (Error "Not a valid STL file") in
  if 84 <? byteLength then
    let* triangles := DataView.getUint32 ab 80 in
    if byteLength =? 84 + triangles * 50 then readBinarySTL ab triangles
    else ascii
  else ascii.

End Decoders.

(** One iteration of the [readOBJ] loop (lines 72-78). *)
Definition objLineVertices (line : jsstring) : list vertex :=
  let parts := Regex.split whiteSpaceRun (Str.trim line) in
  match parts with
  | p0 :: t1 :: t2 :: t3 :: _ =>
      if Str.eqb p0 (js "v") then
        let x := Conv.StringToNumber t1 in
        let y := Conv.StringToNumber t2 in
        let z := Conv.StringToNumber t3 in
        if negb (Num.isNaN x) && negb (Num.isNaN y) && negb (Num.isNaN z)
        then [(x, y, z)] else []
      else []
  | _ => []
  end.

Definition readOBJ (buf : list byte) : completion (list vertex) :=
  let txt := Utf8.decode buf in
  let verts := flat_map objLineVertices (Str.split 10 txt) in
  match verts with
  | [] => Throw (Error "No valid vertices in OBJ")
  | _ => Return verts
  end.

(** ** [parsePrintTime] (server.js 270-285) *)

Definition printTimeMarker : jsstring := js "; estimated printing time".

(** [[^=]*=\s*(.+)], the pattern after the marker *)
Definition printTimeTail : Regex.pattern :=
  [ Regex.mkPiece (Regex.notChar 61) Regex.Star false;
    Regex.char 61;
    Regex.mkPiece Regex.whiteSpace Regex.Star false;
    Regex.mkPiece Regex.anyChar Regex.Plus true ].

(** [/; estimated printing time[^=]*=\s*(.+)/] *)
Definition printTimePattern : Regex.pattern :=
  Regex.literal printTimeMarker ++ printTimeTail.

(** The [for ... of lines] loop with its [break]. *)
Fixpoint scanPrintTime (lines : list jsstring) : jsstring :=
  match lines with
  | [] => js "Unknown"
  | line :: rest =>
      if Str.includes line printTimeMarker then
        match Regex.search printTimePattern line with
        | Some (_, Some group1) => Str.trim group1
        | _ => scanPrintTime rest
        end
      else scanPrintTime rest
  end.

Definition parsePrintTime (gcodeContent : jsstring) : jsstring :=
  scanPrintTime (Str.split 10 gcodeContent).

(** ** [getMaterialSettings] and [generatePrusaCommand] (server.js 190-317) *)

(** The Number denoted by a decimal literal of the source text. *)
Definition lit (s : string) : number := Conv.StringToNumber (js s).

Record profile := mkProfile {
  extruder : number;
  bed : number;
  firstLayerTemp : number;
  coolingFanSpeed : number;
  retractionLength : number;
  retractionSpeed : number
}.

Definition mkProfileLit (e b f c rl rs : string) : profile :=
  mkProfile (lit e) (lit b) (lit f) (lit c) (lit rl) (lit rs).

(** The own properties of the [settings] object literal. *)
Definition settings : list (string * profile) :=
  [ ("PLA"%string,   mkProfileLit "210" "60" "215" "100" "2" "40");
    ("ABS"%string,   mkProfileLit "250" "100" "255" "30" "1" "40");
    ("PETG"%string,  mkProfileLit "240" "80" "245" "50" "3" "40");
    ("TPU"%string,   mkProfileLit "220" "50" "225" "80" "0.5" "25");
    ("PC"%string,    mkProfileLit "280" "100" "285" "40" "1.5" "35");
    ("ASA"%string,   mkProfileLit "250" "80" "255" "30" "1" "40");
    ("PEEK"%string,  mkProfileLit "400" "120" "405" "20" "1" "30");
    ("Nylon"%string, mkProfileLit "270" "80" "275" "60" "2" "35") ].

Definition defaultProfile : profile :=
  mkProfileLit "210" "60" "215" "100" "2" "40".

(** [settings] is an ordinary object, so [settings[material]] also finds
    the properties it inherits from [Object.prototype]. *)
Definition objectPrototypeKeys : list string :=
  ([ "constructor"; "__proto__"; "hasOwnProperty"; "isPrototypeOf";
    "propertyIsEnumerable"; "toLocaleString"; "toString"; "valueOf";
    "__defineGetter__"; "__defineSetter__"; "__lookupGetter__";
    "__lookupSetter__" ])%string.

(** What [getMaterialSettings] returns: a profile, or an inherited
    member, which is truthy and has none of the profile's fields. *)
Inductive materialSettings :=
| Profile (p : profile)
| InheritedMember.

Fixpoint ownProperty (key : jsstring) (table : list (string * profile)) : option profile :=
  match table with
  | [] => None
  | (k, p) :: table' => if Str.eqb key (js k) then Some p else ownProperty key table'
  end.

Definition getMaterialSettings (material : jsstring) : materialSettings :=
  match ownProperty material settings with
  | Some p => Profile p
  | None =>
      if existsb (fun k => Str.eqb material (js k)) objectPrototypeKeys
      then InheritedMember
      else Profile defaultProfile
  end.

Record config := mkConfig {
  material : jsstring;
  materialType : jsstring;
  nozzleSize : number;
  fillDensity : number;
  supportMaterial : bool
}.

(** Lines 291-294. *)
Definition layerHeight (cfg : config) : number :=
  if Num.le (nozzleSize cfg) (lit "0.3")
  then Num.max (lit "0.1") (Num.mul (nozzleSize cfg) (lit "0.5"))
  else lit "0.2".

(** [a || b] on Strings: the empty String is falsy. *)
Definition orElse (a b : jsstring) : jsstring :=
  match a with [] => b | _ => a end.

(** [args.splice(start, 0, item)] *)
Definition spliceInsert {A} (start : Z) (item : A) (args : list A) : list A :=
  let len := Z.of_nat (length args) in
  let actualStart := if start <? 0 then Z.max (len + start) 0 else Z.min start len in
  firstn (Z.to_nat actualStart) args ++ item :: skipn (Z.to_nat actualStart) args.

Definition supportMaterialFlag : jsstring := js "--support-material".

Definition generatePrusaCommand (cfg : config) (inputFilePath outputFilePath : jsstring)
  : completion (list jsstring) :=
  match getMaterialSettings (material cfg) with
  | InheritedMember =>
      (* [materialSettings.extruder] is [undefined] *)
      Throw (TypeError "Cannot read properties of undefined (reading 'toString')")
  | Profile ms =>
      let args :=
        [ js "--nozzle-diameter"; Conv.NumberToString (nozzleSize cfg);
          js "--filament-type"; orElse (materialType cfg) (material cfg);
          js "--temperature"; Conv.NumberToString (extruder ms);
          js "--first-layer-temperature"; Conv.NumberToString (firstLayerTemp ms);
          js "--bed-temperature"; Conv.NumberToString (bed ms);
          js "--retract-length"; Conv.NumberToString (retractionLength ms);
          js "--retract-speed"; Conv.NumberToString (retractionSpeed ms);
          js "--fill-density"; Conv.NumberToString (fillDensity cfg) ++ js "%";
          js "--layer-height"; Conv.NumberToString (layerHeight cfg);
          js "--bed-shape"; js "0x0,300x0,300x300,0x300";
          js "--export-gcode";
          js "--output"; outputFilePath;
          inputFilePath ] in
      Return (if supportMaterial cfg
              then spliceInsert (-3) supportMaterialFlag args
              else args)
  end.

(** ** The submit-configuration handler from staging on (server.js 372-478)

    The handler is run for one request that passed the checks of lines
    326-370.  The file system is explicit state: a write can fail, an
    unlink can fail.  The slicer is an arbitrary process that transforms
    the file system.  The handler gives up control once, at the [await]
    of line 405; what the timers and the other requests do meanwhile to
    the variable [uploadedFile] is part of the environment, because line
    443 reads the variable again.  Nothing in the [catch] block can throw
    here, so the outer [catch] of lines 480-485 is never entered after
    staging. *)

Record filesystem := mkFs {
  files : gmap jsstring (list byte);
  (** paths that cannot be unlinked (held open by another process, no
      permission on the directory) *)
  locked : gset jsstring;
  (** paths at which a write fails, each with the error that the write
      throws (ENOENT when the directory is missing, EACCES, EROFS,
      ENOSPC, ...) and with what the path holds afterwards when the
      failing write had already created or truncated the file *)
  denied : gmap jsstring (exn * option (list byte))
}.

Inductive logEntry :=
| LogSuccess (printTime : jsstring)       (* console.log, line 446 *)
| LogCleanupError (e : exn)               (* console.error, line 459 *)
| LogPrusaError (e : exn).                (* console.error, line 463 *)

Record world := mkWorld {
  fs : filesystem;
  console : list logEntry
}.

(** Computations over the world that return or throw. *)
Definition M (A : Type) : Type := world -> completion A * world.

Definition ret {A} (a : A) : M A := fun w => (Return a, w).
Definition throw {A} (e : exn) : M A := fun w => (Throw e, w).
Definition bind {A B} (c : M A) (k : A -> M B) : M B :=
  fun w => match c w with
           | (Return a, w') => k a w'
           | (Throw e, w') => (Throw e, w')
           end.
Definition tryCatch {A} (body : M A) (handler : exn -> M A) : M A :=
  fun w => match body w with
           | (Return a, w') => (Return a, w')
           | (Throw e, w') => handler e w'
           end.
Definition liftC {A} (c : completion A) : M A := fun w => (c, w).

Notation "'let!' x ':=' c 'in' k" := (bind c (fun x => k))
  (at level 10, x name, c at level 100, k at level 200).

Module Fs.

Definition existsSync (p : jsstring) : M bool :=
  fun w => (Return (bool_decide (is_Some (files (fs w) !! p))), w).

Definition writeFileSync (p : jsstring) (data : list byte) : M unit :=
  fun w => match denied (fs w) !! p with
           | Some (err, None) => (Throw err, w)
           | Some (err, Some part) =>
               (Throw err,
                mkWorld (mkFs (<[p := part]> (files (fs w))) (locked (fs w))
                              (denied (fs w)))
                        (console w))
           | None =>
               (Return tt,
                mkWorld (mkFs (<[p := data]> (files (fs w))) (locked (fs w))
                              (denied (fs w)))
                        (console w))
           end.

Definition statSync (p : jsstring) : M unit :=
  fun w => match files (fs w) !! p with
           | Some _ => (Return tt, w)
           | None => (Throw (SystemError "ENOENT" "stat" p), w)
           end.

Definition readFileSync (p : jsstring) : M jsstring :=
  fun w => match files (fs w) !! p with
           | Some data => (Return (Utf8.toString data), w)
           | None => (Throw (SystemError "ENOENT" "open" p), w)
           end.

Definition unlinkSync (p : jsstring) : M unit :=
  fun w => match files (fs w) !! p with
           | None => (Throw (SystemError "ENOENT" "unlink" p), w)
           | Some _ =>
               if bool_decide (p ∈ locked (fs w))
               then (Throw (SystemError "EBUSY" "unlink" p), w)
               else (Return tt,
                     mkWorld (mkFs (delete p (files (fs w))) (locked (fs w))
                                   (denied (fs w)))
                             (console w))
           end.

End Fs.

Definition consoleWrite (entry : logEntry) : M unit :=
  fun w => (Return tt, mkWorld (fs w) (console w ++ [entry])).

(** How [execFileAsync] settles: the promise resolves, or it is rejected
    (non-zero exit status, signal, or the kill after [timeout]). *)
Inductive execOutcome :=
| Resolved (stdout stderr : jsstring)
| Rejected (exitCode : option Z) (killed : bool) (stdout stderr : jsstring).

(** What the variable [uploadedFile] holds (lines 168-172). *)
Record uploaded := mkUploaded {
  buffer : list byte;
  filename : jsstring;
  extension : jsstring
}.

Record env := mkEnv {
  tmpdir : jsstring;            (* os.tmpdir() *)
  sep : N;                      (* path.sep *)
  PRUSA_SLICER_PATH : jsstring;
  (** the external process, started with the given arguments: what the
      file system holds when the promise settles (the handler is
      suspended meanwhile), and how it settles *)
  execFileAsync : jsstring -> list jsstring -> filesystem -> execOutcome * filesystem;
  (** what [uploadedFile] holds when the handler resumes after the
      [await] of line 405, given the upload it held when the slicer was
      started: a timer can have cleared it, another upload can have
      replaced it *)
  resumedUpload : uploaded -> option uploaded
}.

(** [path.join(os.tmpdir(), name)] for a plain file name. *)
Definition pathJoin (e : env) (name : jsstring) : jsstring :=
  tmpdir e ++ sep e :: name.

(** The fields of the request body, [nozzleSize] and [fillDensity] after
    [parseFloat] and [parseInt], [supportMaterial] after [Boolean]. *)
Record request := mkRequest {
  rq_designUnit : jsstring;
  rq_material : jsstring;
  rq_materialType : jsstring;
  rq_nozzleSize : number;
  rq_fillDensity : number;
  rq_supportMaterial : bool
}.

Record processedConfig := mkProcessed {
  pc_designUnit : jsstring;
  pc_material : jsstring;
  pc_materialType : jsstring;
  pc_nozzleSize : number;
  pc_fillDensity : number;
  pc_supportMaterial : bool;
  pc_printTime : jsstring;
  pc_filename : jsstring
}.

Inductive response :=
| Status200 (data : processedConfig)
| Status500 (error : exn).   (* 'PrusaSlicer processing failed: ' + message *)

Definition missingOutput : exn :=
  Error "PrusaSlicer did not create output file, try using different input file or settings".

Section Handler.

Variable e : env.

(** Lines 404-417: the call is wrapped in a [try]/[catch] that records
    the rejection, so this step never throws. *)
Definition invokeEngine (prusaArgs : list jsstring) : M execOutcome :=
  fun w =>
    let '(outcome, fs') := execFileAsync e (PRUSA_SLICER_PATH e) prusaArgs (fs w) in
    (Return outcome, mkWorld fs' (console w)).

(** Lines 420-426: the output file is required and read. *)
Definition collectOutput (tempOutputFile : jsstring) : M jsstring :=
  let! present := Fs.existsSync tempOutputFile in
  if negb present then throw missingOutput
  else Fs.readFileSync tempOutputFile.

(** Lines 404-426 together: the slicing invocation and its product. *)
Definition slice (prusaArgs : list jsstring) (tempOutputFile : jsstring) : M jsstring :=
  let! _ := invokeEngine prusaArgs in
  collectOutput tempOutputFile.

Definition configOf (rq : request) : config :=
  mkConfig (rq_material rq) (rq_materialType rq) (rq_nozzleSize rq)
           (rq_fillDensity rq) (rq_supportMaterial rq).

(** Lines 433-444; [current] is what [uploadedFile] holds at line 443. *)
Definition processed (current : uploaded) (rq : request) (printTime : jsstring)
  : processedConfig :=
  mkProcessed (rq_designUnit rq) (rq_material rq) (rq_materialType rq)
              (rq_nozzleSize rq) (rq_fillDensity rq) (rq_supportMaterial rq)
              printTime (filename current).

(** [uploadedFile.filename] at line 443, after the [await]. *)
Definition currentUpload (up : uploaded) : completion uploaded :=
  match resumedUpload e up with
  | Some current => Return current
  | None => Throw (TypeError "Cannot read properties of null (reading 'filename')")
  end.

(** Lines 404-452: run the slicer, read its product, delete the temp
    files, build the answer and send it. *)
Definition sliceAndRespond (up : uploaded) (rq : request)
           (tempInputFile tempOutputFile : jsstring)
           (prusaArgs : list jsstring) : M response :=
  let! gcodeContent := slice prusaArgs tempOutputFile in
  let printTime := parsePrintTime gcodeContent in
  let! _ := Fs.unlinkSync tempInputFile in
  let! _ := Fs.unlinkSync tempOutputFile in
  let! current := liftC (currentUpload up) in
  let! _ := consoleWrite (LogSuccess printTime) in
  ret (Status200 (processed current rq printTime)).

(** Lines 379-385: the upload is written to the temp input path. *)
Definition stageInput (up : uploaded) (tempInputFile : jsstring) : M unit :=
  let! _ := Fs.writeFileSync tempInputFile (buffer up) in
  let! created := Fs.existsSync tempInputFile in
  if negb created then throw (Error "Failed to create temporary input file")
  else Fs.statSync tempInputFile.

(** The [try] block, lines 378-452. *)
Definition tryBlock (up : uploaded) (rq : request)
           (tempInputFile tempOutputFile : jsstring) : M response :=
  let! _ := stageInput up tempInputFile in
  let cfg := configOf rq in
  let! prusaArgs := liftC (generatePrusaCommand cfg tempInputFile tempOutputFile) in
  sliceAndRespond up rq tempInputFile tempOutputFile prusaArgs.

(** The inner [try]/[catch] of the handler's [catch], lines 455-460. *)
Definition cleanup (tempInputFile tempOutputFile : jsstring) : M unit :=
  tryCatch
    (let! inputThere := Fs.existsSync tempInputFile in
     let! _ := (if inputThere then Fs.unlinkSync tempInputFile else ret tt) in
     let! outputThere := Fs.existsSync tempOutputFile in
     if outputThere then Fs.unlinkSync tempOutputFile else ret tt)
    (fun cleanupError => consoleWrite (LogCleanupError cleanupError)).

(** The [catch (prusaError)] block, lines 454-478. *)
Definition catchBlock (tempInputFile tempOutputFile : jsstring) (prusaError : exn)
  : M response :=
  let! _ := cleanup tempInputFile tempOutputFile in
  let! _ := consoleWrite (LogPrusaError prusaError) in
  ret (Status500 prusaError).

(** Lines 372-478; [now1] and [now2] are the two readings of
    [Date.now()]. *)
Definition tempInputPath (up : uploaded) (now1 : number) : jsstring :=
  pathJoin e (js "input_" ++ Conv.NumberToString now1 ++ js "." ++ extension up).
Definition tempOutputPath (now2 : number) : jsstring :=
  pathJoin e (js "output_" ++ Conv.NumberToString now2 ++ js ".gcode").

Definition submitStaged (up : uploaded) (rq : request) (now1 now2 : number)
  : M response :=
  let tempInputFile := tempInputPath up now1 in
  let tempOutputFile := tempOutputPath now2 in
  tryCatch (tryBlock up rq tempInputFile tempOutputFile)
           (catchBlock tempInputFile tempOutputFile).

End Handler.

(** ** The decode dispatch of the dimensions handler (server.js 160-164) *)

Inductive meshExtension := ExtStl | ExtObj.

Definition decodeMesh (toLowerCase : jsstring -> jsstring) (ext : meshExtension)
           (file : list byte) : completion (list vertex) :=
  match ext with
  | ExtStl => readSTL toLowerCase file
  | ExtObj => readOBJ file
  end.

Definition dimensions (toLowerCase : jsstring -> jsstring) (ext : meshExtension)
           (file : list byte) : completion size :=
  let* verts := decodeMesh toLowerCase ext file in
  getSize verts.

(** ** Synthetic binary STL files

    The files of the decoding property: an 80-byte header, the triangle
    count, and 50 bytes per triangle.  Coordinates are binary32 data. *)

Module Synthetic.

Definition byteOfZ (z : Z) : byte :=
  match Byte.of_N (Z.to_N (z mod 256)) with
  | Some b => b
  | None => "000"%byte
  end.

Definition le16 (z : Z) : list byte := [byteOfZ z; byteOfZ (z / 256)].

Definition le32 (z : Z) : list byte :=
  [byteOfZ z; byteOfZ (z / 256); byteOfZ (z / 256 / 256);
   byteOfZ (z / 256 / 256 / 256)].

(** The bit pattern of a binary32 datum (the quiet NaN for NaN). *)
Definition toBits (x : spec_float) : Z :=
  let sign (s : bool) := if s then 2 ^ 31 else 0 in
  match x with
  | S754_zero s => sign s
  | S754_infinity s => sign s + 255 * 2 ^ 23
  | S754_nan => 255 * 2 ^ 23 + 2 ^ 22
  | S754_finite s m e =>
      if Zpos m <? 2 ^ 23 then sign s + Zpos m
      else sign s + (e + 150) * 2 ^ 23 + (Zpos m - 2 ^ 23)
  end.

Definition isBinary32 (x : spec_float) : bool := valid_binary 24 128 x.

Definition vec3 : Type := spec_float * spec_float * spec_float.

Definition isBinary32Vec (v : vec3) : bool :=
  let '(x, y, z) := v in isBinary32 x && isBinary32 y && isBinary32 z.

Record triangle := mkTriangle {
  normal : vec3;
  corner1 : vec3;
  corner2 : vec3;
  corner3 : vec3;
  attribute : Z
}.

Definition corners (t : triangle) : list vec3 := [corner1 t; corner2 t; corner3 t].

Definition encodeVec (v : vec3) : list byte :=
  let '(x, y, z) := v in le32 (toBits x) ++ le32 (toBits y) ++ le32 (toBits z).

Definition encodeTriangle (t : triangle) : list byte :=
  encodeVec (normal t) ++ flat_map encodeVec (corners t) ++ le16 (attribute t).

Definition encodeBinarySTL (header : list byte) (ts : list triangle) : list byte :=
  header ++ le32 (Z.of_nat (length ts)) ++ flat_map encodeTriangle ts.

(** A binary32 datum and a Number that denote the same value: same
    special value, or same sign and [m * 2^e = m' * 2^e']. *)
Definition sameValue (x : spec_float) (y : number) : Prop :=
  match x, y with
  | S754_zero s, S754_zero s' => s = s'
  | S754_infinity s, S754_infinity s' => s = s'
  | S754_nan, S754_nan => True
  | S754_finite s m e, S754_finite s' m' e' =>
      s = s' /\ e' <= e /\ Zpos m' = Zpos m * 2 ^ (e - e')
  | _, _ => False
  end.

(** The triangles whose corner coordinates are binary32 data. *)
Definition cornersValid (t : triangle) : bool := forallb isBinary32Vec (corners t).

(** The point a corner is read as. *)
Definition decodeVec (v : vec3) : vertex :=
  let '(x, y, z) := v in
  (Float32.toNumber x, Float32.toNumber y, Float32.toNumber z).

Definition sameVertex (v : vec3) (p : vertex) : Prop :=
  sameValue (fst (fst v)) (vx p) /\ sameValue (snd (fst v)) (vy p) /\
  sameValue (snd v) (vz p).

End Synthetic.

(** ** The order of Numbers as a lexicographic order

    A Number that is not NaN is ranked by a triple of integers: its class
    (negative infinity, negative, zero, positive, positive infinity), then
    its exponent and its mantissa, negated for negative Numbers. *)

Module NumKey.

Definition key (x : number) : Z * Z * Z :=
  match x with
  | S754_infinity true => (-2, 0, 0)
  | S754_finite true m e => (-1, - e, Zneg m)
  | S754_zero _ | S754_nan => (0, 0, 0)
  | S754_finite false m e => (1, e, Zpos m)
  | S754_infinity false => (2, 0, 0)
  end.

Definition lex (p q : Z * Z * Z) : comparison :=
  let '(a, b, c) := p in
  let '(a', b', c') := q in
  match a ?= a' with
  | Eq => match b ?= b' with Eq => c ?= c' | r => r end
  | r => r
  end.

Definition leK (p q : Z * Z * Z) : Prop :=
  let '(a, b, c) := p in
  let '(a', b', c') := q in
  a < a' \/ (a = a' /\ (b < b' \/ (b = b' /\ c <= c'))).

End NumKey.

(** ** Vocabulary of the bounding-box property *)

Definition hasNaN (xs : list number) : bool := existsb Num.isNaN xs.

Definition isMaximum (xs : list number) (m : number) : Prop :=
  In m xs /\ forall v, In v xs -> Num.le v m = true.

Definition isMinimum (xs : list number) (m : number) : Prop :=
  In m xs /\ forall v, In v xs -> Num.le m v = true.

(** [d] is the extent of the coordinates [xs]: the maximum minus the
    minimum, NaN when a coordinate is NaN. *)
Definition extentOf (xs : list number) (d : number) : Prop :=
  if hasNaN xs then d = Num.NaN
  else exists hi lo, isMaximum xs hi /\ isMinimum xs lo /\ d = Num.sub hi lo.

(** ** Vocabulary of the decoding properties *)

(** The binary size check of [readSTL] succeeds: more than 84 bytes, and
    the length is 84 plus 50 bytes per declared triangle. *)
Definition sizeMatches (buf : list byte) : Prop :=
  84 < Z.of_nat (length buf) /\
  exists count, DataView.getUint32 buf 80 = Return count /\
                Z.of_nat (length buf) = 84 + count * 50.

(** ** Vocabulary of the print-time property *)

Module PrintTimeSpec.

(** The text after the first occurrence of the marker in a line. *)
Fixpoint afterMarker (line : jsstring) : option jsstring :=
  if Str.startsWith line printTimeMarker
  then Some (skipn (length printTimeMarker) line)
  else match line with
       | [] => None
       | _ :: line' => afterMarker line'
       end.

(** The text after the first occurrence of a character. *)
Fixpoint afterChar (c : N) (s : jsstring) : option jsstring :=
  match s with
  | [] => None
  | x :: s' => if N.eqb x c then Some s' else afterChar c s'
  end.

(** The substring following the first "=" after the marker. *)
Definition valueText (line : jsstring) : option jsstring :=
  match afterMarker line with
  | Some r => afterChar 61 r
  | None => None
  end.

(** The value read from the text [t] after that "=": from the first
    character that is not white space up to the next line terminator,
    trimmed. *)
Definition valueOf (t : jsstring) : jsstring :=
  Str.trim (Str.takeWhile Regex.anyChar (Str.dropWhile Str.isWhiteSpace t)).

(** The print time a line yields: the text after the "=" must hold a
    character that is not a line terminator. *)
Definition lineValue (line : jsstring) : option jsstring :=
  match valueText line with
  | Some t => if existsb Regex.anyChar t then Some (valueOf t) else None
  | None => None
  end.

(** The value of the first line that yields one. *)
Fixpoint firstValue (lines : list jsstring) : jsstring :=
  match lines with
  | [] => js "Unknown"
  | line :: rest =>
      match lineValue line with
      | Some v => v
      | None => firstValue rest
      end
  end.

(** A match result whose capture group trims to [v]. *)
Definition matched (r : option Regex.result) (v : jsstring) : Prop :=
  exists n c, r = Some (n, Some c) /\ Str.trim c = v.

(** Does the text after the marker hold an "=" followed by a character
    that is not a line terminator? *)
Definition tailOK (r : jsstring) : bool :=
  match afterChar 61 r with
  | Some t => existsb Regex.anyChar t
  | None => false
  end.

End PrintTimeSpec.

(** ** Vocabulary of the temp-file properties *)

(** The world once the upload has been written to the temp input path. *)
Definition staged (w : world) (tempInputFile : jsstring) (data : list byte) : world :=
  mkWorld (mkFs (<[tempInputFile := data]> (files (fs w))) (locked (fs w))
                (denied (fs w)))
          (console w).

(** The world once the write to the temp input path has failed; [residue]
    is what the failing write left at the path, if it created the file. *)
Definition writeFailed (w : world) (tempInputFile : jsstring)
           (residue : option (list byte)) : world :=
  match residue with
  | Some part => staged w tempInputFile part
  | None => w
  end.

(** ** A slicing run in which a temp file cannot be deleted

    The slicer writes its G-code to the path given after "--output" and
    exits normally; the input file, the last argument, is still held open
    when the handler goes on, so that it cannot be unlinked. *)

Module Scenario.

Fixpoint outputArgument (args : list jsstring) : option jsstring :=
  match args with
  | flag :: (path :: _) as rest =>
      if Str.eqb flag (js "--output") then Some path else outputArgument rest
  | _ => None
  end.

Definition gcode : list byte :=
  Utf8.bytes "; estimated printing time (normal mode) = 1h 2m".

Definition slicer (_ : jsstring) (args : list jsstring) (fsys : filesystem)
  : execOutcome * filesystem :=
  match outputArgument args with
  | Some out =>
      (Resolved [] [],
       mkFs (<[out := gcode]> (files fsys)) (locked fsys ∪ {[List.last args []]})
            (denied fsys))
  | None => (Rejected (Some 1) false [] [], fsys)
  end.

(** While the slicer runs nothing else touches [uploadedFile]. *)
Definition environment : env :=
  mkEnv (js "/tmp") 47 (js "/usr/bin/prusa-slicer") slicer Some.

(** A slicer that writes its G-code and then exits with status 1 after a
    warning; nothing stays locked. *)
Definition warningSlicer (_ : jsstring) (args : list jsstring) (fsys : filesystem)
  : execOutcome * filesystem :=
  match outputArgument args with
  | Some out =>
      (Rejected (Some 1) false [] (js "warning"),
       mkFs (<[out := gcode]> (files fsys)) (locked fsys) (denied fsys))
  | None => (Rejected (Some 1) false [] [], fsys)
  end.

Definition warningEnvironment : env :=
  mkEnv (js "/tmp") 47 (js "/usr/bin/prusa-slicer") warningSlicer Some.

Definition upload : uploaded :=
  mkUploaded (Utf8.bytes "solid cube") (js "cube.stl") (js "stl").

Definition body : request :=
  mkRequest (js "mm") (js "PLA") (js "PLA") (lit "0.4") (lit "20") false.

Definition now : number := lit "1700000000000".

Definition emptyWorld : world := mkWorld (mkFs ∅ ∅ ∅) [].

End Scenario.

(** ** The retained upload and the dimensions handler (server.js 26-33, 144-187)

    The process keeps one uploaded file in the variable [uploadedFile].
    Every successful upload registers a timer that clears the variable 30
    minutes later when the retained file still carries the name of that
    upload.  All timers have the same delay, so they fire in the order in
    which they were registered. *)

(** The fields of [req.file] that the handler reads. *)
Record multerFile := mkFile {
  originalname : jsstring;
  fileBuffer : list byte
}.

(** The fields of [req.body] that the submit handler reads.  [material],
    [materialType] and [designUnit] are Strings when they are present;
    [nozzleSize], [fillDensity] and [supportMaterial] are any values that
    [JSON.parse] can give, [VUndefined] when the field is absent. *)
#[warnings="-register-all"]
Inductive jsvalue :=
| VUndefined
| VNull
| VBool (b : bool)
| VNumber (n : number)
| VString (s : jsstring)
| VArray (elements : list jsvalue)
| VObject (members : list (jsstring * jsvalue)).

Record body := mkBody {
  body_designUnit : option jsstring;
  body_material : option jsstring;
  body_materialType : option jsstring;
  body_nozzleSize : jsvalue;
  body_fillDensity : jsvalue;
  body_supportMaterial : jsvalue
}.

(** The console lines of the two handlers outside lines 372-478. *)
Inductive notice :=
| NoticeClearing (name : jsstring)                 (* line 30 *)
| NoticeGot (ext name : jsstring) (bytes : nat)    (* line 158 *)
| NoticeDone (s : size)                            (* line 165 *)
| NoticeAutoClear                                  (* line 176 *)
| NoticeReadError (err : exn)                      (* line 184 *)
| NoticeProcessing (b : option body)               (* line 323 *)
| NoticeUnavailable                                (* line 327 *)
| NoticeInternal (err : exn).                      (* line 481 *)

Record server := mkServer {
  uploadedFile : option uploaded;   (* line 26 *)
  (** the pending auto-clear callbacks, oldest first, each with the file
      name it closes over *)
  timers : list jsstring;
  journal : list notice;
  (** the file system and the console lines of lines 372-478 *)
  host : world
}.

Definition note (n : notice) (s : server) : server :=
  mkServer (uploadedFile s) (timers s) (journal s ++ [n]) (host s).

Definition clearUploadedFile (s : server) : server :=
  match uploadedFile s with
  | Some up =>
      mkServer None (timers s) (journal s ++ [NoticeClearing (filename up)]) (host s)
  | None => s
  end.

(** The callback of [setTimeout] (lines 174-179) for an upload named
    [name]. *)
Definition autoClear (name : jsstring) (s : server) : server :=
  match uploadedFile s with
  | Some up =>
      if Str.eqb (filename up) name
      then clearUploadedFile (note NoticeAutoClear s)
      else s
  | None => s
  end.

(** The oldest pending timer fires. *)
Definition expire (s : server) : server :=
  match timers s with
  | [] => s
  | name :: rest =>
      autoClear name (mkServer (uploadedFile s) rest (journal s) (host s))
  end.

Inductive uploadResponse :=
| Dimensions (s : size)            (* 200, [res.json(size)] *)
| Rejected400 (error : jsstring)   (* 400 *)
| Failed500 (err : exn).           (* 500 with [err.message] *)

Section Upload.

Variable toLowerCase : jsstring -> jsstring.

(** [originalname.split('.').pop().toLowerCase()] *)
Definition extensionOf (name : jsstring) : jsstring :=
  toLowerCase (List.last (Str.split 46 name) []).

(** [['stl', 'obj'].includes(ext)], and which of the two it is. *)
Definition meshExtensionOf (ext : jsstring) : option meshExtension :=
  if Str.eqb ext (js "stl") then Some ExtStl
  else if Str.eqb ext (js "obj") then Some ExtObj
  else None.

(** [POST /api/dimensions]; [file] is [req.file]. *)
Definition postDimensions (file : option multerFile) (s : server)
  : uploadResponse * server :=
  match file with
  | None => (Rejected400 (js "No file uploaded"), s)
  | Some f =>
      let ext := extensionOf (originalname f) in
      match meshExtensionOf ext with
      | None => (Rejected400 (js "Only STL and OBJ supported, not " ++ ext), s)
      | Some kind =>
          match fileBuffer f with
          | [] => (Rejected400 (js "File is empty or corrupted"), s)
          | _ =>
              let s1 := note (NoticeGot ext (originalname f) (length (fileBuffer f))) s in
              match dimensions toLowerCase kind (fileBuffer f) with
              | Throw err => (Failed500 err, note (NoticeReadError err) s1)
              | Return sz =>
                  let s2 := note (NoticeDone sz) s1 in
                  (Dimensions sz,
                   mkServer (Some (mkUploaded (fileBuffer f) (originalname f) ext))
                            (timers s2 ++ [originalname f]) (journal s2) (host s2))
              end
          end
      end
  end.

End Upload.

(** ** The checks of the submit handler (server.js 321-371) *)

Module Coerce.

(** [ToBoolean]: arrays and objects are truthy. *)
Definition ToBoolean (v : jsvalue) : bool :=
  match v with
  | VUndefined | VNull => false
  | VBool b => b
  | VNumber (S754_zero _) | VNumber S754_nan => false
  | VNumber _ => true
  | VString [] => false
  | VString _ => true
  | VArray _ | VObject _ => true
  end.

(** Does a parsed object have an own member of that name? *)
Definition hasOwn (name : string) (members : list (jsstring * jsvalue)) : bool :=
  existsb (fun m => Str.eqb (fst m) (js name)) members.

Definition notPrimitive : exn :=
  TypeError "Cannot convert object to primitive value".

(** [ToString], and [ToPrimitive] on arrays and objects (ECMAScript
    7.1.1).  An object made by [JSON.parse] inherits [toString] and
    [valueOf] from [Object.prototype] unless it has own members of these
    names, and an own member is never callable.  The inherited [valueOf]
    returns the object itself.  So an object without an own [toString]
    converts to "[object Object]" under both hints, and for an object
    with one no method gives a primitive value: the conversion throws.
    An array is joined with commas, [null] as the empty String. *)
Fixpoint ToString (v : jsvalue) : completion jsstring :=
  match v with
  | VUndefined => Return (js "undefined")
  | VNull => Return (js "null")
  | VBool true => Return (js "true")
  | VBool false => Return (js "false")
  | VNumber n => Return (Conv.NumberToString n)
  | VString s => Return s
  | VArray elements =>
      (fix join (l : list jsvalue) : completion jsstring :=
         match l with
         | [] => Return []
         | x :: rest =>
             let* a := match x with
                       | VUndefined | VNull => Return []
                       | _ => ToString x
                       end in
             match rest with
             | [] => Return a
             | _ => let* b := join rest in Return (a ++ 44%N :: b)
             end
         end) elements
  | VObject members =>
      if hasOwn "toString" members then Throw notPrimitive
      else Return (js "[object Object]")
  end.

(** [ToNumber] *)
Definition ToNumber (v : jsvalue) : completion number :=
  match v with
  | VUndefined => Return Num.NaN
  | VNull => Return (S754_zero false)
  | VBool true => Return (Num.ofZ 1)
  | VBool false => Return (S754_zero false)
  | VNumber n => Return n
  | VString s => Return (Conv.StringToNumber s)
  | VArray _ | VObject _ => let* s := ToString v in Return (Conv.StringToNumber s)
  end.

(** [v < n] and [v > n] for a Number [n]: the comparison of [ToNumber v]
    with [n], false when that is NaN; the conversion can throw. *)
Definition below (v : jsvalue) (n : number) : completion bool :=
  let* x := ToNumber v in Return (Num.lt x n).
Definition above (v : jsvalue) (n : number) : completion bool :=
  let* x := ToNumber v in Return (Num.lt n x).

(** The value of the longest prefix of [s] that is an [ExponentPart];
    0 when no prefix is one. *)
Definition exponentPrefix (s : jsstring) : Z :=
  match s with
  | 101%N :: r | 69%N :: r =>
      let '(neg, ds) :=
        match r with
        | 43%N :: r' => (false, Str.takeWhile Conv.isDigit r')
        | 45%N :: r' => (true, Str.takeWhile Conv.isDigit r')
        | _ => (false, Str.takeWhile Conv.isDigit r)
        end in
      match ds with
      | [] => 0
      | _ => if neg then - Conv.decimalValue ds else Conv.decimalValue ds
      end
  | _ => 0
  end.

(** The value of the longest prefix of [s] that is a
    [StrUnsignedDecimalLiteral]; NaN when no prefix is one. *)
Definition unsignedPrefix (neg : bool) (s : jsstring) : number :=
  if Str.startsWith s (js "Infinity") then S754_infinity neg
  else
    let ip := Str.takeWhile Conv.isDigit s in
    let r1 := Str.dropWhile Conv.isDigit s in
    let '(fp, r2) :=
      match r1 with
      | 46%N :: r => (Str.takeWhile Conv.isDigit r, Str.dropWhile Conv.isDigit r)
      | _ => ([], r1)
      end in
    match ip ++ fp with
    | [] => Num.NaN
    | ds => Conv.ofDecimal neg (Conv.decimalValue ds)
                           (exponentPrefix r2 - Z.of_nat (length fp))
    end.

(** [parseFloat(s)] on a String (ECMAScript 19.2.4). *)
Definition parseFloatString (s : jsstring) : number :=
  match Str.trimStart s with
  | 43%N :: t => unsignedPrefix false t
  | 45%N :: t => unsignedPrefix true t
  | t => unsignedPrefix false t
  end.

Definition parseFloat (v : jsvalue) : completion number :=
  let* s := ToString v in Return (parseFloatString s).

(** [parseInt(s)] on a String, without a radix (ECMAScript 19.2.5). *)
Definition parseIntString (s : jsstring) : number :=
  let t := Str.trimStart s in
  let '(neg, t1) :=
    match t with
    | 45%N :: r => (true, r)
    | 43%N :: r => (false, r)
    | _ => (false, t)
    end in
  let '(radix, t2) :=
    match t1 with
    | 48%N :: 120%N :: r | 48%N :: 88%N :: r => (16%N, r)
    | _ => (10%N, t1)
    end in
  let z := Str.takeWhile (fun c => match Conv.digitIn radix c with
                                   | Some _ => true
                                   | None => false
                                   end) t2 in
  match z with
  | [] => Num.NaN
  | _ =>
      match Conv.digitsFrom radix 0 z with
      | Some n => Conv.ofDecimal neg n 0
      | None => Num.NaN
      end
  end.

Definition parseInt (v : jsvalue) : completion number :=
  let* s := ToString v in Return (parseIntString s).

End Coerce.

Inductive submitResponse :=
| Status503                   (* slicer not installed *)
| Status400 (error : string)
| Staged (r : response)       (* the answer of lines 372-478 *)
| StatusInternal.             (* 500, lines 480-485 *)

(** [!field] for a field that is a String when present. *)
Definition absent (field : option jsstring) : bool :=
  match field with
  | None | Some [] => true
  | Some _ => false
  end.

(** Line 351. *)
Definition missingFields (b : body) : bool :=
  absent (body_material b) || absent (body_designUnit b)
  || match body_nozzleSize b with VUndefined => true | _ => false end
  || match body_fillDensity b with VUndefined => true | _ => false end
  || absent (body_materialType b).

(** Lines 360 and 366: [a || b] evaluates [b] only when [a] is false. *)
Definition nozzleOutOfRange (b : body) : completion bool :=
  let* low := Coerce.below (body_nozzleSize b) (lit "0.2") in
  if low then Return true else Coerce.above (body_nozzleSize b) (lit "1.0").

Definition densityOutOfRange (b : body) : completion bool :=
  let* low := Coerce.below (body_fillDensity b) (lit "0") in
  if low then Return true else Coerce.above (body_fillDensity b) (lit "100").

Definition textOf (field : option jsstring) : jsstring :=
  match field with Some t => t | None => [] end.

(** The request as lines 387-393 and 433-441 use it: [parseFloat] is
    evaluated before [parseInt]. *)
Definition requestOf (b : body) : completion request :=
  let* nozzle := Coerce.parseFloat (body_nozzleSize b) in
  let* density := Coerce.parseInt (body_fillDensity b) in
  Return (mkRequest (textOf (body_designUnit b)) (textOf (body_material b))
                    (textOf (body_materialType b)) nozzle density
                    (Coerce.ToBoolean (body_supportMaterial b))).

Definition withHost (s : server) (w : world) : server :=
  mkServer (uploadedFile s) (timers s) (journal s) w.

(** Lines 372-478 for the body of a request: the sizes are converted in
    the [try] block (lines 390-391), after the upload was staged. *)
Definition stage (e : env) (up : uploaded) (b : body) (now1 now2 : number)
  : M response :=
  match requestOf b with
  | Return rq => submitStaged e up rq now1 now2
  | Throw err =>
      let tempInputFile := tempInputPath e up now1 in
      let tempOutputFile := tempOutputPath e now2 in
      tryCatch (let! _ := stageInput up tempInputFile in throw err)
               (catchBlock tempInputFile tempOutputFile)
  end.

Definition internal (err : exn) (s : server) : submitResponse * server :=
  (StatusInternal, note (NoticeInternal err) s).

(** [POST /api/submit-configuration].  [hasPrusaSlicer] is the constant of
    line 38; [reqBody] is [req.body], [None] when it is [undefined] (the
    JSON middleware parsed no body and left none), so that the
    destructuring of line 333 throws.  What this handler does to the
    state of the process is returned; what the timers and other requests
    do while it awaits the slicer reaches it through [resumedUpload]. *)
Definition postSubmitConfiguration (e : env) (hasPrusaSlicer : bool)
           (reqBody : option body) (now1 now2 : number) (s : server)
  : submitResponse * server :=
  let s := note (NoticeProcessing reqBody) s in
  if negb hasPrusaSlicer then (Status503, note NoticeUnavailable s)
  else
    match reqBody with
    | None =>
        internal (TypeError "Cannot destructure property 'designUnit' of 'req.body' as it is undefined.") s
    | Some b =>
        match uploadedFile s with
        | None =>
            (Status400 "No 3D model file found. Please upload a file first.", s)
        | Some up =>
            if missingFields b then
              (Status400 "Missing required fields: material, material type, designUnit, nozzleSize, and fillDensity are required", s)
            else
              match nozzleOutOfRange b with
              | Throw err => internal err s
              | Return true =>
                  (Status400 "Nozzle size must be between 0.2 and 1.0 mm", s)
              | Return false =>
                  match densityOutOfRange b with
                  | Throw err => internal err s
                  | Return true =>
                      (Status400 "Fill density must be between 0 and 100%", s)
                  | Return false =>
                      match stage e up b now1 now2 (host s) with
                      | (Return r, w) => (Staged r, withHost s w)
                      | (Throw err, w) => internal err (withHost s w)
                      end
                  end
              end
        end
    end.

(** ** Vocabulary of the further properties *)

Module Text.

(** The text with a carriage return put before every line feed. *)
Fixpoint crlf (s : jsstring) : jsstring :=
  match s with
  | [] => []
  | c :: s' => if N.eqb c 10 then 13%N :: 10%N :: crlf s' else c :: crlf s'
  end.

(** The same on the bytes of a file. *)
Fixpoint crlfBytes (bs : list byte) : list byte :=
  match bs with
  | [] => []
  | b :: bs' =>
      if Byte.eqb b "010"%byte then "013"%byte :: "010"%byte :: crlfBytes bs'
      else b :: crlfBytes bs'
  end.

(** The lines with a carriage return at the end of each but the last. *)
Fixpoint crLines (lines : list jsstring) : list jsstring :=
  match lines with
  | [] => []
  | [l] => [l]
  | l :: rest => (l ++ [13%N]) :: crLines rest
  end.

End Text.

(** A Number that is a binary64 datum other than NaN and the infinities. *)
Definition isFiniteNumber (x : number) : bool :=
  valid_binary Num.prec Num.emax x
  && match x with S754_zero _ | S754_finite _ _ _ => true | _ => false end.

Definition finiteVertex (v : vertex) : bool :=
  isFiniteNumber (vx v) && isFiniteNumber (vy v) && isFiniteNumber (vz v).

(** [0 <= x]: [x] is not NaN and is not negative. *)
Definition nonNegative (x : number) : Prop :=
  Num.isNaN x = false /\ Num.le (S754_zero false) x = true.

Definition noNaN (v : vertex) : bool :=
  negb (Num.isNaN (vx v)) && negb (Num.isNaN (vy v)) && negb (Num.isNaN (vz v)).

(** The own keys of [settings] and the inherited ones, as Strings. *)
Definition ownKeys : list jsstring := map (fun kp => js (fst kp)) settings.
Definition inheritedKeys : list jsstring := map js objectPrototypeKeys.

(** [path] is left alone by the slicer, whatever it is started with. *)
Definition preserves (e : env) (path : jsstring) : Prop :=
  forall prog args fsys,
    files (snd (execFileAsync e prog args fsys)) !! path = files fsys !! path.

(** The slicer changes no lock. *)
Definition keepsLocks (e : env) : Prop :=
  forall prog args fsys, locked (snd (execFileAsync e prog args fsys)) = locked fsys.

(** A body that passes the checks of lines 351-370. *)
Definition accepted (b : body) : bool :=
  negb (missingFields b)
  && match nozzleOutOfRange b, densityOutOfRange b with
     | Return false, Return false => true
     | _, _ => false
     end.

(** A body on which a range check of lines 360-370 throws. *)
Definition checkThrows (b : body) (err : exn) : Prop :=
  nozzleOutOfRange b = Throw err \/
  (nozzleOutOfRange b = Return false /\ densityOutOfRange b = Throw err).

(** A computation that leaves the file at [path] as it was, whether it
    returns or throws. *)
Definition leaves {A} (path : jsstring) (c : M A) : Prop :=
  forall w, files (fs (snd (c w))) !! path = files (fs w) !! path.

(** [isFinite(x)]: neither NaN nor an infinity. *)
Definition isFinite (x : number) : bool :=
  match x with S754_zero _ | S754_finite _ _ _ => true | _ => false end.

Definition finiteCoordinates (v : vertex) : bool :=
  isFinite (vx v) && isFinite (vy v) && isFinite (vz v).

(** A well-formed binary64 datum. *)
Definition validNumber (x : number) : bool := valid_binary Num.prec Num.emax x.

Definition validVertex (v : vertex) : bool :=
  validNumber (vx v) && validNumber (vy v) && validNumber (vz v).

(** The states of the UTF-8 decoder that can occur: when a sequence is
    open, a continuation byte is expected, and the code point read so far
    is zero only if the next byte must be at least 144. *)
Definition openState (st : Utf8.state) : Prop :=
  Utf8.bytesNeeded st = 0%nat \/
  ((128 <= Utf8.lower st)%N /\ (Utf8.upper st <= 191)%N /\
   ((1 <= Utf8.codePoint st)%N \/
    ((2 <= Utf8.bytesNeeded st)%nat /\ (144 <= Utf8.lower st)%N))).

(** * Properties

    ** Order of Numbers *)

Module NumOrder.
Import NumKey.

Lemma compare_key x y :
  Num.isNaN x = false -> Num.isNaN y = false ->
  SFcompare x y = Some (lex (key x) (key y)).
Proof.
  destruct x as [[|]|[|]| |[|] m1 e1], y as [[|]|[|]| |[|] m2 e2];
    simpl; try discriminate; intros _ _; try reflexivity.
  rewrite Z.compare_opp, (Z.compare_antisym e1 e2).
  destruct (e1 ?= e2); reflexivity.
Qed.

Lemma lex_le p q : (match lex p q with Gt => false | _ => true end) = true <-> leK p q.
Proof.
  destruct p as [[a b] c], q as [[a' b'] c']. unfold lex, leK.
  destruct (Z.compare_spec a a'); destruct (Z.compare_spec b b');
    destruct (Z.compare_spec c c'); split; intros; try lia; try reflexivity; try discriminate.
Qed.

Lemma lex_lt p q : (match lex p q with Lt => true | _ => false end) = false <-> leK q p.
Proof.
  destruct p as [[a b] c], q as [[a' b'] c']. unfold lex, leK.
  destruct (Z.compare_spec a a'); destruct (Z.compare_spec b b');
    destruct (Z.compare_spec c c'); split; intros; try lia; try reflexivity; try discriminate.
Qed.

Lemma le_key x y :
  Num.isNaN x = false -> Num.isNaN y = false ->
  (Num.le x y = true <-> leK (key x) (key y)).
Proof.
  intros Hx Hy. unfold Num.le, SFleb. rewrite (compare_key x y Hx Hy).
  rewrite <- lex_le. destruct (lex (key x) (key y)); tauto.
Qed.

Lemma lt_key x y :
  Num.isNaN x = false -> Num.isNaN y = false ->
  (Num.lt x y = false <-> leK (key y) (key x)).
Proof.
  intros Hx Hy. unfold Num.lt, SFltb. rewrite (compare_key x y Hx Hy).
  rewrite <- lex_lt. destruct (lex (key x) (key y)); tauto.
Qed.

Lemma leK_refl p : leK p p.
Proof. destruct p as [[a b] c]. unfold leK. lia. Qed.

Lemma leK_trans p q r : leK p q -> leK q r -> leK p r.
Proof.
  destruct p as [[a b] c], q as [[a' b'] c'], r as [[a'' b''] c''].
  unfold leK. lia.
Qed.

Lemma le_refl x : Num.isNaN x = false -> Num.le x x = true.
Proof. intros H. apply le_key; auto using leK_refl. Qed.

Lemma le_trans x y z :
  Num.isNaN x = false -> Num.isNaN y = false -> Num.isNaN z = false ->
  Num.le x y = true -> Num.le y z = true -> Num.le x z = true.
Proof.
  intros Hx Hy Hz H1 H2. apply le_key; auto.
  apply leK_trans with (key y); apply le_key; auto.
Qed.

Lemma lt_le x y :
  Num.isNaN x = false -> Num.isNaN y = false ->
  Num.lt x y = true -> Num.le x y = true.
Proof.
  unfold Num.lt, Num.le, SFltb, SFleb. intros _ _.
  destruct (SFcompare x y) as [[| |]|]; congruence.
Qed.

Lemma not_lt_le x y :
  Num.isNaN x = false -> Num.isNaN y = false ->
  Num.lt x y = false -> Num.le y x = true.
Proof.
  intros Hx Hy H. apply le_key; auto. apply lt_key in H; auto.
Qed.

End NumOrder.

Module ExtentFacts.

Lemma max_NaN_r a : Num.max a Num.NaN = Num.NaN.
Proof. unfold Num.max. simpl. rewrite orb_true_r. reflexivity. Qed.

Lemma min_NaN_r a : Num.min a Num.NaN = Num.NaN.
Proof. unfold Num.min. simpl. rewrite orb_true_r. reflexivity. Qed.

Lemma fold_max_NaN xs : fold_left Num.max xs Num.NaN = Num.NaN.
Proof. induction xs as [|x xs IH]; simpl; auto. Qed.

Lemma fold_min_NaN xs : fold_left Num.min xs Num.NaN = Num.NaN.
Proof. induction xs as [|x xs IH]; simpl; auto. Qed.

Lemma isNaN_eq x : Num.isNaN x = true -> x = Num.NaN.
Proof. destruct x; simpl; intros; try discriminate; reflexivity. Qed.

Lemma fold_max_hasNaN xs a : hasNaN xs = true -> fold_left Num.max xs a = Num.NaN.
Proof.
  revert a. induction xs as [|x xs IH]; simpl; intros a H; [discriminate|].
  destruct (Num.isNaN x) eqn:Hx.
  - apply isNaN_eq in Hx. subst x. rewrite max_NaN_r. apply fold_max_NaN.
  - apply IH. exact H.
Qed.

Lemma fold_min_hasNaN xs a : hasNaN xs = true -> fold_left Num.min xs a = Num.NaN.
Proof.
  revert a. induction xs as [|x xs IH]; simpl; intros a H; [discriminate|].
  destruct (Num.isNaN x) eqn:Hx.
  - apply isNaN_eq in Hx. subst x. rewrite min_NaN_r. apply fold_min_NaN.
  - apply IH. exact H.
Qed.

Lemma max_spec a b :
  Num.isNaN a = false -> Num.isNaN b = false ->
  Num.isNaN (Num.max a b) = false /\ (Num.max a b = a \/ Num.max a b = b) /\
  Num.le a (Num.max a b) = true /\ Num.le b (Num.max a b) = true.
Proof.
  intros Ha Hb. unfold Num.max. rewrite Ha, Hb. simpl.
  destruct (Num.isPosZero b && Num.isNegZero a) eqn:Hz.
  - apply andb_true_iff in Hz. destruct Hz as [Hz1 Hz2].
    destruct b as [[|]| | |]; try discriminate.
    destruct a as [[|]| | |]; try discriminate. auto.
  - destruct (Num.lt a b) eqn:Hlt.
    + auto using NumOrder.lt_le, NumOrder.le_refl.
    + auto using NumOrder.not_lt_le, NumOrder.le_refl.
Qed.

Lemma min_spec a b :
  Num.isNaN a = false -> Num.isNaN b = false ->
  Num.isNaN (Num.min a b) = false /\ (Num.min a b = a \/ Num.min a b = b) /\
  Num.le (Num.min a b) a = true /\ Num.le (Num.min a b) b = true.
Proof.
  intros Ha Hb. unfold Num.min. rewrite Ha, Hb. simpl.
  destruct (Num.isNegZero b && Num.isPosZero a) eqn:Hz.
  - apply andb_true_iff in Hz. destruct Hz as [Hz1 Hz2].
    destruct b as [[|]| | |]; try discriminate.
    destruct a as [[|]| | |]; try discriminate. auto.
  - destruct (Num.lt b a) eqn:Hlt.
    + auto using NumOrder.lt_le, NumOrder.le_refl.
    + auto using NumOrder.not_lt_le, NumOrder.le_refl.
Qed.

Lemma hasNaN_cons x xs :
  hasNaN (x :: xs) = false -> Num.isNaN x = false /\ hasNaN xs = false.
Proof. unfold hasNaN. simpl. apply orb_false_iff. Qed.

Lemma hasNaN_In xs v : hasNaN xs = false -> In v xs -> Num.isNaN v = false.
Proof.
  induction xs as [|x xs IH]; simpl; [tauto|].
  intros H [->|Hin]; apply hasNaN_cons in H; destruct H; auto.
Qed.

Lemma fold_max_spec xs a :
  Num.isNaN a = false -> hasNaN xs = false ->
  let r := fold_left Num.max xs a in
  Num.isNaN r = false /\ (r = a \/ In r xs) /\ Num.le a r = true /\
  forall v, In v xs -> Num.le v r = true.
Proof.
  revert a. induction xs as [|x xs IH]; intros a Ha Hxs; simpl.
  - repeat split; auto using NumOrder.le_refl; tauto.
  - apply hasNaN_cons in Hxs. destruct Hxs as [Hx Hxs].
    destruct (max_spec a x Ha Hx) as (Hm & Hsel & Hla & Hlx).
    destruct (IH (Num.max a x) Hm Hxs) as (Hr & Hin & Hle & Hall).
    repeat split; auto.
    + destruct Hin as [Hin|Hin]; [|tauto].
      rewrite Hin. destruct Hsel as [->| ->]; tauto.
    + eapply NumOrder.le_trans with (y := Num.max a x); eauto.
    + intros v [Hv|Hv]; [subst v|auto].
      eapply NumOrder.le_trans with (y := Num.max a x); eauto.
Qed.

Lemma fold_min_spec xs a :
  Num.isNaN a = false -> hasNaN xs = false ->
  let r := fold_left Num.min xs a in
  Num.isNaN r = false /\ (r = a \/ In r xs) /\ Num.le r a = true /\
  forall v, In v xs -> Num.le r v = true.
Proof.
  revert a. induction xs as [|x xs IH]; intros a Ha Hxs; simpl.
  - repeat split; auto using NumOrder.le_refl; tauto.
  - apply hasNaN_cons in Hxs. destruct Hxs as [Hx Hxs].
    destruct (min_spec a x Ha Hx) as (Hm & Hsel & Hla & Hlx).
    destruct (IH (Num.min a x) Hm Hxs) as (Hr & Hin & Hle & Hall).
    repeat split; auto.
    + destruct Hin as [Hin|Hin]; [|tauto].
      rewrite Hin. destruct Hsel as [->| ->]; tauto.
    + eapply NumOrder.le_trans with (y := Num.min a x); eauto.
    + intros v [Hv|Hv]; [subst v|auto].
      eapply NumOrder.le_trans with (y := Num.min a x); eauto.
Qed.

Lemma le_NegInfinity x :
  Num.le x Num.NegInfinity = true -> x = Num.NegInfinity.
Proof. destruct x as [[|]|[|]| |[|]]; simpl; intros; try discriminate; reflexivity. Qed.

Lemma le_Infinity x :
  Num.le Num.Infinity x = true -> x = Num.Infinity.
Proof. destruct x as [[|]|[|]| |[|]]; simpl; intros; try discriminate; reflexivity. Qed.

(** The running maximum started at [-Infinity] is the maximum of a
    non-empty list without NaN; likewise for the minimum. *)
Lemma fold_max_isMaximum xs :
  xs <> [] -> hasNaN xs = false ->
  isMaximum xs (fold_left Num.max xs Num.NegInfinity).
Proof.
  intros Hne Hxs.
  destruct (fold_max_spec xs Num.NegInfinity eq_refl Hxs) as (_ & Hin & _ & Hall).
  split; [|exact Hall].
  destruct Hin as [Heq|Hin]; [|exact Hin].
  destruct xs as [|x xs]; [congruence|].
  specialize (Hall x (or_introl eq_refl)).
  rewrite Heq in Hall |- *. apply le_NegInfinity in Hall. subst x. left. reflexivity.
Qed.

Lemma fold_min_isMinimum xs :
  xs <> [] -> hasNaN xs = false ->
  isMinimum xs (fold_left Num.min xs Num.Infinity).
Proof.
  intros Hne Hxs.
  destruct (fold_min_spec xs Num.Infinity eq_refl Hxs) as (_ & Hin & _ & Hall).
  split; [|exact Hall].
  destruct Hin as [Heq|Hin]; [|exact Hin].
  destruct xs as [|x xs]; [congruence|].
  specialize (Hall x (or_introl eq_refl)).
  rewrite Heq in Hall |- *. apply le_Infinity in Hall. subst x. left. reflexivity.
Qed.

Lemma extentOf_fold xs :
  xs <> [] ->
  extentOf xs (Num.sub (fold_left Num.max xs Num.NegInfinity)
                       (fold_left Num.min xs Num.Infinity)).
Proof.
  intros Hne. unfold extentOf. destruct (hasNaN xs) eqn:Hn.
  - rewrite fold_max_hasNaN by exact Hn. reflexivity.
  - exists (fold_left Num.max xs Num.NegInfinity), (fold_left Num.min xs Num.Infinity).
    auto using fold_max_isMaximum, fold_min_isMinimum.
Qed.

Lemma fold_updateBounds verts b :
  fold_left updateBounds verts b =
  mkBounds (fold_left Num.min (map vx verts) (minX b))
           (fold_left Num.max (map vx verts) (maxX b))
           (fold_left Num.min (map vy verts) (minY b))
           (fold_left Num.max (map vy verts) (maxY b))
           (fold_left Num.min (map vz verts) (minZ b))
           (fold_left Num.max (map vz verts) (maxZ b)).
Proof.
  revert b. induction verts as [|[[x y] z] verts IH]; intros b; simpl.
  - destruct b; reflexivity.
  - rewrite IH. reflexivity.
Qed.

End ExtentFacts.

(** C2.  [getSize] throws on the empty list; on a non-empty list it
    returns the number of points and, for each axis, the extent of the
    coordinates: the maximum minus the minimum (NaN when a coordinate is
    NaN). *)
Theorem getSize_extents :
  getSize [] = Throw (Error "No vertices found") /\
  forall verts : list vertex, verts <> [] ->
    exists d, getSize verts = Return d /\
      vertexCount d = length verts /\
      extentOf (map vx verts) (size_x d) /\
      extentOf (map vy verts) (size_y d) /\
      extentOf (map vz verts) (size_z d).
Proof.
  split; [reflexivity|].
  intros verts Hne. destruct verts as [|v verts]; [congruence|].
  eexists. split; [reflexivity|]. cbn [vertexCount size_x size_y size_z].
  rewrite ExtentFacts.fold_updateBounds.
  cbn [minX maxX minY maxY minZ maxZ initialBounds].
  repeat split; apply ExtentFacts.extentOf_fold; discriminate.
Qed.

Lemma getSize_extents_witness :
  let verts := [(lit "1", lit "2", lit "3"); (lit "-1", lit "5", lit "3")] in
  verts <> [] /\
  exists d, getSize verts = Return d /\
      vertexCount d = length verts /\
      extentOf (map vx verts) (size_x d) /\
      extentOf (map vy verts) (size_y d) /\
      extentOf (map vz verts) (size_z d).
Proof.
  split; [discriminate|]. apply (proj2 getSize_extents). discriminate.
Defined.

(** ** Binary STL decoding *)

Module SyntheticFacts.
Import Synthetic.

Lemma byteZ_byteOfZ z : byteZ (byteOfZ z) = z mod 256.
Proof.
  unfold byteZ, byteOfZ.
  assert (Hr : 0 <= z mod 256 < 256) by (apply Z.mod_pos_bound; lia).
  destruct (Byte.of_N (Z.to_N (z mod 256))) as [b|] eqn:E.
  - apply Byte.to_of_N in E. rewrite E. rewrite Z2N.id; lia.
  - apply Byte.of_N_None_iff in E. lia.
Qed.

Lemma littleEndian_le32 z : 0 <= z < 2 ^ 32 -> DataView.littleEndian (le32 z) = z.
Proof.
  intros Hz. unfold le32. cbn [DataView.littleEndian].
  rewrite !byteZ_byteOfZ.
  pose proof (Z.div_mod z 256 ltac:(lia)) as H0.
  pose proof (Z.div_mod (z / 256) 256 ltac:(lia)) as H1.
  pose proof (Z.div_mod (z / 256 / 256) 256 ltac:(lia)) as H2.
  assert (H3 : 0 <= z / 256 / 256 / 256 < 256).
  { rewrite !Z.div_div by lia. split; [apply Z.div_pos; lia|].
    apply Z.div_lt_upper_bound; lia. }
  rewrite (Z.mod_small (z / 256 / 256 / 256)) by lia. lia.
Qed.

Lemma length_le32 z : length (le32 z) = 4%nat.
Proof. reflexivity. Qed.

(** The three fields of a pattern [S * 2^31 + E * 2^23 + F]. *)
Lemma fields (s : bool) (E F : Z) :
  0 <= E < 256 -> 0 <= F < 2 ^ 23 ->
  let bits := (if s then 2 ^ 31 else 0) + E * 2 ^ 23 + F in
  Float32.signBit bits = s /\ Float32.exponentField bits = E /\
  Float32.fractionField bits = F.
Proof.
  intros HE HF bits.
  assert (Hb : bits = F + 2 ^ 23 * (E + 256 * (if s then 1 else 0))).
  { unfold bits. destruct s; lia. }
  repeat split.
  - unfold Float32.signBit.
    assert (Hq : bits / 2 ^ 31 = if s then 1 else 0).
    { symmetry. apply (Z.div_unique _ _ _ (E * 2 ^ 23 + F)); [lia|].
      unfold bits. destruct s; lia. }
    destruct s.
    + apply Z.testbit_true; [lia|]. rewrite Hq. reflexivity.
    + apply Z.testbit_false; [lia|]. rewrite Hq. reflexivity.
  - unfold Float32.exponentField.
    rewrite Z.shiftr_div_pow2 by lia.
    change 255 with (Z.ones 8). rewrite Z.land_ones by lia.
    assert (Hq : bits / 2 ^ 23 = E + 256 * (if s then 1 else 0)).
    { symmetry. apply (Z.div_unique _ _ _ F); lia. }
    rewrite Hq. symmetry. apply (Z.mod_unique _ _ (if s then 1 else 0)); destruct s; lia.
  - unfold Float32.fractionField.
    change (2 ^ 23 - 1) with (Z.ones 23). rewrite Z.land_ones by lia.
    symmetry. apply (Z.mod_unique _ _ (E + 256 * (if s then 1 else 0))); lia.
Qed.

Lemma digits2_pos_bounds m :
  2 ^ (Zpos (digits2_pos m) - 1) <= Zpos m < 2 ^ Zpos (digits2_pos m).
Proof.
  induction m as [m IH|m IH|]; cbn [digits2_pos].
  - rewrite Pos2Z.inj_succ. replace (Z.succ (Zpos (digits2_pos m)) - 1) with (Z.succ (Zpos (digits2_pos m) - 1)) by lia.
    rewrite !Z.pow_succ_r by lia. lia.
  - rewrite Pos2Z.inj_succ. replace (Z.succ (Zpos (digits2_pos m)) - 1) with (Z.succ (Zpos (digits2_pos m) - 1)) by lia.
    rewrite !Z.pow_succ_r by lia. lia.
  - simpl. lia.
Qed.

(** Binary32 data are subnormal ([m < 2^23], [e = -149]) or normal. *)
Lemma bounded_binary32 m e :
  bounded 24 128 m e = true ->
  Zpos (digits2_pos m) <= 24 /\ -149 <= e <= 104 /\
  (Zpos m < 2 ^ 23 -> e = -149) /\ Zpos m < 2 ^ 24.
Proof.
  unfold bounded, canonical_mantissa, fexp, emin. intros H.
  apply andb_true_iff in H. destruct H as [H1 H2].
  apply Z.eqb_eq in H1. apply Z.leb_le in H2.
  pose proof (digits2_pos_bounds m) as [Hlo Hhi].
  set (d := Zpos (digits2_pos m)) in *.
  assert (Hd : d <= 24) by lia.
  assert (Hm : Zpos m < 2 ^ 24).
  { eapply Z.lt_le_trans; [exact Hhi|]. apply Z.pow_le_mono_r; lia. }
  repeat split; try lia.
  intros Hsub.
  destruct (Z.eq_dec d 24) as [Hd24|Hd24]; [|lia].
  exfalso. rewrite Hd24 in Hlo. simpl in Hlo. lia.
Qed.

Lemma toBits_range x : isBinary32 x = true -> 0 <= toBits x < 2 ^ 32.
Proof.
  destruct x as [s|s| |s m e]; cbn [isBinary32 valid_binary toBits]; intros H.
  - destruct s; lia.
  - destruct s; lia.
  - lia.
  - apply bounded_binary32 in H. destruct H as (_ & He & Hsub & Hm).
    destruct (Z.ltb_spec (Zpos m) (2 ^ 23)); destruct s; lia.
Qed.

Lemma ofBits_toBits x : isBinary32 x = true -> Float32.ofBits (toBits x) = x.
Proof.
  destruct x as [s|s| |s m e]; cbn [isBinary32 valid_binary toBits]; intros H.
  - destruct (fields s 0 0 ltac:(lia) ltac:(lia)) as (Hs & He & Hf).
    unfold Float32.ofBits.
    replace (if s then 2 ^ 31 else 0) with ((if s then 2 ^ 31 else 0) + 0 * 2 ^ 23 + 0) by lia.
    rewrite Hs, He, Hf. reflexivity.
  - destruct (fields s 255 0 ltac:(lia) ltac:(lia)) as (Hs & He & Hf).
    unfold Float32.ofBits.
    replace ((if s then 2 ^ 31 else 0) + 255 * 2 ^ 23)
      with ((if s then 2 ^ 31 else 0) + 255 * 2 ^ 23 + 0) by lia.
    rewrite Hs, He, Hf. reflexivity.
  - reflexivity.
  - apply bounded_binary32 in H. destruct H as (_ & He & Hsub & Hm).
    destruct (Z.ltb_spec (Zpos m) (2 ^ 23)) as [Hlt|Hge].
    + destruct (fields s 0 (Zpos m) ltac:(lia) ltac:(lia)) as (Hs & HeF & Hf).
      unfold Float32.ofBits.
      replace ((if s then 2 ^ 31 else 0) + Zpos m)
        with ((if s then 2 ^ 31 else 0) + 0 * 2 ^ 23 + Zpos m) by lia.
      rewrite Hs, HeF, Hf. cbn [Z.eqb]. rewrite (Hsub Hlt). reflexivity.
    + destruct (fields s (e + 150) (Zpos m - 2 ^ 23) ltac:(lia) ltac:(lia))
        as (Hs & HeF & Hf).
      unfold Float32.ofBits. rewrite Hs, HeF, Hf.
      destruct (Z.eqb_spec (e + 150) 255) as [E1|E1]; [lia|].
      destruct (Z.eqb_spec (e + 150) 0) as [E2|E2]; [lia|].
      f_equal; [|lia].
      replace (Zpos m - 2 ^ 23 + 2 ^ 23) with (Zpos m) by lia. reflexivity.
Qed.


Lemma iter_xO_value m k : Zpos (Pos.iter xO m k) = Zpos m * 2 ^ Zpos k.
Proof.
  induction k as [|k IH] using Pos.peano_ind.
  - simpl. lia.
  - rewrite Pos.iter_succ, Pos2Z.inj_succ, Z.pow_succ_r by lia.
    rewrite Pos2Z.inj_xO, IH. lia.
Qed.

Lemma iter_xO_digits m k :
  digits2_pos (Pos.iter xO m k) = (digits2_pos m + k)%positive.
Proof.
  induction k as [|k IH] using Pos.peano_ind.
  - simpl. lia.
  - rewrite Pos.iter_succ. cbn [digits2_pos]. rewrite IH. lia.
Qed.

(** A mantissa of exactly 53 bits is not rounded. *)
Lemma binary_round_aux_exact s m e :
  Zpos (digits2_pos m) = 53 -> -1074 <= e <= 971 ->
  binary_round_aux 53 1024 s (Zpos m) e loc_Exact = S754_finite s m e.
Proof.
  intros Hd He.
  assert (Hshift : fexp 53 1024 (Zdigits2 (Zpos m) + e) - e = 0).
  { unfold fexp, emin. cbn [Zdigits2]. rewrite Hd. lia. }
  unfold binary_round_aux, shr_fexp. rewrite Hshift.
  cbn [shr shr_record_of_loc loc_of_shr_record shr_m round_nearest_even].
  rewrite Hshift. cbn [shr shr_m].
  destruct (Z.leb_spec e (1024 - 53)); [reflexivity|lia].
Qed.

(** Widening a binary32 datum to a Number only aligns the mantissa. *)
Lemma toNumber_finite s m e :
  bounded 24 128 m e = true ->
  exists m' e', Float32.toNumber (S754_finite s m e) = S754_finite s m' e' /\
                e' <= e /\ Zpos m' = Zpos m * 2 ^ (e - e').
Proof.
  intros H. apply bounded_binary32 in H. destruct H as (Hd & He & _ & _).
  pose proof (Pos2Z.is_pos (digits2_pos m)) as Hd0.
  cbn [Float32.toNumber]. unfold binary_round, Num.prec, Num.emax.
  assert (Hf : fexp 53 1024 (Zpos (digits2_pos m) + e) = Zpos (digits2_pos m) + e - 53).
  { unfold fexp, emin. lia. }
  rewrite Hf. unfold shl_align.
  destruct (Zpos (digits2_pos m) + e - 53 - e) as [|k|k] eqn:Hk; [| lia |].
  - exists m, e. split.
    + apply binary_round_aux_exact; lia.
    + rewrite Z.sub_diag. simpl. lia.
  - exists (Pos.iter xO m k), (Zpos (digits2_pos m) + e - 53). split.
    + apply binary_round_aux_exact; [|lia].
      rewrite iter_xO_digits, Pos2Z.inj_add. lia.
    + split; [lia|]. rewrite iter_xO_value. f_equal. f_equal. lia.
Qed.

Lemma toNumber_sameValue x :
  isBinary32 x = true -> sameValue x (Float32.toNumber x).
Proof.
  destruct x as [s|s| |s m e]; cbn [isBinary32 valid_binary]; intros H;
    try (simpl; auto; fail).
  destruct (toNumber_finite s m e H) as (m' & e' & Heq & Hle & Hv).
  rewrite Heq. simpl. auto.
Qed.

End SyntheticFacts.

Module BinaryLayout.
Import Synthetic SyntheticFacts.

Lemma bytesAt_app pre l k n :
  0 <= k ->
  DataView.bytesAt (pre ++ l) (Z.of_nat (length pre) + k) n = DataView.bytesAt l k n.
Proof.
  intros Hk. unfold DataView.bytesAt. rewrite length_app, Nat2Z.inj_add.
  replace (0 <=? Z.of_nat (length pre) + k) with true by (symmetry; apply Z.leb_le; lia).
  replace (0 <=? k) with true by (symmetry; apply Z.leb_le; lia).
  replace (Z.of_nat (length pre) + k + Z.of_nat n <=? Z.of_nat (length pre) + Z.of_nat (length l))
    with (k + Z.of_nat n <=? Z.of_nat (length l)).
  2:{ destruct (Z.leb_spec (k + Z.of_nat n) (Z.of_nat (length l)));
      symmetry; [apply Z.leb_le|apply Z.leb_gt]; lia. }
  replace (Z.to_nat (Z.of_nat (length pre) + k)) with (length pre + Z.to_nat k)%nat by lia.
  rewrite skipn_app, skipn_all2 by lia.
  replace (length pre + Z.to_nat k - length pre)%nat with (Z.to_nat k) by lia.
  reflexivity.
Qed.

Lemma bytesAt_head bs l :
  DataView.bytesAt (bs ++ l) 0 (length bs) = Return bs.
Proof.
  unfold DataView.bytesAt. rewrite length_app, Nat2Z.inj_add.
  replace (0 + Z.of_nat (length bs) <=? Z.of_nat (length bs) + Z.of_nat (length l))
    with true by (symmetry; apply Z.leb_le; lia).
  change (Z.to_nat 0) with 0%nat. cbn [Z.leb Z.compare andb skipn].
  rewrite skipn_O, firstn_app, firstn_all, Nat.sub_diag, firstn_O, app_nil_r. reflexivity.
Qed.

Lemma getFloat32_at buf pre x rest off :
  buf = pre ++ le32 (toBits x) ++ rest -> off = Z.of_nat (length pre) ->
  isBinary32 x = true ->
  DataView.getFloat32 buf off = Return (Float32.toNumber x).
Proof.
  intros -> -> Hx. unfold DataView.getFloat32.
  rewrite <- (Z.add_0_r (Z.of_nat (length pre))), bytesAt_app by lia.
  change 4%nat with (length (le32 (toBits x))). rewrite bytesAt_head.
  cbn [cbind]. rewrite littleEndian_le32 by (apply toBits_range; exact Hx).
  rewrite ofBits_toBits by exact Hx. reflexivity.
Qed.

Lemma getUint32_at buf pre z rest off :
  buf = pre ++ le32 z ++ rest -> off = Z.of_nat (length pre) ->
  0 <= z < 2 ^ 32 ->
  DataView.getUint32 buf off = Return z.
Proof.
  intros -> -> Hz. unfold DataView.getUint32.
  rewrite <- (Z.add_0_r (Z.of_nat (length pre))), bytesAt_app by lia.
  change 4%nat with (length (le32 z)). rewrite bytesAt_head.
  cbn [cbind]. rewrite littleEndian_le32 by exact Hz. reflexivity.
Qed.

Lemma length_encodeVec v : length (encodeVec v) = 12%nat.
Proof. destruct v as [[x y] z]. reflexivity. Qed.

Lemma length_flat_encodeVec vs :
  length (flat_map encodeVec vs) = (12 * length vs)%nat.
Proof.
  induction vs as [|v vs IH]; [reflexivity|].
  cbn [flat_map]. rewrite length_app, length_encodeVec, IH. simpl. lia.
Qed.

Lemma length_encodeTriangle t : length (encodeTriangle t) = 50%nat.
Proof.
  unfold encodeTriangle. rewrite !length_app, length_encodeVec, length_flat_encodeVec.
  reflexivity.
Qed.

Lemma length_flat_encodeTriangle ts :
  length (flat_map encodeTriangle ts) = (50 * length ts)%nat.
Proof.
  induction ts as [|t ts IH]; [reflexivity|].
  cbn [flat_map]. rewrite length_app, length_encodeTriangle, IH. simpl. lia.
Qed.

(** The inner loop on encoded vertices. *)
Lemma readVertices_encoded vs : forall pre rest acc off,
  forallb isBinary32Vec vs = true -> off = Z.of_nat (length pre) ->
  readVertices (pre ++ flat_map encodeVec vs ++ rest) (length vs) off acc =
  Return (off + 12 * Z.of_nat (length vs), acc ++ map decodeVec vs).
Proof.
  induction vs as [|[[x y] z] vs IH]; intros pre rest acc off Hv Hoff.
  - simpl. rewrite app_nil_r, Z.add_0_r. reflexivity.
  - cbn [forallb isBinary32Vec] in Hv.
    apply andb_true_iff in Hv. destruct Hv as [Hxyz Hv].
    apply andb_true_iff in Hxyz. destruct Hxyz as [Hxy Hz].
    apply andb_true_iff in Hxy. destruct Hxy as [Hx Hy].
    cbn [length readVertices flat_map encodeVec].
    rewrite (getFloat32_at _ pre x
               (le32 (toBits y) ++ le32 (toBits z) ++ flat_map encodeVec vs ++ rest) off);
      [| repeat rewrite <- app_assoc; reflexivity | exact Hoff | exact Hx].
    cbn [cbind].
    rewrite (getFloat32_at _ (pre ++ le32 (toBits x)) y
               (le32 (toBits z) ++ flat_map encodeVec vs ++ rest) (off + 4));
      [| repeat rewrite <- app_assoc; reflexivity
       | rewrite length_app, length_le32; lia | exact Hy].
    cbn [cbind].
    rewrite (getFloat32_at _ (pre ++ le32 (toBits x) ++ le32 (toBits y)) z
               (flat_map encodeVec vs ++ rest) (off + 8));
      [| repeat rewrite <- app_assoc; reflexivity
       | rewrite !length_app, !length_le32; lia | exact Hz].
    cbn [cbind].
    replace (pre ++ ((le32 (toBits x) ++ le32 (toBits y) ++ le32 (toBits z)) ++
                     flat_map encodeVec vs) ++ rest)
      with ((pre ++ le32 (toBits x) ++ le32 (toBits y) ++ le32 (toBits z)) ++
            flat_map encodeVec vs ++ rest)
      by (repeat rewrite <- app_assoc; reflexivity).
    rewrite IH; [| exact Hv | rewrite !length_app, !length_le32; lia].
    cbn [map decodeVec]. rewrite <- app_assoc. cbn [app].
    f_equal. f_equal. lia.
Qed.

(** The outer loop on encoded triangles. *)
Lemma readTriangles_encoded ts : forall pre acc off,
  forallb cornersValid ts = true -> off = Z.of_nat (length pre) ->
  readTriangles (pre ++ flat_map encodeTriangle ts) (length ts) off acc =
  Return (acc ++ map decodeVec (flat_map corners ts)).
Proof.
  induction ts as [|t ts IH]; intros pre acc off Hv Hoff.
  - simpl. rewrite app_nil_r. reflexivity.
  - cbn [forallb] in Hv. apply andb_true_iff in Hv. destruct Hv as [Ht Hv].
    cbn [length readTriangles flat_map]. unfold encodeTriangle at 1.
    replace (pre ++ (encodeVec (normal t) ++ flat_map encodeVec (corners t) ++
                     le16 (attribute t)) ++ flat_map encodeTriangle ts)
      with ((pre ++ encodeVec (normal t)) ++ flat_map encodeVec (corners t) ++
            (le16 (attribute t) ++ flat_map encodeTriangle ts))
      by (repeat rewrite <- app_assoc; reflexivity).
    change 3%nat with (length (corners t)).
    rewrite readVertices_encoded;
      [| exact Ht | rewrite length_app, length_encodeVec; lia].
    cbn [cbind].
    rewrite (app_assoc pre (encodeTriangle t)).
    rewrite IH; [| exact Hv | rewrite length_app, length_encodeTriangle; simpl length; lia].
    rewrite map_app, app_assoc. reflexivity.
Qed.

Lemma sameVertex_decodeVec vs :
  forallb isBinary32Vec vs = true -> Forall2 sameVertex vs (map decodeVec vs).
Proof.
  induction vs as [|[[x y] z] vs IH]; intros Hv; [constructor|].
  cbn [forallb isBinary32Vec] in Hv.
  apply andb_true_iff in Hv. destruct Hv as [Hxyz Hv].
  apply andb_true_iff in Hxyz. destruct Hxyz as [Hxy Hz].
  apply andb_true_iff in Hxy. destruct Hxy as [Hx Hy].
  constructor; [|auto].
  unfold sameVertex. simpl. auto using toNumber_sameValue.
Qed.

Lemma corners_valid ts :
  forallb cornersValid ts = true -> forallb isBinary32Vec (flat_map corners ts) = true.
Proof.
  induction ts as [|t ts IH]; [reflexivity|].
  cbn [forallb flat_map]. intros H. apply andb_true_iff in H. destruct H as [Ht H].
  unfold cornersValid in Ht. rewrite forallb_app, Ht, IH by exact H. reflexivity.
Qed.

End BinaryLayout.

Import Synthetic.

(** C1 (amended).  A synthetic binary STL with a well-formed header and
    N >= 1 triangles decodes to exactly 3N points, in file order; every
    coordinate denotes the value of the binary32 datum stored in the file. *)
Theorem readSTL_binary :
  forall (toLowerCase : jsstring -> jsstring) (header : list byte) (ts : list triangle),
    length header = 80%nat ->
    ts <> [] ->
    Z.of_nat (length ts) < 2 ^ 32 ->
    forallb cornersValid ts = true ->
    exists pts,
      readSTL toLowerCase (encodeBinarySTL header ts) = Return pts /\
      length pts = (3 * length ts)%nat /\
      Forall2 sameVertex (flat_map corners ts) pts.
Proof.
  intros lower header ts Hh Hne Hn Hv.
  exists (map decodeVec (flat_map corners ts)).
  assert (Hlen : Z.of_nat (length (encodeBinarySTL header ts)) = 84 + Z.of_nat (length ts) * 50).
  { unfold encodeBinarySTL.
    rewrite !length_app, BinaryLayout.length_flat_encodeTriangle, Hh, SyntheticFacts.length_le32.
    lia. }
  split; [|split].
  - unfold readSTL. rewrite Hlen.
    assert (Hpos : (0 < length ts)%nat) by (destruct ts; [congruence|simpl; lia]).
    destruct (Z.ltb_spec 84 (84 + Z.of_nat (length ts) * 50)) as [_|]; [|lia].
    rewrite (BinaryLayout.getUint32_at _ header (Z.of_nat (length ts))
               (flat_map encodeTriangle ts) 80); [|reflexivity|lia|lia].
    cbn [cbind]. rewrite Z.eqb_refl.
    unfold readBinarySTL, encodeBinarySTL. rewrite Nat2Z.id.
    replace (header ++ le32 (Z.of_nat (length ts)) ++ flat_map encodeTriangle ts)
      with ((header ++ le32 (Z.of_nat (length ts))) ++ flat_map encodeTriangle ts)
      by (rewrite <- app_assoc; reflexivity).
    rewrite BinaryLayout.readTriangles_encoded;
      [reflexivity | exact Hv | rewrite length_app, Hh; reflexivity].
  - rewrite length_map.
    clear. induction ts as [|t ts IH]; [reflexivity|].
    cbn [flat_map]. rewrite length_app, IH. simpl. lia.
  - apply BinaryLayout.sameVertex_decodeVec, BinaryLayout.corners_valid, Hv.
Qed.

Lemma readSTL_binary_witness :
  let one := S754_finite false 8388608 (-23) in
  let half := S754_finite false 8388608 (-24) in
  let t := mkTriangle (S754_zero false, S754_zero false, one)
                      (S754_zero false, S754_zero true, half)
                      (one, S754_nan, S754_infinity true)
                      (S754_finite true 1 (-149), one, half) 0 in
  let header := repeat "000"%byte 80 in
  length header = 80%nat /\ [t] <> [] /\ Z.of_nat (length [t]) < 2 ^ 32 /\
  forallb cornersValid [t] = true /\
  exists pts,
    readSTL Str.asciiLowerCase (encodeBinarySTL header [t]) = Return pts /\
    length pts = (3 * length [t])%nat /\
    Forall2 sameVertex (flat_map corners [t]) pts.
Proof.
  intros one half t header.
  split; [reflexivity|]. split; [discriminate|]. split; [simpl; lia|].
  split; [reflexivity|].
  apply (readSTL_binary Str.asciiLowerCase header [t]).
  - reflexivity.
  - discriminate.
  - simpl. lia.
  - reflexivity.
Defined.

(** C1 as stated fails for N = 0: the 84-byte file with count 0 has a
    correct header and size, yet it is not read as binary (the length is
    not greater than 84) and decoding throws. *)
Lemma readSTL_binary_no_triangles :
  let buf := encodeBinarySTL (repeat "000"%byte 80) [] in
  Z.of_nat (length buf) = 84 + 0 * 50 /\
  DataView.getUint32 buf 80 = Return 0 /\
  readSTL Str.asciiLowerCase buf = Throw (Error "Not a valid STL file").
Proof. vm_compute. repeat split. Qed.

(** ** Format dispatch and empty meshes *)

Module DecoderFacts.

Lemma getUint32_in_range buf :
  84 < Z.of_nat (length buf) -> exists count, DataView.getUint32 buf 80 = Return count.
Proof.
  intros H. unfold DataView.getUint32, DataView.bytesAt.
  destruct (Z.leb_spec (80 + Z.of_nat 4) (Z.of_nat (length buf))); [|lia].
  cbn [Z.leb Z.compare andb cbind]. eexists. reflexivity.
Qed.

(** The triangle loop only appends, three points per triangle. *)
Lemma readVertices_length ab j : forall off acc r,
  readVertices ab j off acc = Return r -> length (snd r) = (length acc + j)%nat.
Proof.
  induction j as [|j IH]; intros off acc r H; cbn [readVertices] in H.
  - inversion H. simpl. lia.
  - destruct (DataView.getFloat32 ab off) as [x|]; [|discriminate].
    destruct (DataView.getFloat32 ab (off + 4)) as [y|]; [|discriminate].
    destruct (DataView.getFloat32 ab (off + 8)) as [z|]; [|discriminate].
    cbn [cbind] in H. apply IH in H. rewrite H, length_app. simpl. lia.
Qed.

Lemma readTriangles_length ab n : forall off acc pts,
  readTriangles ab n off acc = Return pts -> length pts = (length acc + 3 * n)%nat.
Proof.
  induction n as [|n IH]; intros off acc pts H; cbn [readTriangles] in H.
  - inversion H. lia.
  - destruct (readVertices ab 3 (off + 12) acc) as [[off' verts]|] eqn:E; [|discriminate].
    cbn [cbind] in H. apply IH in H. apply readVertices_length in E. simpl in E. lia.
Qed.

Lemma binary_path_nonempty lower buf pts :
  sizeMatches buf -> readSTL lower buf = Return pts -> pts <> [].
Proof.
  intros (Hlen & count & Hc & Hsz) H. unfold readSTL in H.
  destruct (Z.ltb_spec 84 (Z.of_nat (length buf))); [|lia].
  rewrite Hc in H. cbn [cbind] in H. rewrite Hsz, Z.eqb_refl in H.
  unfold readBinarySTL in H. apply readTriangles_length in H.
  intros ->. simpl in H. lia.
Qed.

Lemma readOBJ_cases buf :
  readOBJ buf = Throw (Error "No valid vertices in OBJ") \/
  exists v vs, readOBJ buf = Return (v :: vs).
Proof.
  unfold readOBJ.
  destruct (flat_map objLineVertices (Str.split 10 (Utf8.decode buf))); eauto.
Qed.

End DecoderFacts.

(** C6.  When the binary size check does not succeed, [readSTL] interprets
    the bytes as ASCII: it returns what [readASCIISTL] reads from the
    decoded text if the lower-cased text contains both "solid" and
    "facet", and throws the format error otherwise. *)
Theorem readSTL_fallback :
  forall (toLowerCase : jsstring -> jsstring) (buf : list byte),
    ~ sizeMatches buf ->
    readSTL toLowerCase buf =
    let text := Utf8.decode buf in
    if Str.includes (toLowerCase text) (js "solid")
       && Str.includes (toLowerCase text) (js "facet")
    then Return (readASCIISTL toLowerCase text)
    else Throw (Error "Not a valid STL file").
Proof.
  intros lower buf Hno. unfold readSTL.
  destruct (Z.ltb_spec 84 (Z.of_nat (length buf))) as [Hlen|Hlen]; [|reflexivity].
  destruct (DecoderFacts.getUint32_in_range buf Hlen) as [count Hc]. rewrite Hc. cbn [cbind].
  destruct (Z.eqb_spec (Z.of_nat (length buf)) (84 + count * 50)) as [Heq|Hne];
    [|reflexivity].
  exfalso. apply Hno. split; [exact Hlen|]. exists count. auto.
Qed.

Lemma readSTL_fallback_witness :
  let buf := Utf8.bytes "not a mesh" in
  ~ sizeMatches buf /\
  readSTL Str.asciiLowerCase buf = Throw (Error "Not a valid STL file").
Proof.
  intros buf.
  assert (Hno : ~ sizeMatches buf).
  { intros [Hlen _]. vm_compute in Hlen. discriminate. }
  split; [exact Hno|].
  rewrite (readSTL_fallback Str.asciiLowerCase buf Hno). reflexivity.
Defined.

(** C5 (amended).  [readOBJ] throws 'No valid vertices in OBJ' or returns
    a non-empty point sequence; the binary path of
    [readSTL] never yields zero points; and whenever a decoder returns the
    empty sequence, the dimensions request fails in [getSize] with
    'No vertices found'. *)
Theorem empty_mesh_rejected :
  forall (toLowerCase : jsstring -> jsstring) (file : list byte),
    (readOBJ file = Throw (Error "No valid vertices in OBJ") \/
     exists v vs, readOBJ file = Return (v :: vs)) /\
    (forall pts, sizeMatches file -> readSTL toLowerCase file = Return pts -> pts <> []) /\
    (forall ext, decodeMesh toLowerCase ext file = Return [] ->
                 dimensions toLowerCase ext file = Throw (Error "No vertices found")).
Proof.
  intros lower file. split; [apply DecoderFacts.readOBJ_cases|]. split.
  - intros pts. apply DecoderFacts.binary_path_nonempty.
  - intros ext H. unfold dimensions. rewrite H. reflexivity.
Qed.

Lemma empty_mesh_rejected_witness :
  let file := Utf8.bytes "solid facet" in
  decodeMesh Str.asciiLowerCase ExtStl file = Return [] /\
  dimensions Str.asciiLowerCase ExtStl file = Throw (Error "No vertices found").
Proof.
  intros file.
  assert (H : decodeMesh Str.asciiLowerCase ExtStl file = Return []) by reflexivity.
  split; [exact H|].
  exact (proj2 (proj2 (empty_mesh_rejected Str.asciiLowerCase file)) ExtStl H).
Defined.

(** C5 as stated fails for ASCII STL: the text below has both markers and
    no vertex line, and [readSTL] returns the empty sequence without
    throwing. *)
Lemma readSTL_returns_empty :
  readSTL Str.asciiLowerCase (Utf8.bytes "solid facet") = Return [].
Proof. reflexivity. Qed.

(** ** Vertex lines with non-numeric coordinates *)

Module VertexLines.

Lemma asciiLineVertices_vertex lower line t1 t2 t3 :
  Regex.split whiteSpaceRun (lower (Str.trim line)) = [js "vertex"; t1; t2; t3] ->
  asciiLineVertices lower line =
  [(Conv.StringToNumber t1, Conv.StringToNumber t2, Conv.StringToNumber t3)].
Proof. intros H. unfold asciiLineVertices. rewrite H. reflexivity. Qed.

Lemma objLineVertices_NaN line p0 t1 t2 t3 rest :
  Regex.split whiteSpaceRun (Str.trim line) = p0 :: t1 :: t2 :: t3 :: rest ->
  Num.isNaN (Conv.StringToNumber t1) || Num.isNaN (Conv.StringToNumber t2)
    || Num.isNaN (Conv.StringToNumber t3) = true ->
  objLineVertices line = [].
Proof.
  intros H Hn. unfold objLineVertices. rewrite H.
  destruct (Str.eqb p0 (js "v")); [|reflexivity].
  destruct (Num.isNaN (Conv.StringToNumber t1)),
           (Num.isNaN (Conv.StringToNumber t2)),
           (Num.isNaN (Conv.StringToNumber t3)); try reflexivity; discriminate.
Qed.

Lemma hasNaN_map (f : vertex -> number) verts v :
  In v verts -> Num.isNaN (f v) = true -> hasNaN (map f verts) = true.
Proof.
  intros Hin Hn. unfold hasNaN. apply existsb_exists.
  exists (f v). split; [apply in_map; exact Hin|exact Hn].
Qed.

(** A NaN coordinate makes the extent of its axis NaN. *)
Lemma getSize_NaN verts v :
  In v verts ->
  exists d, getSize verts = Return d /\
    (Num.isNaN (vx v) = true -> size_x d = Num.NaN) /\
    (Num.isNaN (vy v) = true -> size_y d = Num.NaN) /\
    (Num.isNaN (vz v) = true -> size_z d = Num.NaN).
Proof.
  intros Hin. destruct verts as [|v0 verts]; [contradiction|].
  eexists. split; [reflexivity|]. cbn [size_x size_y size_z].
  rewrite ExtentFacts.fold_updateBounds. cbn [minX maxX minY maxY minZ maxZ initialBounds].
  repeat split; intros Hn;
    rewrite ExtentFacts.fold_max_hasNaN by (eapply hasNaN_map; eauto); reflexivity.
Qed.

End VertexLines.

(** C10.  In [readASCIISTL] a line whose lower-cased tokens are "vertex"
    and three more contributes the point of the three [Number]
    conversions, numeric or not; a NaN among them makes the extent of
    that axis NaN in [getSize]; there are STL inputs decoded to NaN points
    with NaN dimensions; and [readOBJ] pushes nothing for a vertex line
    with such a token. *)
Theorem ascii_vertex_lines_keep_NaN :
  (exists buf,
      readSTL Str.asciiLowerCase buf = Return [(Num.NaN, Num.NaN, Num.NaN)] /\
      dimensions Str.asciiLowerCase ExtStl buf =
      Return (mkSize Num.NaN Num.NaN Num.NaN 1)) /\
  forall (toLowerCase : jsstring -> jsstring) (text line t1 t2 t3 : jsstring),
    In line (Str.split 10 text) ->
    Regex.split whiteSpaceRun (toLowerCase (Str.trim line)) = [js "vertex"; t1; t2; t3] ->
    let p := (Conv.StringToNumber t1, Conv.StringToNumber t2, Conv.StringToNumber t3) in
    In p (readASCIISTL toLowerCase text) /\
    (exists d, getSize (readASCIISTL toLowerCase text) = Return d /\
       (Num.isNaN (vx p) = true -> size_x d = Num.NaN) /\
       (Num.isNaN (vy p) = true -> size_y d = Num.NaN) /\
       (Num.isNaN (vz p) = true -> size_z d = Num.NaN)) /\
    (forall objLine p0 rest,
       Regex.split whiteSpaceRun (Str.trim objLine) = p0 :: t1 :: t2 :: t3 :: rest ->
       Num.isNaN (vx p) || Num.isNaN (vy p) || Num.isNaN (vz p) = true ->
       objLineVertices objLine = []).
Proof.
  split.
  - exists (Utf8.bytes "solid s
facet
vertex a b c"). split; reflexivity.
  - intros lower text line t1 t2 t3 Hline Htok p.
    assert (Hin : In p (readASCIISTL lower text)).
    { unfold readASCIISTL. apply in_flat_map. exists line. split; [exact Hline|].
      rewrite (VertexLines.asciiLineVertices_vertex lower line t1 t2 t3 Htok).
      left. reflexivity. }
    split; [exact Hin|]. split.
    + apply VertexLines.getSize_NaN. exact Hin.
    + intros objLine p0 rest. apply VertexLines.objLineVertices_NaN.
Qed.

Lemma ascii_vertex_lines_keep_NaN_witness :
  let text := js "solid s
VERTEX  1 oops 2.5
endsolid" in
  let line := js "VERTEX  1 oops 2.5" in
  In line (Str.split 10 text) /\
  Regex.split whiteSpaceRun (Str.asciiLowerCase (Str.trim line)) =
    [js "vertex"; js "1"; js "oops"; js "2.5"] /\
  In (lit "1", Num.NaN, lit "2.5") (readASCIISTL Str.asciiLowerCase text) /\
  objLineVertices (js "v 1 oops 2.5") = [].
Proof.
  intros text line.
  assert (Hline : In line (Str.split 10 text)) by (right; left; reflexivity).
  assert (Htok : Regex.split whiteSpaceRun (Str.asciiLowerCase (Str.trim line)) =
                 [js "vertex"; js "1"; js "oops"; js "2.5"]) by reflexivity.
  destruct (proj2 ascii_vertex_lines_keep_NaN Str.asciiLowerCase text line
              (js "1") (js "oops") (js "2.5") Hline Htok) as (Hin & _ & Hobj).
  split; [exact Hline|]. split; [exact Htok|]. split; [exact Hin|].
  apply (Hobj (js "v 1 oops 2.5") (js "v") []); reflexivity.
Defined.

(** ** Print-time extraction *)

Module RegexFacts.
Import Regex.

(** A repetition whose continuation always succeeds takes the longest run. *)
Lemma greedy_total (p : N -> bool) (g : jsstring -> jsstring -> result) s :
  forall taken,
    greedy p (fun tk rest => Some (g tk rest)) taken s =
    Some (g (taken ++ Str.takeWhile p s) (Str.dropWhile p s)).
Proof.
  induction s as [|c s IH]; intros taken; cbn [greedy Str.takeWhile Str.dropWhile].
  - rewrite app_nil_r. reflexivity.
  - destruct (p c).
    + rewrite IH, <- app_assoc. reflexivity.
    + rewrite app_nil_r. reflexivity.
Qed.

Lemma run_literal lit re : forall n cap s,
  run (literal lit ++ re) n cap s =
  if Str.startsWith s lit
  then run re (n + length lit)%nat cap (skipn (length lit) s)
  else None.
Proof.
  induction lit as [|c lit IH]; intros n cap s.
  - cbn. rewrite Nat.add_0_r. reflexivity.
  - cbn [literal map app run char quant accepts captures Str.startsWith length].
    destruct s as [|x s]; [reflexivity|].
    destruct (N.eqb c x); cbn [andb]; [|reflexivity].
    fold (literal lit). rewrite IH. cbn [length skipn].
    replace (n + 1 + length lit)%nat with (n + S (length lit))%nat by lia.
    reflexivity.
Qed.

End RegexFacts.

Module StrFacts.
Import Str.

Lemma lineTerminator_whiteSpace c : isLineTerminator c = true -> isWhiteSpace c = true.
Proof. intros H. unfold isWhiteSpace. rewrite H. rewrite !orb_true_r. reflexivity. Qed.

Lemma not_whiteSpace_anyChar c : isWhiteSpace c = false -> Regex.anyChar c = true.
Proof.
  intros H. unfold Regex.anyChar. destruct (isLineTerminator c) eqn:E; [|reflexivity].
  apply lineTerminator_whiteSpace in E. congruence.
Qed.

Lemma takeWhile_none p s : existsb p s = false -> takeWhile p s = [].
Proof.
  destruct s as [|c s]; [reflexivity|]. cbn. destruct (p c); [discriminate|reflexivity].
Qed.

Lemma dropWhile_all p s : forallb p s = true -> dropWhile p s = [].
Proof.
  induction s as [|c s IH]; [reflexivity|]. cbn. destruct (p c); [exact IH|discriminate].
Qed.

Lemma no_anyChar_whiteSpace s :
  existsb Regex.anyChar s = false -> forallb isWhiteSpace s = true.
Proof.
  induction s as [|c s IH]; [reflexivity|]. cbn. intros H.
  apply orb_false_iff in H. destruct H as [Hc Hs].
  rewrite (IH Hs), andb_true_r.
  destruct (isWhiteSpace c) eqn:E; [reflexivity|].
  apply not_whiteSpace_anyChar in E. congruence.
Qed.

Lemma takeWhile_dropWhile p s : takeWhile p s ++ dropWhile p s = s.
Proof.
  induction s as [|c s IH]; [reflexivity|]. cbn. destruct (p c); [|reflexivity].
  cbn. rewrite IH. reflexivity.
Qed.

Lemma takeWhile_all p s : forallb p (takeWhile p s) = true.
Proof.
  induction s as [|c s IH]; [reflexivity|]. cbn. destruct (p c) eqn:E; [|reflexivity].
  cbn. rewrite E, IH. reflexivity.
Qed.

Lemma dropWhile_app_all p w s : forallb p w = true -> dropWhile p (w ++ s) = dropWhile p s.
Proof.
  induction w as [|c w IH]; [reflexivity|]. cbn. intros H.
  apply andb_true_iff in H. destruct H as [Hc Hw]. rewrite Hc. auto.
Qed.

Lemma forallb_rev (p : N -> bool) s : forallb p (rev s) = forallb p s.
Proof.
  induction s as [|c s IH]; [reflexivity|]. cbn.
  rewrite forallb_app, IH. cbn. rewrite andb_true_r, andb_comm. reflexivity.
Qed.

Lemma trimEnd_app_ws s w : forallb isWhiteSpace w = true -> trimEnd (s ++ w) = trimEnd s.
Proof.
  intros H. unfold trimEnd. rewrite rev_app_distr, dropWhile_app_all; [reflexivity|].
  rewrite forallb_rev. exact H.
Qed.

Lemma trimEnd_split s :
  exists w, s = trimEnd s ++ w /\ forallb isWhiteSpace w = true.
Proof.
  exists (rev (takeWhile isWhiteSpace (rev s))). split.
  - unfold trimEnd. rewrite <- rev_app_distr, takeWhile_dropWhile, rev_involutive.
    reflexivity.
  - rewrite forallb_rev. apply takeWhile_all.
Qed.

Lemma trimEnd_idem s : trimEnd (trimEnd s) = trimEnd s.
Proof.
  destruct (trimEnd_split s) as (w & Hs & Hw).
  rewrite Hs at 2. rewrite trimEnd_app_ws by exact Hw. reflexivity.
Qed.

Lemma trim_all_ws s : forallb isWhiteSpace s = true -> trim s = [].
Proof. intros H. unfold trim, trimStart. rewrite dropWhile_all by exact H. reflexivity. Qed.

Lemma takeWhile_app_all p s w : forallb p s = true -> takeWhile p (s ++ w) = s ++ takeWhile p w.
Proof.
  induction s as [|c s IH]; [reflexivity|]. cbn. intros H.
  apply andb_true_iff in H. destruct H as [Hc Hs]. rewrite Hc, IH by exact Hs. reflexivity.
Qed.

Lemma forallb_takeWhile_sub (p q : N -> bool) s :
  forallb p s = true -> forallb p (takeWhile q s) = true.
Proof.
  induction s as [|c s IH]; [reflexivity|]. cbn. intros H.
  apply andb_true_iff in H. destruct H as [Hc Hs].
  destruct (q c); [|reflexivity]. cbn. rewrite Hc. auto.
Qed.

(** Dropping leading white space is not undone by cutting at a line
    terminator. *)
Lemma trimStart_takeWhile q t :
  trimStart (takeWhile q (trimStart t)) = takeWhile q (trimStart t).
Proof.
  unfold trimStart. induction t as [|c t IH]; [reflexivity|]. cbn.
  destruct (isWhiteSpace c) eqn:E; [exact IH|].
  cbn. destruct (q c); [|reflexivity]. cbn. rewrite E. reflexivity.
Qed.

(** When the trimmed text holds no line terminator, cutting at the
    first line terminator after the leading white space loses nothing. *)
Lemma trim_cut t :
  forallb Regex.anyChar (trim t) = true ->
  trim (takeWhile Regex.anyChar (trimStart t)) = trim t.
Proof.
  intros H. unfold trim at 1. rewrite trimStart_takeWhile.
  unfold trim in *. set (u := trimStart t) in *.
  destruct (trimEnd_split u) as (w & Hu & Hw).
  rewrite Hu at 1. rewrite takeWhile_app_all by exact H.
  rewrite trimEnd_app_ws by (apply forallb_takeWhile_sub; exact Hw).
  apply trimEnd_idem.
Qed.

End StrFacts.

Module PrintTimeFacts.
Import Regex PrintTimeSpec.

(** [(.+)] at the end of the pattern. *)
Lemma run_group n cap s :
  run [mkPiece anyChar Plus true] n cap s =
  match s with
  | c :: s' =>
      if anyChar c
      then Some ((n + length (c :: Str.takeWhile anyChar s'))%nat,
                 Some (c :: Str.takeWhile anyChar s'))
      else None
  | [] => None
  end.
Proof.
  cbn [run quant accepts captures]. destruct s as [|c s']; [reflexivity|].
  destruct (anyChar c); [|reflexivity].
  rewrite (RegexFacts.greedy_total anyChar (fun tk _ => ((n + length tk)%nat, Some tk))).
  reflexivity.
Qed.

(** [\s*(.+)]: the value starts at the first character that is not white
    space; when there is none, the group falls back on the last
    white-space character that is not a line terminator. *)
Lemma run_value t : forall n cap taken,
  let r := greedy whiteSpace
             (fun tk rest => run [mkPiece anyChar Plus true] (n + length tk)%nat cap rest)
             taken t in
  if existsb anyChar t then matched r (valueOf t) else r = None.
Proof.
  induction t as [|c t IH]; intros n cap taken; cbn zeta.
  - reflexivity.
  - cbn [greedy existsb]. change (whiteSpace c) with (Str.isWhiteSpace c).
    destruct (Str.isWhiteSpace c) eqn:Ews.
    + specialize (IH n cap (taken ++ [c])). cbn zeta in IH.
      destruct (existsb anyChar t) eqn:Eany.
      * rewrite orb_true_r. destruct IH as (n' & c' & -> & Hv).
        exists n', c'. split; [reflexivity|].
        rewrite Hv. unfold valueOf. cbn [Str.dropWhile]. rewrite Ews. reflexivity.
      * rewrite orb_false_r, IH, run_group.
        destruct (anyChar c) eqn:Ec; [|reflexivity].
        eexists _, _. split; [reflexivity|].
        rewrite (StrFacts.takeWhile_none _ _ Eany).
        unfold valueOf. cbn [Str.dropWhile]. rewrite Ews.
        rewrite (StrFacts.dropWhile_all _ _ (StrFacts.no_anyChar_whiteSpace _ Eany)).
        cbn [Str.takeWhile].
        rewrite StrFacts.trim_all_ws; [reflexivity|]. cbn. rewrite Ews. reflexivity.
    + rewrite run_group, (StrFacts.not_whiteSpace_anyChar _ Ews). cbn [orb].
      eexists _, _. split; [reflexivity|].
      unfold valueOf. cbn [Str.dropWhile]. rewrite Ews. cbn [Str.takeWhile].
      rewrite (StrFacts.not_whiteSpace_anyChar _ Ews). reflexivity.
Qed.

(** [[^=]*=...]: only the first "=" can be the one of the pattern. *)
Lemma run_tail r : forall n cap taken,
  let res := greedy (notChar 61)
               (fun tk rest =>
                  run [char 61; mkPiece whiteSpace Star false; mkPiece anyChar Plus true]
                      (n + length tk)%nat cap rest)
               taken r in
  match afterChar 61 r with
  | Some t => if existsb anyChar t then matched res (valueOf t) else res = None
  | None => res = None
  end.
Proof.
  induction r as [|c r IH]; intros n cap taken; cbn zeta.
  - reflexivity.
  - cbn [greedy afterChar]. change (notChar 61 c) with (negb (N.eqb c 61)).
    destruct (N.eqb_spec c 61) as [->|Hne]; cbn [negb].
    + cbn [run char quant accepts captures]. rewrite N.eqb_refl.
      apply (run_value r (n + length taken + length [61%N])%nat cap []).
    + specialize (IH n cap (taken ++ [c])). cbn zeta in IH.
      assert (Hk : run [char 61; mkPiece whiteSpace Star false; mkPiece anyChar Plus true]
                     (n + length taken)%nat cap (c :: r) = None).
      { cbn [run char quant accepts captures].
        destruct (N.eqb_spec 61 c); [congruence|reflexivity]. }
      rewrite Hk.
      destruct (afterChar 61 r) as [t|].
      * destruct (existsb anyChar t).
        -- destruct IH as (n' & c' & -> & Hv). exists n', c'. auto.
        -- rewrite IH. reflexivity.
      * rewrite IH. reflexivity.
Qed.

Lemma matchAt_printTime s :
  matchAt printTimePattern s =
  if Str.startsWith s printTimeMarker
  then run printTimeTail (length printTimeMarker) None (skipn (length printTimeMarker) s)
  else None.
Proof.
  unfold matchAt, printTimePattern. rewrite RegexFacts.run_literal. reflexivity.
Qed.

Lemma run_printTimeTail n r :
  match afterChar 61 r with
  | Some t =>
      if existsb anyChar t then matched (run printTimeTail n None r) (valueOf t)
      else run printTimeTail n None r = None
  | None => run printTimeTail n None r = None
  end.
Proof. exact (run_tail r n None []). Qed.

Lemma run_printTimeTail_fail n r : tailOK r = false -> run printTimeTail n None r = None.
Proof.
  unfold tailOK. intros H. pose proof (run_printTimeTail n r) as Hr.
  destruct (afterChar 61 r) as [t|]; [|exact Hr]. rewrite H in Hr. exact Hr.
Qed.

Lemma afterChar_exists r t : afterChar 61 r = Some t -> existsb anyChar r = true.
Proof.
  revert t. induction r as [|c r IH]; intros t H; [discriminate|].
  cbn in H |- *. destruct (N.eqb_spec c 61) as [->|Hne]; [reflexivity|].
  rewrite (IH _ H). apply orb_true_r.
Qed.

Lemma tailOK_exists r : tailOK r = true -> existsb anyChar r = true.
Proof.
  unfold tailOK. destruct (afterChar 61 r) as [t|] eqn:E; [|discriminate].
  intros _. eapply afterChar_exists; eauto.
Qed.

(** A later start cannot succeed where an earlier one failed. *)
Lemma tailOK_suffix p r : tailOK r = true -> tailOK (p ++ r) = true.
Proof.
  intros H. induction p as [|c p IH]; [exact H|].
  unfold tailOK in *. cbn [app afterChar].
  destruct (N.eqb c 61); [|exact IH].
  rewrite existsb_app, (tailOK_exists r H). apply orb_true_r.
Qed.


Lemma startsWith_length s p : Str.startsWith s p = true -> (length p <= length s)%nat.
Proof.
  revert s. induction p as [|a p IH]; intros s H; cbn; [lia|].
  destruct s as [|b s]; [discriminate|]. cbn in H |- *.
  apply andb_true_iff in H. destruct H as [_ H]. apply IH in H. lia.
Qed.

Lemma skipn_suffix (k : nat) (q s : jsstring) :
  (k <= length s)%nat -> exists p, skipn k (q ++ s) = p ++ skipn k s.
Proof.
  revert k. induction q as [|c q IH]; intros k Hk.
  - exists []. reflexivity.
  - destruct k as [|k].
    + exists (c :: q). reflexivity.
    + destruct (IH k ltac:(lia)) as [p Hp]. cbn [app skipn]. rewrite Hp.
      exists (p ++ firstn 1 (skipn k s)). rewrite <- app_assoc. f_equal.
      rewrite <- (firstn_skipn 1 (skipn k s)) at 1. f_equal.
      rewrite skipn_skipn. reflexivity.
Qed.

Lemma search_fail line :
  (forall p s, line = p ++ s -> Str.startsWith s printTimeMarker = true ->
               tailOK (skipn (length printTimeMarker) s) = false) ->
  search printTimePattern line = None.
Proof.
  induction line as [|c line IH]; intros H; cbn [search]; rewrite matchAt_printTime.
  - reflexivity.
  - destruct (Str.startsWith (c :: line) printTimeMarker) eqn:E.
    + rewrite run_printTimeTail_fail by (apply (H [] (c :: line)); auto).
      apply IH. intros p s Hs. apply (H (c :: p) s). rewrite Hs. reflexivity.
    + apply IH. intros p s Hs. apply (H (c :: p) s). rewrite Hs. reflexivity.
Qed.

(** [line.match(...)] succeeds exactly on the lines that yield a value,
    and its group trims to that value. *)
Lemma search_lineValue line :
  match lineValue line with
  | Some v => matched (search printTimePattern line) v
  | None => search printTimePattern line = None
  end.
Proof.
  unfold lineValue, valueText.
  induction line as [|c line IH].
  - reflexivity.
  - cbn [search afterMarker]. rewrite matchAt_printTime.
    destruct (Str.startsWith (c :: line) printTimeMarker) eqn:E.
    + set (r := skipn (length printTimeMarker) (c :: line)).
      pose proof (run_printTimeTail (length printTimeMarker) r) as Hr.
      destruct (afterChar 61 r) as [t|] eqn:Et.
      * destruct (existsb anyChar t) eqn:Ea.
        -- destruct Hr as (n & g & -> & Hv). exists n, g. auto.
        -- rewrite Hr. apply search_fail. intros p s Hs Hstart.
           destruct (tailOK (skipn (length printTimeMarker) s)) eqn:Eok; [|reflexivity].
           destruct (skipn_suffix (length printTimeMarker) (c :: p) s
                       (startsWith_length _ _ Hstart)) as [p' Hp'].
           pose proof (tailOK_suffix p' _ Eok) as Hbad.
           rewrite <- Hp' in Hbad. cbn [app] in Hbad. rewrite <- Hs in Hbad.
           fold r in Hbad. unfold tailOK in Hbad. rewrite Et, Ea in Hbad. discriminate.
      * rewrite Hr. apply search_fail. intros p s Hs Hstart.
        destruct (tailOK (skipn (length printTimeMarker) s)) eqn:Eok; [|reflexivity].
        destruct (skipn_suffix (length printTimeMarker) (c :: p) s
                    (startsWith_length _ _ Hstart)) as [p' Hp'].
        pose proof (tailOK_suffix p' _ Eok) as Hbad.
        rewrite <- Hp' in Hbad. cbn [app] in Hbad. rewrite <- Hs in Hbad.
        fold r in Hbad. unfold tailOK in Hbad. rewrite Et in Hbad. discriminate.
    + exact IH.
Qed.

Lemma includes_afterMarker line :
  Str.includes line printTimeMarker =
  match afterMarker line with Some _ => true | None => false end.
Proof.
  induction line as [|c line IH]; cbn [Str.includes afterMarker].
  - destruct (Str.startsWith [] printTimeMarker); reflexivity.
  - destruct (Str.startsWith (c :: line) printTimeMarker); [reflexivity|exact IH].
Qed.

Lemma scanPrintTime_firstValue lines : scanPrintTime lines = firstValue lines.
Proof.
  induction lines as [|line rest IH]; [reflexivity|].
  cbn [scanPrintTime firstValue].
  pose proof (search_lineValue line) as Hs.
  destruct (lineValue line) as [v|] eqn:Ev.
  - destruct Hs as (n & g & -> & Hv).
    rewrite includes_afterMarker.
    unfold lineValue, valueText in Ev.
    destruct (afterMarker line); [exact Hv|discriminate].
  - rewrite Hs. destruct (Str.includes line printTimeMarker); exact IH.
Qed.

Lemma dropWhile_In p (c : N) s : In c (Str.dropWhile p s) -> In c s.
Proof.
  induction s as [|x s IH]; [tauto|]. cbn. destruct (p x); [|tauto].
  intros H. right. auto.
Qed.

Lemma trim_In (c : N) s : In c (Str.trim s) -> In c s.
Proof.
  unfold Str.trim, Str.trimEnd, Str.trimStart. intros H.
  apply in_rev, dropWhile_In, in_rev, dropWhile_In in H. exact H.
Qed.

(** Without a line terminator inside the value, the value is the trimmed
    text after the "=". *)
Lemma lineValue_trim line t :
  valueText line = Some t -> Str.trim t <> [] ->
  forallb anyChar (Str.trim t) = true ->
  lineValue line = Some (Str.trim t).
Proof.
  intros Ht Hne Hall. unfold lineValue. rewrite Ht.
  assert (Hex : existsb anyChar t = true).
  { destruct (Str.trim t) as [|c u] eqn:E; [congruence|].
    apply existsb_exists. exists c. split.
    - apply trim_In. rewrite E. left. reflexivity.
    - cbn in Hall. apply andb_true_iff in Hall. tauto. }
  rewrite Hex. unfold valueOf. f_equal. apply StrFacts.trim_cut. exact Hall.
Qed.

Lemma firstValue_no_marker lines :
  (forall line, In line lines -> Str.includes line printTimeMarker = false) ->
  firstValue lines = js "Unknown".
Proof.
  induction lines as [|line rest IH]; intros H; [reflexivity|].
  cbn [firstValue]. unfold lineValue, valueText.
  pose proof (H line (or_introl eq_refl)) as Hl. rewrite includes_afterMarker in Hl.
  destruct (afterMarker line); [discriminate|].
  apply IH. intros l Hin. apply H. right. exact Hin.
Qed.

End PrintTimeFacts.

Import PrintTimeSpec.

(** C7 (amended).  [parsePrintTime] returns the value of the first line
    that yields one, and "Unknown" when no line does.  A line yields a
    value when it holds the marker and, after the first "=" that follows
    the marker, a character that is not a line terminator; the value is
    the text after that "=" from the first character that is not white
    space up to the next line terminator, trimmed.  When the trimmed text
    after the "=" is not empty and holds no line terminator, the value is
    that trimmed text.  Without a marker line the result is "Unknown". *)
Theorem parsePrintTime_first_value :
  forall text : jsstring,
    parsePrintTime text = firstValue (Str.split 10 text) /\
    (forall line t,
        valueText line = Some t -> Str.trim t <> [] ->
        forallb Regex.anyChar (Str.trim t) = true ->
        lineValue line = Some (Str.trim t)) /\
    ((forall line, In line (Str.split 10 text) ->
                   Str.includes line printTimeMarker = false) ->
     parsePrintTime text = js "Unknown").
Proof.
  intros text. unfold parsePrintTime. rewrite PrintTimeFacts.scanPrintTime_firstValue.
  split; [reflexivity|]. split.
  - apply PrintTimeFacts.lineValue_trim.
  - apply PrintTimeFacts.firstValue_no_marker.
Qed.

Lemma parsePrintTime_first_value_witness :
  let line := js "; estimated printing time (normal mode) = 3h 12m" in
  let text := js "; generated by the slicer
; estimated printing time (normal mode) = 3h 12m
; estimated printing time (silent mode) = 3h 20m" in
  valueText line = Some (js " 3h 12m") /\
  lineValue line = Some (js "3h 12m") /\
  parsePrintTime text = js "3h 12m" /\
  parsePrintTime (js "G1 X0 Y0") = js "Unknown".
Proof.
  intros line text.
  assert (Ht : valueText line = Some (js " 3h 12m")) by reflexivity.
  split; [exact Ht|]. split; [|split].
  - apply (proj1 (proj2 (parsePrintTime_first_value text)) line (js " 3h 12m") Ht).
    + discriminate.
    + reflexivity.
  - rewrite (proj1 (parsePrintTime_first_value text)). reflexivity.
  - apply (proj2 (proj2 (parsePrintTime_first_value (js "G1 X0 Y0")))).
    intros l [<-|[]]. reflexivity.
Defined.

(** C7 as stated fails on two kinds of marker lines.  With nothing after
    the "=", the line is skipped and the result is "Unknown", not the
    empty trimmed substring.  With a carriage return inside the text after
    the "=", only the part before it is returned. *)
Lemma parsePrintTime_not_trimmed_rest :
  let bare := js "; estimated printing time =" in
  let split := js "; estimated printing time = 3h" ++ [13%N] ++ js "12m" in
  (Str.includes bare printTimeMarker = true /\
   valueText bare = Some [] /\
   parsePrintTime bare = js "Unknown" /\
   parsePrintTime bare <> Str.trim []) /\
  (valueText split = Some (js " 3h" ++ [13%N] ++ js "12m") /\
   Str.trim (js " 3h" ++ [13%N] ++ js "12m") = js "3h" ++ [13%N] ++ js "12m" /\
   parsePrintTime split = js "3h").
Proof. vm_compute. repeat split; discriminate. Qed.

(** ** The slicer command line *)

Module CommandFacts.

Lemma string_of_uint_digits (d : Decimal.uint) (c : N) :
  In c (js (NilEmpty.string_of_uint d)) -> (48 <= c <= 57)%N.
Proof.
  induction d; cbn [NilEmpty.string_of_uint js In]; intros H;
    try contradiction; destruct H as [<-|H]; auto; cbn; lia.
Qed.

Lemma decimalString_digits z c : In c (Conv.decimalString z) -> (48 <= c <= 57)%N.
Proof. apply string_of_uint_digits. Qed.

Lemma zeros_digits n c : In c (Conv.zeros n) -> c = 48%N.
Proof. unfold Conv.zeros. apply repeat_spec. Qed.

(** The layout of a positive Number never starts with "-". *)
Lemma layout_head ds k n rest :
  (forall c, In c ds -> (48 <= c <= 57)%N) ->
  Conv.layout ds k n <> 45%N :: rest.
Proof.
  intros Hds. unfold Conv.layout.
  destruct ((k <=? n) && (n <=? 21)).
  { destruct ds as [|d ds'].
    - cbn [app]. intros H.
      assert (Hin : In 45%N (Conv.zeros (n - k))) by (rewrite H; left; reflexivity).
      apply zeros_digits in Hin. discriminate.
    - cbn [app]. intros H. injection H as Hd _.
      specialize (Hds d (or_introl eq_refl)). lia. }
  destruct ((0 <? n) && (n <=? 21)).
  { destruct ds as [|d ds'].
    - rewrite firstn_nil. cbn [app]. discriminate.
    - destruct (Z.to_nat n) as [|j]; cbn [firstn app]; [discriminate|].
      intros H. injection H as Hd _.
      specialize (Hds d (or_introl eq_refl)). lia. }
  destruct ((-6 <? n) && (n <=? 0)); [discriminate|].
  destruct ds as [|d [|d' ds']]; [discriminate| |];
    intros H; injection H as Hd _;
    specialize (Hds d (or_introl eq_refl)); lia.
Qed.

Lemma positiveToString_head x m e rest :
  Conv.positiveToString x m e <> 45%N :: rest.
Proof.
  unfold Conv.positiveToString.
  destruct (Conv.shortest 20 x m e (Conv.decimalExponent 8 m e (Conv.exponentEstimate m e)) 1) as [k s].
  destruct (s =? 10 ^ k); apply layout_head; apply decimalString_digits.
Qed.

(** No Number prints as a text that starts with "--". *)
Lemma NumberToString_head x rest : Conv.NumberToString x <> 45%N :: 45%N :: rest.
Proof.
  destruct x as [s|[|]| |[|] m e]; cbn [Conv.NumberToString]; try discriminate.
  - intros H. injection H as H. revert H. apply positiveToString_head.
  - intros H. revert H. apply positiveToString_head.
Qed.

Lemma NumberToString_not_flag x : Conv.NumberToString x <> supportMaterialFlag.
Proof. apply NumberToString_head. Qed.

Lemma percent_not_flag x : Conv.NumberToString x ++ js "%" <> supportMaterialFlag.
Proof.
  pose proof (NumberToString_head x) as Hh.
  destruct (Conv.NumberToString x) as [|a [|b l]]; [discriminate|discriminate|].
  cbn [app]. unfold supportMaterialFlag. cbn [js]. intros H. injection H as Ha Hb _. subst a b.
  apply (Hh l). reflexivity.
Qed.

(** An argument equal to the flag: refuted for the fixed texts and the
    printed Numbers, kept for the values the caller supplies. *)
Ltac flag_case H :=
  lazymatch type of H with
  | Conv.NumberToString _ = _ => exfalso; exact (NumberToString_not_flag _ H)
  | Conv.NumberToString _ ++ _ = _ => exfalso; exact (percent_not_flag _ H)
  | _ => first [ solve [auto] | exfalso; vm_compute in H; discriminate H ]
  end.

End CommandFacts.

(** C9.  Whenever the builder returns, the value after "--layer-height" is
    the print of 0.2 unless [nozzleSize <= 0.3], and of
    [max(0.1, nozzleSize * 0.5)] when [nozzleSize <= 0.3]; nozzle sizes
    0.2, 0.3 and 0.4 give "0.1", "0.15" and "0.2".  The builder returns
    for every material that is not a name inherited from
    [Object.prototype]. *)
Theorem layer_height_rule :
  forall (cfg : config) (inputFilePath outputFilePath : jsstring),
    (getMaterialSettings (material cfg) <> InheritedMember ->
     exists args, generatePrusaCommand cfg inputFilePath outputFilePath = Return args) /\
    (forall args,
        generatePrusaCommand cfg inputFilePath outputFilePath = Return args ->
        exists h,
          nth_error args 16 = Some (js "--layer-height") /\
          nth_error args 17 = Some (Conv.NumberToString h) /\
          (Num.le (nozzleSize cfg) (lit "0.3") = true ->
           h = Num.max (lit "0.1") (Num.mul (nozzleSize cfg) (lit "0.5"))) /\
          (Num.le (nozzleSize cfg) (lit "0.3") = false -> h = lit "0.2") /\
          (nozzleSize cfg = lit "0.2" -> Conv.NumberToString h = js "0.1") /\
          (nozzleSize cfg = lit "0.3" -> Conv.NumberToString h = js "0.15") /\
          (nozzleSize cfg = lit "0.4" -> Conv.NumberToString h = js "0.2")).
Proof.
  intros cfg inp out. unfold generatePrusaCommand.
  destruct (getMaterialSettings (material cfg)) as [ms|].
  - split; [intros _; eexists; reflexivity|].
    intros args H. injection H as <-. exists (layerHeight cfg).
    split; [destruct (supportMaterial cfg); reflexivity|].
    split; [destruct (supportMaterial cfg); reflexivity|].
    unfold layerHeight.
    repeat split.
    + intros ->. reflexivity.
    + intros ->. reflexivity.
    + intros ->. vm_compute. reflexivity.
    + intros ->. vm_compute. reflexivity.
    + intros ->. vm_compute. reflexivity.
  - split; [congruence|discriminate].
Qed.

Lemma layer_height_rule_witness :
  let cfg := mkConfig (js "PETG") (js "PETG") (lit "0.3") (lit "20") true in
  getMaterialSettings (material cfg) <> InheritedMember /\
  Num.le (nozzleSize cfg) (lit "0.3") = true /\
  exists args,
    generatePrusaCommand cfg (js "/tmp/input_1.stl") (js "/tmp/output_1.gcode") = Return args /\
    nth_error args 16 = Some (js "--layer-height") /\
    nth_error args 17 = Some (js "0.15").
Proof.
  intros cfg.
  assert (Hm : getMaterialSettings (material cfg) <> InheritedMember) by discriminate.
  split; [exact Hm|]. split; [reflexivity|].
  destruct (layer_height_rule cfg (js "/tmp/input_1.stl") (js "/tmp/output_1.gcode"))
    as [Hret Hrule].
  destruct (Hret Hm) as [args Hargs]. exists args. split; [exact Hargs|].
  destruct (Hrule args Hargs) as (h & H16 & H17 & _ & _ & _ & H03 & _).
  split; [exact H16|]. rewrite H17. exact (f_equal Some (H03 eq_refl)).
Defined.

(** C8 (amended).  Whenever the builder returns: with [supportMaterial]
    false the sequence ends with [--export-gcode, --output, outputPath,
    inputPath] and holds "--support-material" only where the caller put
    it (as filament type or as a path); with [supportMaterial] true it
    ends with [--export-gcode, --support-material, --output, outputPath,
    inputPath], the flag right before the trailing triple. *)
Theorem support_flag_position :
  forall (cfg : config) (inputFilePath outputFilePath : jsstring) (args : list jsstring),
    generatePrusaCommand cfg inputFilePath outputFilePath = Return args ->
    exists pre,
      length pre = 20%nat /\
      if supportMaterial cfg
      then args = pre ++ [js "--export-gcode"; supportMaterialFlag;
                          js "--output"; outputFilePath; inputFilePath]
      else args = pre ++ [js "--export-gcode"; js "--output"; outputFilePath; inputFilePath] /\
           (In supportMaterialFlag args ->
            orElse (materialType cfg) (material cfg) = supportMaterialFlag \/
            outputFilePath = supportMaterialFlag \/ inputFilePath = supportMaterialFlag).
Proof.
  intros cfg inp out args. unfold generatePrusaCommand.
  destruct (getMaterialSettings (material cfg)) as [ms|]; [|discriminate].
  intros H. injection H as <-.
  destruct (supportMaterial cfg).
  - match goal with |- exists pre, _ /\ ?a = _ => exists (firstn 20 a) end.
    split; reflexivity.
  - match goal with |- exists pre, _ /\ ?a = _ /\ _ => exists (firstn 20 a) end.
    split; [reflexivity|]. split; [reflexivity|].
    intros H.
    repeat (destruct H as [H|H]; [CommandFacts.flag_case H|]).
    contradiction.
Qed.

Lemma support_flag_position_witness :
  let cfg := mkConfig (js "PLA") (js "PLA") (lit "0.4") (lit "15") true in
  generatePrusaCommand cfg (js "in.stl") (js "out.gcode") =
  Return (map js [ "--nozzle-diameter"; "0.4"; "--filament-type"; "PLA";
                   "--temperature"; "210"; "--first-layer-temperature"; "215";
                   "--bed-temperature"; "60"; "--retract-length"; "2";
                   "--retract-speed"; "40"; "--fill-density"; "15%";
                   "--layer-height"; "0.2"; "--bed-shape"; "0x0,300x0,300x300,0x300";
                   "--export-gcode"; "--support-material"; "--output";
                   "out.gcode"; "in.stl" ]%string) /\
  exists pre,
    length pre = 20%nat /\
    map js [ "--nozzle-diameter"; "0.4"; "--filament-type"; "PLA";
             "--temperature"; "210"; "--first-layer-temperature"; "215";
             "--bed-temperature"; "60"; "--retract-length"; "2";
             "--retract-speed"; "40"; "--fill-density"; "15%";
             "--layer-height"; "0.2"; "--bed-shape"; "0x0,300x0,300x300,0x300";
             "--export-gcode"; "--support-material"; "--output";
             "out.gcode"; "in.stl" ]%string =
    pre ++ [js "--export-gcode"; supportMaterialFlag; js "--output";
            js "out.gcode"; js "in.stl"].
Proof.
  intros cfg.
  assert (H : generatePrusaCommand cfg (js "in.stl") (js "out.gcode") =
              Return (map js [ "--nozzle-diameter"; "0.4"; "--filament-type"; "PLA";
                   "--temperature"; "210"; "--first-layer-temperature"; "215";
                   "--bed-temperature"; "60"; "--retract-length"; "2";
                   "--retract-speed"; "40"; "--fill-density"; "15%";
                   "--layer-height"; "0.2"; "--bed-shape"; "0x0,300x0,300x300,0x300";
                   "--export-gcode"; "--support-material"; "--output";
                   "out.gcode"; "in.stl" ]%string)) by (vm_compute; reflexivity).
  split; [exact H|].
  exact (support_flag_position cfg (js "in.stl") (js "out.gcode") _ H).
Defined.

(** C8 as stated fails twice.  With [supportMaterial] true the sequence
    does not end with [--export-gcode, --output, outputPath, inputPath];
    with [supportMaterial] false the flag text is still in the sequence
    when the request names it as the material type. *)
Lemma generatePrusaCommand_flag_cases :
  (exists args,
      generatePrusaCommand (mkConfig (js "PLA") (js "PLA") (lit "0.4") (lit "15") true)
                           (js "in.stl") (js "out.gcode") = Return args /\
      ~ exists pre, args = pre ++ [js "--export-gcode"; js "--output";
                                   js "out.gcode"; js "in.stl"]) /\
  (exists args,
      generatePrusaCommand (mkConfig (js "PLA") supportMaterialFlag (lit "0.4") (lit "15") false)
                           (js "in.stl") (js "out.gcode") = Return args /\
      In supportMaterialFlag args).
Proof.
  split.
  - eexists. split; [vm_compute; reflexivity|].
    intros [pre H]. apply (f_equal (@rev jsstring)) in H.
    rewrite rev_app_distr in H. cbn [rev app] in H.
    injection H as _ _ _ H _. discriminate H.
  - eexists. split; [vm_compute; reflexivity|]. vm_compute. auto 10.
Qed.

(** ** The submit handler: slicing outcome and temp files *)

Module HandlerFacts.

Lemma paths_differ e up now1 now2 : tempInputPath e up now1 <> tempOutputPath e now2.
Proof.
  unfold tempInputPath, tempOutputPath, pathJoin. intros H.
  apply app_inv_head in H. injection H as H. discriminate H.
Qed.

(** Lines 404-426. *)
Lemma slice_eq e args out w :
  slice e args out w =
  let '(outcome, fs1) := execFileAsync e (PRUSA_SLICER_PATH e) args (fs w) in
  match files fs1 !! out with
  | Some data => (Return (Utf8.toString data), mkWorld fs1 (console w))
  | None => (Throw missingOutput, mkWorld fs1 (console w))
  end.
Proof.
  unfold slice, bind, invokeEngine, collectOutput, bind, Fs.existsSync,
    Fs.readFileSync, throw.
  destruct (execFileAsync e (PRUSA_SLICER_PATH e) args (fs w)) as [outcome fs1].
  cbn [fs console]. destruct (files fs1 !! out) as [data|] eqn:E.
  - rewrite bool_decide_true by eauto. cbn [negb fs files]. rewrite E. reflexivity.
  - rewrite bool_decide_false by (intros [? ?]; congruence). reflexivity.
Qed.

(** Lines 379-385: the write throws, or the upload is staged. *)
Lemma stageInput_eq up inp w :
  stageInput up inp w =
  match denied (fs w) !! inp with
  | Some (err, residue) => (Throw err, writeFailed w inp residue)
  | None => (Return tt, staged w inp (buffer up))
  end.
Proof.
  unfold stageInput, bind, Fs.writeFileSync, Fs.existsSync, Fs.statSync.
  destruct (denied (fs w) !! inp) as [[err [part|]]|]; [reflexivity|reflexivity|].
  cbn [fs files]. rewrite lookup_insert_eq.
  rewrite bool_decide_true by eauto. cbn [negb fs files].
  rewrite lookup_insert_eq. reflexivity.
Qed.

(** The [try] block up to the command line. *)
Lemma tryBlock_eq e up rq inp out w :
  tryBlock e up rq inp out w =
  match denied (fs w) !! inp with
  | Some (err, residue) => (Throw err, writeFailed w inp residue)
  | None =>
      match generatePrusaCommand (configOf rq) inp out with
      | Return args => sliceAndRespond e up rq inp out args (staged w inp (buffer up))
      | Throw ex => (Throw ex, staged w inp (buffer up))
      end
  end.
Proof.
  unfold tryBlock. unfold bind at 1. rewrite stageInput_eq.
  destruct (denied (fs w) !! inp) as [[err residue]|]; [reflexivity|].
  unfold bind, liftC.
  destruct (generatePrusaCommand (configOf rq) inp out); reflexivity.
Qed.

(** The [catch] block always answers 500 with the error it caught. *)
Lemma catchBlock_response inp out err w :
  fst (catchBlock inp out err w) = Return (Status500 err).
Proof.
  unfold catchBlock, bind, cleanup, tryCatch, bind, consoleWrite, ret,
    Fs.existsSync, Fs.unlinkSync.
  repeat match goal with
         | |- context [bool_decide ?P] => destruct (bool_decide P)
         | |- context [files ?f !! ?p] => destruct (files f !! p)
         end; reflexivity.
Qed.

(** [cleanup] with nothing locked removes both paths. *)
Lemma cleanup_unlocked inp out w :
  inp <> out -> inp ∉ locked (fs w) -> out ∉ locked (fs w) ->
  exists w', cleanup inp out w = (Return tt, w') /\
             files (fs w') !! inp = None /\ files (fs w') !! out = None /\
             locked (fs w') = locked (fs w).
Proof.
  intros Hne Hi Ho.
  unfold cleanup, tryCatch, bind, consoleWrite, ret, Fs.existsSync, Fs.unlinkSync.
  destruct (files (fs w) !! inp) as [di|] eqn:Ei;
    destruct (files (fs w) !! out) as [do|] eqn:Eo;
    repeat first
      [ rewrite bool_decide_true by eauto
      | rewrite bool_decide_false by (intros [? ?]; congruence)
      | rewrite (bool_decide_false _ Hi)
      | rewrite (bool_decide_false _ Ho)
      | rewrite Ei | rewrite Eo
      | rewrite lookup_delete_ne by congruence
      | progress cbn [fs files locked] ];
    eexists; (split; [reflexivity|]); cbn [fs files locked];
    rewrite ?lookup_delete_eq, ?lookup_delete_ne, ?lookup_delete_eq by congruence;
    auto.
Qed.

(** Lines 404-452 on a world [w]. *)
Lemma sliceAndRespond_eq e up rq inp out args w :
  sliceAndRespond e up rq inp out args w =
  let '(outcome, fs1) := execFileAsync e (PRUSA_SLICER_PATH e) args (fs w) in
  let w1 := mkWorld fs1 (console w) in
  match files fs1 !! out with
  | None => (Throw missingOutput, w1)
  | Some data =>
      let printTime := parsePrintTime (Utf8.toString data) in
      (let! _ := Fs.unlinkSync inp in
       let! _ := Fs.unlinkSync out in
       let! current := liftC (currentUpload e up) in
       let! _ := consoleWrite (LogSuccess printTime) in
       ret (Status200 (processed current rq printTime))) w1
  end.
Proof.
  unfold sliceAndRespond. unfold bind at 1. rewrite slice_eq.
  destruct (execFileAsync e (PRUSA_SLICER_PATH e) args (fs w)) as [outcome fs1].
  destruct (files fs1 !! out); reflexivity.
Qed.

(** What an answer of the slicer stage is not: the missing-output error
    is neither an error of the file system nor a TypeError. *)
Lemma finish_not_missingOutput e up rq inp out printTime w :
  fst ((let! _ := Fs.unlinkSync inp in
        let! _ := Fs.unlinkSync out in
        let! current := liftC (currentUpload e up) in
        let! _ := consoleWrite (LogSuccess printTime) in
        ret (Status200 (processed current rq printTime))) w)
  <> Throw missingOutput.
Proof.
  unfold bind, Fs.unlinkSync, liftC, currentUpload, consoleWrite, ret.
  repeat match goal with
         | |- context [bool_decide ?P] => destruct (bool_decide P)
         | |- context [files ?f !! ?p] => destruct (files f !! p)
         | |- context [resumedUpload ?e ?u] => destruct (resumedUpload e u)
         | _ => progress cbn [fs files locked fst]
         end; discriminate.
Qed.

End HandlerFacts.

(** C4.  For every way the slicer settles (resolved; rejected with a
    non-zero exit status, a signal or the kill after the timeout) and
    whatever it did to the file system, the slicing invocation of lines
    404-426 throws the missing-output error exactly when the output file
    is absent afterwards, and otherwise returns the text of that file.
    In the handler, once the upload is staged and the command line built,
    the request is answered 500 with the missing-output error exactly
    when the output file is absent after the slicer ran. *)
Theorem slicing_fails_only_without_output :
  forall (e : env) (args : list jsstring) (out : jsstring) (w : world)
         (outcome : execOutcome) (fs2 : filesystem),
    execFileAsync e (PRUSA_SLICER_PATH e) args (fs w) = (outcome, fs2) ->
    slice e args out w =
      match files fs2 !! out with
      | Some data => (Return (Utf8.toString data), mkWorld fs2 (console w))
      | None => (Throw missingOutput, mkWorld fs2 (console w))
      end /\
    forall (up : uploaded) (rq : request) (now1 now2 : number) (w0 : world),
      let inp := tempInputPath e up now1 in
      denied (fs w0) !! inp = None ->
      w = staged w0 inp (buffer up) ->
      out = tempOutputPath e now2 ->
      generatePrusaCommand (configOf rq) inp out = Return args ->
      (fst (submitStaged e up rq now1 now2 w0) = Return (Status500 missingOutput)
       <-> files fs2 !! out = None).
Proof.
  intros e args out w outcome fs2 Hrun. split.
  - rewrite HandlerFacts.slice_eq, Hrun. reflexivity.
  - intros up rq now1 now2 w0 inp Hwrite -> -> Hargs.
    unfold submitStaged, tryCatch. fold inp.
    rewrite HandlerFacts.tryBlock_eq, Hwrite, Hargs, HandlerFacts.sliceAndRespond_eq.
    rewrite Hrun. cbn zeta.
    destruct (files fs2 !! tempOutputPath e now2) as [data|] eqn:Hout.
    + split; [|discriminate]. intros H. exfalso.
      match type of H with
      | fst (match ?c ?w1 with _ => _ end) = _ =>
          pose proof (HandlerFacts.finish_not_missingOutput
                        e up rq inp (tempOutputPath e now2)
                        (parsePrintTime (Utf8.toString data)) w1) as Hne;
          destruct (c w1) as [[r|err] w2] eqn:E
      end.
      * cbn [fst] in H.
        unfold bind, Fs.unlinkSync, liftC, currentUpload, consoleWrite, ret in E.
        repeat match type of E with
               | context [bool_decide ?P] => destruct (bool_decide P)
               | context [files ?f !! ?p] => destruct (files f !! p)
               | context [resumedUpload ?e ?u] => destruct (resumedUpload e u)
               | _ => progress cbn [fs files locked] in E
               end; congruence.
      * rewrite HandlerFacts.catchBlock_response in H.
        apply Hne. cbn [fst]. congruence.
    + split; [reflexivity|]. intros _. apply HandlerFacts.catchBlock_response.
Qed.

Lemma slicing_fails_only_without_output_witness :
  let e := Scenario.warningEnvironment in
  let up := Scenario.upload in
  let rq := Scenario.body in
  let now := Scenario.now in
  let w0 := Scenario.emptyWorld in
  let inp := tempInputPath e up now in
  let out := tempOutputPath e now in
  let args := map js [ "--nozzle-diameter"; "0.4"; "--filament-type"; "PLA";
                       "--temperature"; "210"; "--first-layer-temperature"; "215";
                       "--bed-temperature"; "60"; "--retract-length"; "2";
                       "--retract-speed"; "40"; "--fill-density"; "20%";
                       "--layer-height"; "0.2"; "--bed-shape"; "0x0,300x0,300x300,0x300";
                       "--export-gcode"; "--output";
                       "/tmp/output_1700000000000.gcode";
                       "/tmp/input_1700000000000.stl" ]%string in
  let w := staged w0 inp (buffer up) in
  let fs2 := mkFs (<[out := Scenario.gcode]> (<[inp := buffer up]> ∅)) ∅ ∅ in
  execFileAsync e (PRUSA_SLICER_PATH e) args (fs w) =
    (Rejected (Some 1) false [] (js "warning"), fs2) /\
  slice e args out w = (Return (Utf8.toString Scenario.gcode), mkWorld fs2 []) /\
  denied (fs w0) !! inp = None /\
  generatePrusaCommand (configOf rq) inp out = Return args /\
  fst (submitStaged e up rq now now w0) <> Return (Status500 missingOutput).
Proof.
  intros e up rq now w0 inp out args w fs2.
  assert (Hrun : execFileAsync e (PRUSA_SLICER_PATH e) args (fs w) =
                 (Rejected (Some 1) false [] (js "warning"), fs2))
    by (vm_compute; reflexivity).
  assert (Hargs : generatePrusaCommand (configOf rq) inp out = Return args)
    by (vm_compute; reflexivity).
  assert (Hwrite : denied (fs w0) !! inp = None) by apply lookup_empty.
  assert (Hout : files fs2 !! out = Some Scenario.gcode) by apply lookup_insert_eq.
  destruct (slicing_fails_only_without_output e args out w _ fs2 Hrun)
    as [Hslice Hanswer].
  split; [exact Hrun|]. split; [|split; [exact Hwrite|split; [exact Hargs|]]].
  - rewrite Hslice, Hout. reflexivity.
  - intros H.
    apply (Hanswer up rq now now w0 Hwrite eq_refl eq_refl Hargs) in H.
    rewrite Hout in H. discriminate H.
Defined.

Module CleanupFacts.

Lemma catchBlock_unlocked inp out err w :
  inp <> out -> inp ∉ locked (fs w) -> out ∉ locked (fs w) ->
  exists w', catchBlock inp out err w = (Return (Status500 err), w') /\
             files (fs w') !! inp = None /\ files (fs w') !! out = None.
Proof.
  intros Hne Hi Ho.
  destruct (HandlerFacts.cleanup_unlocked inp out w Hne Hi Ho)
    as (w' & Hc & Hin & Hout & _).
  unfold catchBlock, bind. rewrite Hc. unfold consoleWrite, ret.
  eexists. split; [reflexivity|]. cbn [fs]. auto.
Qed.

(** When neither temp file is locked, before or after the slicer ran, no
    exit path of the handler leaves one of them behind. *)
Lemma temp_files_removed e up rq now1 now2 w :
  let inp := tempInputPath e up now1 in
  let out := tempOutputPath e now2 in
  inp ∉ locked (fs w) -> out ∉ locked (fs w) ->
  (forall p args fsys, locked (snd (execFileAsync e p args fsys)) = locked fsys) ->
  let w' := snd (submitStaged e up rq now1 now2 w) in
  files (fs w') !! inp = None /\ files (fs w') !! out = None.
Proof.
  intros inp out Hi Ho Hlock.
  pose proof (HandlerFacts.paths_differ e up now1 now2) as Hne. fold inp out in Hne.
  unfold submitStaged, tryCatch. fold inp out.
  rewrite HandlerFacts.tryBlock_eq.
  destruct (denied (fs w) !! inp) as [[err residue]|].
  { destruct (catchBlock_unlocked inp out err (writeFailed w inp residue) Hne)
      as (w' & -> & Hin & Hout); auto; destruct residue; exact Hi || exact Ho. }
  destruct (generatePrusaCommand (configOf rq) inp out) as [args|ex].
  - rewrite HandlerFacts.sliceAndRespond_eq.
    pose proof (Hlock (PRUSA_SLICER_PATH e) args (fs (staged w inp (buffer up)))) as Hl.
    destruct (execFileAsync e (PRUSA_SLICER_PATH e) args (fs (staged w inp (buffer up))))
      as [outcome fs1].
    cbn [snd staged fs locked] in Hl. cbn zeta.
    destruct (files fs1 !! out) as [data|] eqn:Eout.
    + unfold bind, Fs.unlinkSync, consoleWrite, ret, liftC, currentUpload.
      cbn [fs files locked].
      destruct (files fs1 !! inp) as [di|] eqn:Ein.
      * rewrite bool_decide_false by (rewrite Hl; exact Hi). cbn [fs files locked].
        rewrite lookup_delete_ne by exact Hne. rewrite Eout.
        rewrite bool_decide_false by (rewrite Hl; exact Ho).
        destruct (resumedUpload e up) as [current|].
        -- cbn [snd fs files].
           rewrite lookup_delete_ne, lookup_delete_eq, lookup_delete_eq by congruence.
           auto.
        -- match goal with
           | |- context [catchBlock inp out ?err ?w1] =>
               destruct (catchBlock_unlocked inp out err w1 Hne)
                 as (w' & -> & Hin & Hout)
           end; cbn [fs locked]; rewrite ?Hl; auto.
      * destruct (catchBlock_unlocked inp out (SystemError "ENOENT" "unlink" inp)
                    (mkWorld fs1 (console (staged w inp (buffer up)))) Hne)
          as (w' & -> & Hin & Hout); cbn [fs]; rewrite ?Hl; auto.
    + destruct (catchBlock_unlocked inp out missingOutput
                  (mkWorld fs1 (console (staged w inp (buffer up)))) Hne)
        as (w' & -> & Hin & Hout); cbn [fs]; rewrite ?Hl; auto.
  - destruct (catchBlock_unlocked inp out ex (staged w inp (buffer up)) Hne)
      as (w' & -> & Hin & Hout); auto.
Qed.

(** The defect of the success path in general: the upload was staged,
    the slicer has produced its output, the temp input file is there but
    cannot be unlinked; the answer is 500 with the unlink error and the
    output file stays. *)
Lemma locked_input_escalates e up rq now1 now2 w args outcome fs2 data :
  let inp := tempInputPath e up now1 in
  let out := tempOutputPath e now2 in
  denied (fs w) !! inp = None ->
  generatePrusaCommand (configOf rq) inp out = Return args ->
  execFileAsync e (PRUSA_SLICER_PATH e) args (fs (staged w inp (buffer up))) = (outcome, fs2) ->
  files fs2 !! out = Some data -> is_Some (files fs2 !! inp) -> inp ∈ locked fs2 ->
  let r := submitStaged e up rq now1 now2 w in
  fst r = Return (Status500 (SystemError "EBUSY" "unlink" inp)) /\
  files (fs (snd r)) !! out = Some data.
Proof.
  intros inp out Hwrite Hargs Hrun Hout [di Hin] Hlocked.
  unfold submitStaged, tryCatch. fold inp out.
  rewrite HandlerFacts.tryBlock_eq, Hwrite, Hargs, HandlerFacts.sliceAndRespond_eq.
  rewrite Hrun, Hout.
  unfold bind, Fs.unlinkSync. cbn [fs files locked].
  rewrite Hin, (bool_decide_true _ Hlocked).
  unfold catchBlock, bind, cleanup, tryCatch, bind, Fs.existsSync, Fs.unlinkSync,
    consoleWrite, ret.
  cbn [fs files locked]. rewrite Hin.
  rewrite bool_decide_true by eauto. rewrite (bool_decide_true _ Hlocked).
  cbn [fs files]. rewrite Hin. cbn [fst snd fs files].
  split; [reflexivity|exact Hout].
Qed.

End CleanupFacts.

(** C3: the property fails on the success path.  The slicer has written
    its G-code and the text has been read, but the temp input file cannot
    be unlinked: the unguarded [unlinkSync] of line 430 throws into the
    handler's [catch], the request is answered 500 with the unlink error
    in place of the print time, and the temp output file is left behind. *)
Theorem cleanup_failure_escalates :
  let e := Scenario.environment in
  let inp := tempInputPath e Scenario.upload Scenario.now in
  let out := tempOutputPath e Scenario.now in
  let r := submitStaged e Scenario.upload Scenario.body Scenario.now Scenario.now
                        Scenario.emptyWorld in
  fst r = Return (Status500 (SystemError "EBUSY" "unlink" inp)) /\
  console (snd r) = [ LogCleanupError (SystemError "EBUSY" "unlink" inp);
                      LogPrusaError (SystemError "EBUSY" "unlink" inp) ] /\
  files (fs (snd r)) !! out = Some Scenario.gcode /\
  files (fs (snd r)) !! inp = Some (buffer Scenario.upload).
Proof. vm_compute. repeat split. Qed.

(** ** Further properties of [getSize] *)

Module OrderFacts.
Import NumKey NumOrder ExtentFacts.

Lemma leK_antisym p q : leK p q -> leK q p -> p = q.
Proof.
  destruct p as [[a b] c], q as [[a' b'] c']; unfold leK; intros H1 H2.
  assert (a = a' /\ b = b' /\ c = c') as (-> & -> & ->) by lia. reflexivity.
Qed.

Lemma key_eq x y :
  Num.isNaN x = false -> Num.isNaN y = false -> key x = key y ->
  x = y \/ (exists s s', x = S754_zero s /\ y = S754_zero s').
Proof.
  destruct x as [s|[]| |[] m e], y as [s'|[]| |[] m' e']; simpl; intros Hx Hy H;
    try discriminate; try (left; reflexivity); try (right; do 2 eexists; split; reflexivity);
    injection H as H1 H2; left; f_equal; lia.
Qed.

(** [r] is [+0] or positive. *)
Lemma max_keeps_positive a x :
  Num.isNaN a = false -> Num.isNaN x = false ->
  (Num.isPosZero a = true \/ Num.lt (S754_zero false) a = true) \/ x = S754_zero false ->
  Num.isPosZero (Num.max a x) = true \/ Num.lt (S754_zero false) (Num.max a x) = true.
Proof.
  intros Ha Hx H.
  destruct a as [[]|[]| |[] m e], x as [[]|[]| |[] m' e']; try discriminate;
    unfold Num.max, Num.lt, SFltb in *; simpl in *;
    try (destruct H as [[H|H]|H]; discriminate);
    try (left; reflexivity); try (right; reflexivity);
    repeat match goal with
           | |- context [match ?c with Eq => _ | Lt => _ | Gt => _ end] => destruct c
           end; simpl; auto.
Qed.

Lemma min_keeps_negative a x :
  Num.isNaN a = false -> Num.isNaN x = false ->
  (Num.isNegZero a = true \/ Num.lt a (S754_zero false) = true) \/ x = S754_zero true ->
  Num.isNegZero (Num.min a x) = true \/ Num.lt (Num.min a x) (S754_zero false) = true.
Proof.
  intros Ha Hx H.
  destruct a as [[]|[]| |[] m e], x as [[]|[]| |[] m' e']; try discriminate;
    unfold Num.min, Num.lt, SFltb in *; simpl in *;
    try (destruct H as [[H|H]|H]; discriminate);
    try (left; reflexivity); try (right; reflexivity);
    repeat match goal with
           | |- context [match ?c with Eq => _ | Lt => _ | Gt => _ end] => destruct c
           end; simpl; auto.
Qed.

Lemma fold_max_keeps_positive xs : forall a,
  Num.isNaN a = false -> hasNaN xs = false ->
  (Num.isPosZero a = true \/ Num.lt (S754_zero false) a = true) \/ In (S754_zero false) xs ->
  let r := fold_left Num.max xs a in
  Num.isPosZero r = true \/ Num.lt (S754_zero false) r = true.
Proof.
  induction xs as [|x xs IH]; intros a Ha Hxs H; cbn [fold_left].
  - destruct H as [H|[]]. exact H.
  - apply hasNaN_cons in Hxs as [Hx Hxs].
    destruct (max_spec a x Ha Hx) as (Hm & _).
    apply IH; [exact Hm | exact Hxs |].
    destruct H as [H|[H|H]].
    + left. apply max_keeps_positive; auto.
    + left. apply max_keeps_positive; auto.
    + right. exact H.
Qed.

Lemma fold_min_keeps_negative xs : forall a,
  Num.isNaN a = false -> hasNaN xs = false ->
  (Num.isNegZero a = true \/ Num.lt a (S754_zero false) = true) \/ In (S754_zero true) xs ->
  let r := fold_left Num.min xs a in
  Num.isNegZero r = true \/ Num.lt r (S754_zero false) = true.
Proof.
  induction xs as [|x xs IH]; intros a Ha Hxs H; cbn [fold_left].
  - destruct H as [H|[]]. exact H.
  - apply hasNaN_cons in Hxs as [Hx Hxs].
    destruct (min_spec a x Ha Hx) as (Hm & _).
    apply IH; [exact Hm | exact Hxs |].
    destruct H as [H|[H|H]].
    + left. apply min_keeps_negative; auto.
    + left. apply min_keeps_negative; auto.
    + right. exact H.
Qed.

Lemma hasNaN_perm xs ys : Permutation xs ys -> hasNaN xs = hasNaN ys.
Proof.
  unfold hasNaN. induction 1; cbn [existsb]; try congruence.
  destruct (Num.isNaN x), (Num.isNaN y); reflexivity.
Qed.

(** Two maxima of a list are the same Number, up to the sign of zero. *)
Lemma maxima_agree xs r r' :
  hasNaN xs = false -> isMaximum xs r -> isMaximum xs r' ->
  r = r' \/ (exists s s', r = S754_zero s /\ r' = S754_zero s').
Proof.
  intros Hn [Hin Hle] [Hin' Hle'].
  pose proof (hasNaN_In _ _ Hn Hin) as Hr. pose proof (hasNaN_In _ _ Hn Hin') as Hr'.
  apply key_eq; auto. apply leK_antisym.
  - apply le_key; auto.
  - apply le_key; auto.
Qed.

Lemma minima_agree xs r r' :
  hasNaN xs = false -> isMinimum xs r -> isMinimum xs r' ->
  r = r' \/ (exists s s', r = S754_zero s /\ r' = S754_zero s').
Proof.
  intros Hn [Hin Hle] [Hin' Hle'].
  pose proof (hasNaN_In _ _ Hn Hin) as Hr. pose proof (hasNaN_In _ _ Hn Hin') as Hr'.
  apply key_eq; auto. apply leK_antisym.
  - apply le_key; auto.
  - apply le_key; auto.
Qed.

Lemma isMaximum_perm xs ys r : Permutation xs ys -> isMaximum xs r -> isMaximum ys r.
Proof.
  intros Hp [Hin Hle]. split.
  - eapply Permutation_in; eauto.
  - intros v Hv. apply Hle. eapply Permutation_in; [symmetry; exact Hp | exact Hv].
Qed.

Lemma isMinimum_perm xs ys r : Permutation xs ys -> isMinimum xs r -> isMinimum ys r.
Proof.
  intros Hp [Hin Hle]. split.
  - eapply Permutation_in; eauto.
  - intros v Hv. apply Hle. eapply Permutation_in; [symmetry; exact Hp | exact Hv].
Qed.


Lemma fold_max_perm xs ys :
  Permutation xs ys ->
  fold_left Num.max xs Num.NegInfinity = fold_left Num.max ys Num.NegInfinity.
Proof.
  intros Hp.
  destruct xs as [|x xs'].
  { apply Permutation_nil in Hp. subst ys. reflexivity. }
  assert (Hys : ys <> []).
  { intros ->. symmetry in Hp. apply Permutation_nil in Hp. discriminate. }
  set (xs := x :: xs') in *.
  destruct (hasNaN xs) eqn:Hn.
  { rewrite (fold_max_hasNaN xs _ Hn).
    rewrite (hasNaN_perm _ _ Hp) in Hn. rewrite (fold_max_hasNaN ys _ Hn). reflexivity. }
  pose proof Hn as Hn'. rewrite (hasNaN_perm _ _ Hp) in Hn'.
  assert (Hxs : xs <> []) by discriminate.
  pose proof (fold_max_isMaximum xs Hxs Hn) as Hm.
  pose proof (fold_max_isMaximum ys Hys Hn') as Hm'.
  apply isMaximum_perm with (ys := xs) in Hm'; [|symmetry; exact Hp].
  destruct (maxima_agree xs _ _ Hn Hm Hm') as [E|(s & s' & E & E')]; [exact E|].
  rewrite E, E'. f_equal.
  (* the sign of a zero maximum: positive as soon as [+0] occurs *)
  destruct Hm as [Hin _], Hm' as [Hin' _]. rewrite E in Hin. rewrite E' in Hin'.
  assert (Hpos : forall zs, zs <> [] -> hasNaN zs = false -> In (S754_zero false) zs ->
                 forall t, fold_left Num.max zs Num.NegInfinity = S754_zero t -> t = false).
  { intros zs _ Hz Hi t Ht.
    pose proof (fold_max_keeps_positive zs Num.NegInfinity eq_refl Hz (or_intror Hi)) as H.
    cbv zeta in H. rewrite Ht in H. destruct t; [|reflexivity].
    destruct H as [H|H]; discriminate H. }
  destruct s, s'; try reflexivity.
  - (* r = -0, r' = +0 *)
    apply (Hpos xs Hxs Hn Hin' _ E).
  - symmetry. apply (Hpos ys Hys Hn'); [|exact E'].
    eapply Permutation_in; [exact Hp | exact Hin].
Qed.

Lemma fold_min_perm xs ys :
  Permutation xs ys ->
  fold_left Num.min xs Num.Infinity = fold_left Num.min ys Num.Infinity.
Proof.
  intros Hp.
  destruct xs as [|x xs'].
  { apply Permutation_nil in Hp. subst ys. reflexivity. }
  assert (Hys : ys <> []).
  { intros ->. symmetry in Hp. apply Permutation_nil in Hp. discriminate. }
  set (xs := x :: xs') in *.
  destruct (hasNaN xs) eqn:Hn.
  { rewrite (fold_min_hasNaN xs _ Hn).
    rewrite (hasNaN_perm _ _ Hp) in Hn. rewrite (fold_min_hasNaN ys _ Hn). reflexivity. }
  pose proof Hn as Hn'. rewrite (hasNaN_perm _ _ Hp) in Hn'.
  assert (Hxs : xs <> []) by discriminate.
  pose proof (fold_min_isMinimum xs Hxs Hn) as Hm.
  pose proof (fold_min_isMinimum ys Hys Hn') as Hm'.
  apply isMinimum_perm with (ys := xs) in Hm'; [|symmetry; exact Hp].
  destruct (minima_agree xs _ _ Hn Hm Hm') as [E|(s & s' & E & E')]; [exact E|].
  rewrite E, E'. f_equal.
  (* the sign of a zero minimum: negative as soon as [-0] occurs *)
  destruct Hm as [Hin _], Hm' as [Hin' _]. rewrite E in Hin. rewrite E' in Hin'.
  assert (Hneg : forall zs, hasNaN zs = false -> In (S754_zero true) zs ->
                 forall t, fold_left Num.min zs Num.Infinity = S754_zero t -> t = true).
  { intros zs Hz Hi t Ht.
    pose proof (fold_min_keeps_negative zs Num.Infinity eq_refl Hz (or_intror Hi)) as H.
    cbv zeta in H. rewrite Ht in H. destruct t; [reflexivity|].
    destruct H as [H|H]; discriminate H. }
  destruct s, s'; try reflexivity.
  - symmetry. apply (Hneg ys Hn'); [|exact E'].
    eapply Permutation_in; [exact Hp | exact Hin].
  - apply (Hneg xs Hn Hin' _ E).
Qed.

End OrderFacts.

(** X1. [getSize] does not depend on the order of the vertices: two lists
    that are permutations of each other have the same extents and the same
    vertex count, and both are rejected when they are empty. *)
Theorem getSize_permutation :
  forall verts verts' : list vertex,
    Permutation verts verts' -> getSize verts = getSize verts'.
Proof.
  intros verts verts' Hp.
  destruct verts as [|v vs].
  { apply Permutation_nil in Hp. subst verts'. reflexivity. }
  destruct verts' as [|v' vs'].
  { symmetry in Hp. apply Permutation_nil in Hp. discriminate. }
  unfold getSize.
  rewrite !ExtentFacts.fold_updateBounds. cbn [minX maxX minY maxY minZ maxZ initialBounds].
  rewrite (Permutation_length Hp).
  rewrite (OrderFacts.fold_max_perm _ _ (Permutation_map vx Hp)).
  rewrite (OrderFacts.fold_max_perm _ _ (Permutation_map vy Hp)).
  rewrite (OrderFacts.fold_max_perm _ _ (Permutation_map vz Hp)).
  rewrite (OrderFacts.fold_min_perm _ _ (Permutation_map vx Hp)).
  rewrite (OrderFacts.fold_min_perm _ _ (Permutation_map vy Hp)).
  rewrite (OrderFacts.fold_min_perm _ _ (Permutation_map vz Hp)).
  reflexivity.
Qed.

Lemma getSize_permutation_witness :
  let a := (lit "1", S754_zero true, lit "3") in
  let b := (lit "-1", S754_zero false, Num.NaN) in
  Permutation [a; b] [b; a] /\ getSize [a; b] = getSize [b; a].
Proof.
  split; [apply perm_swap | apply (getSize_permutation _ _ (perm_swap _ _ _))].
Defined.

Module FloatFacts.
Import SyntheticFacts NumKey NumOrder ExtentFacts.

(** Numbers are subnormal ([m < 2^52], [e = -1074]) or normal. *)
Lemma bounded_binary64 m e :
  bounded 53 1024 m e = true ->
  -1074 <= e <= 971 /\ (Zpos m < 2 ^ 52 -> e = -1074) /\ Zpos m < 2 ^ 53.
Proof.
  unfold bounded, canonical_mantissa, fexp, emin. intros H.
  apply andb_true_iff in H. destruct H as [H1 H2].
  apply Z.eqb_eq in H1. apply Z.leb_le in H2.
  pose proof (digits2_pos_bounds m) as [Hlo Hhi].
  set (d := Zpos (digits2_pos m)) in *.
  assert (Hd : d <= 53) by lia.
  assert (Hm : Zpos m < 2 ^ 53).
  { eapply Z.lt_le_trans; [exact Hhi|]. apply Z.pow_le_mono_r; lia. }
  repeat split; try lia.
  intros Hsub.
  destruct (Z.eq_dec d 53) as [Hd53|Hd53]; [|lia].
  exfalso. rewrite Hd53 in Hlo. simpl in Hlo. lia.
Qed.

Lemma shr_1_nonneg mrs : 0 <= shr_m mrs -> 0 <= shr_m (shr_1 mrs).
Proof.
  destruct mrs as [m r s]. cbn [shr_m]. intros H.
  destruct m as [|[p|p|]|p]; cbn [shr_1 shr_m]; lia.
Qed.

Lemma iter_shr_nonneg p : forall mrs,
  0 <= shr_m mrs -> 0 <= shr_m (SpecFloat.iter_pos shr_1 p mrs).
Proof.
  induction p as [p IH|p IH|]; intros mrs H; cbn [SpecFloat.iter_pos].
  - apply IH, IH, shr_1_nonneg, H.
  - apply IH, IH, H.
  - apply shr_1_nonneg, H.
Qed.

Lemma shr_fexp_nonneg m e l :
  0 <= m -> 0 <= shr_m (fst (shr_fexp 53 1024 m e l)).
Proof.
  intros H. unfold shr_fexp, shr.
  assert (H0 : 0 <= shr_m (shr_record_of_loc m l)).
  { destruct l as [|[]]; exact H. }
  destruct (fexp 53 1024 (Zdigits2 m + e) - e); cbn [fst]; auto using iter_shr_nonneg.
Qed.

Lemma round_nonneg m l : 0 <= m -> 0 <= round_nearest_even m l.
Proof.
  intros H. destruct l as [|[]]; cbn [round_nearest_even]; try lia.
  destruct (Z.even m); lia.
Qed.

(** Rounding a non-negative mantissa gives a zero, a finite Number or an
    infinity, with the sign it was given. *)
Lemma binary_round_aux_sign s m e l :
  0 <= m ->
  match binary_round_aux 53 1024 s m e l with
  | S754_zero s' | S754_infinity s' | S754_finite s' _ _ => s' = s
  | S754_nan => False
  end.
Proof.
  intros H. unfold binary_round_aux.
  pose proof (shr_fexp_nonneg m e l H) as H1.
  destruct (shr_fexp 53 1024 m e l) as [mrs' e'] eqn:E1. cbn [fst] in H1.
  pose proof (shr_fexp_nonneg _ e' loc_Exact
                (round_nonneg _ (loc_of_shr_record mrs') H1)) as H2.
  destruct (shr_fexp 53 1024 _ e' loc_Exact) as [mrs'' e''] eqn:E2. cbn [fst] in H2.
  destruct (shr_m mrs'') as [|p|p]; [reflexivity| |lia].
  destruct (e'' <=? 1024 - 53); reflexivity.
Qed.

Lemma binary_normalize_nonneg z e :
  0 <= z -> nonNegative (binary_normalize 53 1024 z e false).
Proof.
  intros H. destruct z as [|p|p]; [split; reflexivity| |lia].
  cbn [binary_normalize]. unfold binary_round.
  destruct (shl_align p e _) as [mz ez].
  pose proof (binary_round_aux_sign false (Zpos mz) ez loc_Exact ltac:(lia)) as Hs.
  destruct (binary_round_aux 53 1024 false (Zpos mz) ez loc_Exact) as [s|s| |s m' e'];
    [subst s; split; reflexivity .. | contradiction | subst s; split; reflexivity].
Qed.

Lemma shl_align_value m e ez :
  ez <= e -> Zpos (fst (shl_align m e ez)) = Zpos m * 2 ^ (e - ez).
Proof.
  intros H. unfold shl_align.
  destruct (ez - e) as [|d|d] eqn:Hd; cbn [fst].
  - replace (e - ez) with 0 by lia. lia.
  - lia.
  - rewrite iter_xO_value. f_equal. f_equal. lia.
Qed.

(** Among binary64 data, a larger exponent means a larger magnitude. *)
Lemma aligned_le m e m' e' :
  bounded 53 1024 m e = true -> bounded 53 1024 m' e' = true ->
  e' < e \/ (e' = e /\ Zpos m' <= Zpos m) ->
  Zpos m' * 2 ^ (e' - Z.min e e') <= Zpos m * 2 ^ (e - Z.min e e').
Proof.
  intros Hb Hb' H.
  apply bounded_binary64 in Hb as (He & Hsub & Hm).
  apply bounded_binary64 in Hb' as (He' & Hsub' & Hm').
  destruct H as [Hlt|[-> Hle]].
  - rewrite Z.min_r by lia. rewrite Z.sub_diag, Z.mul_1_r.
    assert (H52 : 2 ^ 52 <= Zpos m).
    { destruct (Z.lt_ge_cases (Zpos m) (2 ^ 52)) as [Hc|Hc]; [|exact Hc].
      specialize (Hsub Hc). lia. }
    assert (H2 : 2 ^ 1 <= 2 ^ (e - e')) by (apply Z.pow_le_mono_r; lia).
    change (2 ^ 1) with 2 in H2.
    change (2 ^ 53) with (2 ^ 52 * 2) in Hm'. nia.
  - rewrite Z.min_id, Z.sub_diag. lia.
Qed.

Lemma sub_nonNegative hi lo :
  isFiniteNumber hi = true -> isFiniteNumber lo = true ->
  Num.le lo hi = true -> nonNegative (Num.sub hi lo).
Proof.
  unfold isFiniteNumber. intros Hhi Hlo Hle.
  apply andb_true_iff in Hhi as [Vhi Fhi]. apply andb_true_iff in Hlo as [Vlo Flo].
  destruct hi as [sx|sx| |sx mx ex]; try discriminate;
    destruct lo as [sy|sy| |sy my ey]; try discriminate.
  - destruct sx, sy; split; reflexivity.
  - destruct sy; [split; reflexivity | discriminate Hle].
  - destruct sx; [discriminate Hle | split; reflexivity].
  - apply le_key in Hle; [|reflexivity|reflexivity].
    cbn [valid_binary] in Vhi, Vlo.
    unfold Num.sub, SFsub. apply binary_normalize_nonneg.
    rewrite !shl_align_value by lia.
    destruct sx, sy; cbn [key leK] in Hle; cbn [cond_Zopp].
    + pose proof (aligned_le my ey mx ex Vlo Vhi ltac:(lia)) as H.
      rewrite Z.min_comm in H. lia.
    + exfalso. lia.
    + pose proof (Z.pow_nonneg 2 (ex - Z.min ex ey) ltac:(lia)).
      pose proof (Z.pow_nonneg 2 (ey - Z.min ex ey) ltac:(lia)). nia.
    + pose proof (aligned_le mx ex my ey Vhi Vlo ltac:(lia)) as H. lia.
Qed.

Lemma extent_nonNegative xs :
  xs <> [] -> forallb isFiniteNumber xs = true ->
  nonNegative (Num.sub (fold_left Num.max xs Num.NegInfinity)
                       (fold_left Num.min xs Num.Infinity)).
Proof.
  intros Hne Hall.
  assert (Hfin : forall x, In x xs -> isFiniteNumber x = true).
  { intros x Hx. rewrite forallb_forall in Hall. apply Hall, Hx. }
  assert (Hn : hasNaN xs = false).
  { unfold hasNaN. apply not_true_is_false. intros H.
    apply existsb_exists in H as (x & Hx & Hnan).
    specialize (Hfin x Hx). destruct x; discriminate. }
  destruct (fold_max_isMaximum xs Hne Hn) as [Hin Hmax].
  destruct (fold_min_isMinimum xs Hne Hn) as [Hin' Hmin].
  apply sub_nonNegative; auto.
Qed.

(** The extents of a mesh with finite coordinates. *)
Lemma finite_extents :
  forall (verts : list vertex) (d : size),
    forallb finiteVertex verts = true ->
    getSize verts = Return d ->
    nonNegative (size_x d) /\ nonNegative (size_y d) /\ nonNegative (size_z d).
Proof.
  intros verts d Hall Hd.
  destruct verts as [|v vs]; [discriminate Hd|].
  set (verts := v :: vs) in *.
  assert (Hc : forall f : vertex -> number,
             (forall u, finiteVertex u = true -> isFiniteNumber (f u) = true) ->
             forallb isFiniteNumber (map f verts) = true).
  { intros f Hf. rewrite forallb_forall. intros x Hx.
    apply in_map_iff in Hx as (u & <- & Hu).
    rewrite forallb_forall in Hall. apply Hf, Hall, Hu. }
  assert (Hne : forall f : vertex -> number, map f verts <> []) by discriminate.
  unfold getSize in Hd. subst verts.
  rewrite fold_updateBounds in Hd.
  cbn [minX maxX minY maxY minZ maxZ initialBounds] in Hd.
  assert (Hf : forall u, finiteVertex u = true ->
               isFiniteNumber (vx u) = true /\ isFiniteNumber (vy u) = true /\
               isFiniteNumber (vz u) = true).
  { intros u Hu. unfold finiteVertex in Hu.
    apply andb_true_iff in Hu as [Hu Hz]. apply andb_true_iff in Hu as [Hx Hy]. auto. }
  pose proof (extent_nonNegative _ (Hne vx) (Hc vx (fun u Hu => proj1 (Hf u Hu)))) as Hx.
  pose proof (extent_nonNegative _ (Hne vy)
                (Hc vy (fun u Hu => proj1 (proj2 (Hf u Hu))))) as Hy.
  pose proof (extent_nonNegative _ (Hne vz)
                (Hc vz (fun u Hu => proj2 (proj2 (Hf u Hu))))) as Hz.
  match type of Hd with
  | Return (mkSize ?a ?b ?c _) = _ =>
      change a with (Num.sub (fold_left Num.max (map vx (v :: vs)) Num.NegInfinity)
                             (fold_left Num.min (map vx (v :: vs)) Num.Infinity)) in Hd;
      set (A := a) in *; set (B := b) in *; set (C := c) in *
  end.
  injection Hd as <-. cbn [size_x size_y size_z]. auto.
Qed.

End FloatFacts.

(** X2. The extents of a mesh whose coordinates are all finite Numbers are
    never negative and never NaN. *)
Theorem extents_are_nonNegative :
  forall (verts : list vertex) (d : size),
    forallb finiteVertex verts = true ->
    getSize verts = Return d ->
    nonNegative (size_x d) /\ nonNegative (size_y d) /\ nonNegative (size_z d).
Proof. exact FloatFacts.finite_extents. Qed.

Lemma extents_are_nonNegative_witness :
  let verts := [(lit "1", lit "-2.5", S754_zero true); (lit "-1", lit "5", S754_zero false)] in
  forallb finiteVertex verts = true /\
  exists d, getSize verts = Return d /\
    nonNegative (size_x d) /\ nonNegative (size_y d) /\ nonNegative (size_z d).
Proof.
  intros verts. split; [reflexivity|].
  eexists. split; [reflexivity|].
  exact (extents_are_nonNegative verts _ eq_refl eq_refl).
Defined.

(** ** Further properties of the decoders *)

Module BinaryReads.

Lemma getFloat32_in_range ab off :
  0 <= off -> off + 4 <= Z.of_nat (length ab) ->
  exists x, DataView.getFloat32 ab off = Return x.
Proof.
  intros H0 H1. unfold DataView.getFloat32, DataView.bytesAt.
  destruct (Z.leb_spec 0 off); [|lia].
  destruct (Z.leb_spec (off + Z.of_nat 4) (Z.of_nat (length ab))); [|lia].
  cbn [andb cbind]. eexists. reflexivity.
Qed.

Lemma readVertices_in_range ab j : forall off acc,
  0 <= off -> off + 12 * Z.of_nat j <= Z.of_nat (length ab) ->
  exists verts, readVertices ab j off acc = Return (off + 12 * Z.of_nat j, verts) /\
                length verts = (length acc + j)%nat.
Proof.
  induction j as [|j IH]; intros off acc H0 H1; cbn [readVertices].
  - exists acc. split; [f_equal; f_equal; lia | lia].
  - destruct (getFloat32_in_range ab off) as [x ->]; [lia|lia|].
    destruct (getFloat32_in_range ab (off + 4)) as [y ->]; [lia|lia|].
    destruct (getFloat32_in_range ab (off + 8)) as [z ->]; [lia|lia|].
    cbn [cbind].
    destruct (IH (off + 12) (acc ++ [(x, y, z)])) as (verts & E & L); [lia|lia|].
    exists verts. rewrite E. split; [f_equal; f_equal; lia|].
    rewrite L, length_app. simpl. lia.
Qed.

Lemma readTriangles_in_range ab n : forall off acc,
  0 <= off -> off + 50 * Z.of_nat n <= Z.of_nat (length ab) ->
  exists pts, readTriangles ab n off acc = Return pts /\
              length pts = (length acc + 3 * n)%nat.
Proof.
  induction n as [|n IH]; intros off acc H0 H1; cbn [readTriangles].
  - exists acc. split; [reflexivity|lia].
  - destruct (readVertices_in_range ab 3 (off + 12) acc) as (verts & E & L); [lia|lia|].
    rewrite E. cbn [cbind].
    destruct (IH (off + 12 + 12 * Z.of_nat 3 + 2) verts) as (pts & E' & L'); [lia|lia|].
    exists pts. split; [exact E'|lia].
Qed.

Lemma littleEndian_nonneg bs : 0 <= DataView.littleEndian bs.
Proof.
  induction bs as [|b bs IH]; cbn [DataView.littleEndian]; [lia|].
  unfold byteZ. lia.
Qed.

Lemma getUint32_nonneg ab off n : DataView.getUint32 ab off = Return n -> 0 <= n.
Proof.
  unfold DataView.getUint32. destruct (DataView.bytesAt ab off 4); [|discriminate].
  cbn [cbind]. intros H. injection H as <-. apply littleEndian_nonneg.
Qed.

End BinaryReads.

(** X3. Whatever bytes a buffer holds, when it passes the binary size
    check [readSTL] decodes it as binary: no read leaves the buffer, and
    the result has exactly three points per declared triangle.  The text
    of the buffer and the case mapping play no role. *)
Theorem binary_size_check_decodes :
  forall (toLowerCase : jsstring -> jsstring) (buf : list byte),
    sizeMatches buf ->
    exists count pts,
      DataView.getUint32 buf 80 = Return count /\ 0 < count /\
      readSTL toLowerCase buf = Return pts /\
      Z.of_nat (length pts) = 3 * count.
Proof.
  intros lower buf (Hlen & count & Hc & Hsz).
  pose proof (BinaryReads.getUint32_nonneg _ _ _ Hc) as H0.
  destruct (BinaryReads.readTriangles_in_range buf (Z.to_nat count) 84 [])
    as (pts & E & L); [lia|lia|].
  exists count, pts. split; [exact Hc|]. split; [lia|]. split.
  - unfold readSTL. destruct (Z.ltb_spec 84 (Z.of_nat (length buf))); [|lia].
    rewrite Hc. cbn [cbind]. rewrite Hsz, Z.eqb_refl. exact E.
  - rewrite L. simpl. lia.
Qed.

Lemma binary_size_check_decodes_witness :
  let buf := Utf8.bytes "solid facet vertex 1 2 3" ++ repeat "255"%byte 56
             ++ Synthetic.le32 1 ++ repeat "255"%byte 50 in
  sizeMatches buf /\
  exists count pts,
    DataView.getUint32 buf 80 = Return count /\ 0 < count /\
    readSTL Str.asciiLowerCase buf = Return pts /\
    Z.of_nat (length pts) = 3 * count.
Proof.
  intros buf.
  assert (H : sizeMatches buf).
  { split; [reflexivity|]. exists 1. split; reflexivity. }
  split; [exact H|]. exact (binary_size_check_decodes Str.asciiLowerCase buf H).
Defined.

(** ** Line ends *)

Module LineFacts.
Import Str Text StrFacts PrintTimeSpec PrintTimeFacts.

Lemma split_nonempty sep s : split sep s <> [].
Proof.
  destruct s as [|c s]; cbn [split]; [discriminate|].
  destruct (c =? sep)%N; [discriminate|]. destruct (split sep s); discriminate.
Qed.

Lemma split_app sep a b : split sep (a ++ sep :: b) = split sep a ++ split sep b.
Proof.
  induction a as [|c a IH]; cbn [app split].
  - rewrite N.eqb_refl. reflexivity.
  - destruct (c =? sep)%N.
    + rewrite IH. reflexivity.
    + rewrite IH. pose proof (split_nonempty sep a) as Hne.
      destruct (split sep a) as [|l ls]; [congruence|]. reflexivity.
Qed.

Lemma crLines_cons l ls : ls <> [] -> crLines (l :: ls) = (l ++ [13%N]) :: crLines ls.
Proof. destruct ls; [congruence|reflexivity]. Qed.

Lemma crLines_nonempty ls : ls <> [] -> crLines ls <> [].
Proof. destruct ls as [|l [|l' ls]]; [congruence|discriminate|discriminate]. Qed.

Lemma crLines_head c l ls : crLines ((c :: l) :: ls) =
  match crLines (l :: ls) with
  | l' :: ls' => (c :: l') :: ls'
  | [] => []
  end.
Proof. destruct ls; reflexivity. Qed.

(** The lines of a text with CRLF line ends are the lines of the text,
    each but the last followed by a carriage return. *)
Lemma split_crlf s : split 10 (crlf s) = crLines (split 10 s).
Proof.
  induction s as [|c s IH]; [reflexivity|].
  cbn [crlf split]. destruct (c =? 10)%N eqn:E.
  - cbn [split]. change (13 =? 10)%N with false. cbn iota.
    rewrite N.eqb_refl, IH.
    rewrite crLines_cons by apply split_nonempty. reflexivity.
  - cbn [split]. rewrite E, IH.
    pose proof (split_nonempty 10 s) as Hne.
    destruct (split 10 s) as [|l ls]; [congruence|].
    rewrite crLines_head.
    pose proof (crLines_nonempty (l :: ls) Hne) as Hc.
    destruct (crLines (l :: ls)); [congruence|reflexivity].
Qed.

Lemma trimStart_idem_trimEnd u :
  trimStart u = u -> trimStart (trimEnd u) = trimEnd u.
Proof.
  destruct u as [|c u]; [reflexivity|].
  unfold trimStart. cbn [dropWhile]. destruct (isWhiteSpace c) eqn:E.
  - intros H. exfalso.
    assert (L : (length (dropWhile isWhiteSpace u) <= length u)%nat).
    { clear. induction u as [|x u IH]; cbn; [lia|]. destruct (isWhiteSpace x); cbn; lia. }
    rewrite H in L. cbn in L. lia.
  - intros _. unfold trimEnd. cbn [rev].
    assert (D : forall l, dropWhile isWhiteSpace (l ++ [c]) = dropWhile isWhiteSpace l ++ [c]).
    { induction l as [|x l IHl]; cbn; [rewrite E; reflexivity|].
      destruct (isWhiteSpace x); [exact IHl|reflexivity]. }
    rewrite D, rev_app_distr. cbn. rewrite E. reflexivity.
Qed.

Lemma trimStart_idem s : trimStart (trimStart s) = trimStart s.
Proof.
  unfold trimStart. induction s as [|c s IH]; [reflexivity|]. cbn.
  destruct (isWhiteSpace c) eqn:E; [exact IH|]. cbn. rewrite E. reflexivity.
Qed.

Lemma trim_idem s : trim (trim s) = trim s.
Proof.
  unfold trim. rewrite trimStart_idem_trimEnd by apply trimStart_idem.
  apply trimEnd_idem.
Qed.

Lemma trim_app_ws s w : forallb isWhiteSpace w = true -> trim (s ++ w) = trim s.
Proof.
  intros H. unfold trim, trimStart.
  destruct (forallb isWhiteSpace s) eqn:Es.
  - rewrite dropWhile_all by (rewrite forallb_app, Es, H; reflexivity).
    rewrite dropWhile_all by exact Es. reflexivity.
  - assert (D : dropWhile isWhiteSpace (s ++ w) = dropWhile isWhiteSpace s ++ w).
    { induction s as [|c s IH]; [discriminate|]. cbn in Es |- *.
      destruct (isWhiteSpace c); [apply IH; exact Es|reflexivity]. }
    rewrite D. apply trimEnd_app_ws, H.
Qed.

Lemma forallb_trim (p : N -> bool) s : forallb p s = true -> forallb p (trim s) = true.
Proof.
  intros H. rewrite forallb_forall in *. intros c Hc. apply H, trim_In, Hc.
Qed.

(** What a line yields is a single line without white space around it. *)
Lemma valueOf_tidy t :
  trim (valueOf t) = valueOf t /\ forallb Regex.anyChar (valueOf t) = true.
Proof.
  unfold valueOf. split; [apply trim_idem|]. apply forallb_trim, takeWhile_all.
Qed.

Lemma firstValue_tidy lines :
  trim (firstValue lines) = firstValue lines /\
  forallb Regex.anyChar (firstValue lines) = true.
Proof.
  induction lines as [|l ls IH]; cbn [firstValue].
  - split; reflexivity.
  - unfold lineValue. destruct (valueText l) as [t|]; [|exact IH].
    destruct (existsb Regex.anyChar t); [apply valueOf_tidy|exact IH].
Qed.

(** A carriage return at the end of a line is invisible to the marker,
    to the "=" and to the value. *)
Lemma startsWith_cr l : forall p,
  ~ In 13%N p -> startsWith (l ++ [13%N]) p = startsWith l p.
Proof.
  induction l as [|b l IH]; intros p Hp; destruct p as [|a p]; try reflexivity.
  - cbn. destruct (a =? 13)%N eqn:E; [|reflexivity].
    apply N.eqb_eq in E. subst a. exfalso. apply Hp. left. reflexivity.
  - cbn. rewrite IH; [reflexivity|]. intros H. apply Hp. right. exact H.
Qed.

Lemma afterMarker_cr l :
  afterMarker (l ++ [13%N]) = option_map (fun r => r ++ [13%N]) (afterMarker l).
Proof.
  assert (Hm : ~ In 13%N printTimeMarker).
  { intros H. vm_compute in H. repeat (destruct H as [H|H]; [discriminate H|]). exact H. }
  induction l as [|c l IH].
  - reflexivity.
  - cbn [app afterMarker].
    change (c :: l ++ [13%N]) with ((c :: l) ++ [13%N]).
    rewrite (startsWith_cr (c :: l) _ Hm).
    destruct (startsWith (c :: l) printTimeMarker) eqn:E; [|exact IH].
    cbn [option_map]. f_equal.
    apply startsWith_length in E. rewrite skipn_app.
    replace (length printTimeMarker - length (c :: l))%nat with 0%nat by lia.
    reflexivity.
Qed.

Lemma afterChar_cr r :
  afterChar 61 (r ++ [13%N]) = option_map (fun t => t ++ [13%N]) (afterChar 61 r).
Proof.
  induction r as [|x r IH]; [reflexivity|]. cbn [app afterChar].
  destruct (x =? 61)%N; [reflexivity|exact IH].
Qed.

Lemma valueOf_cr t : valueOf (t ++ [13%N]) = valueOf t.
Proof.
  unfold valueOf. f_equal.
  induction t as [|c t IH]; [reflexivity|]. cbn [app dropWhile].
  destruct (isWhiteSpace c) eqn:E; [exact IH|].
  change (c :: t ++ [13%N]) with ((c :: t) ++ [13%N]).
  generalize (c :: t). clear. intros u.
  induction u as [|x u IH]; [reflexivity|]. cbn [app takeWhile].
  destruct (Regex.anyChar x); [f_equal; exact IH|reflexivity].
Qed.

Lemma lineValue_cr l : lineValue (l ++ [13%N]) = lineValue l.
Proof.
  unfold lineValue, valueText. rewrite afterMarker_cr.
  destruct (afterMarker l) as [r|]; [|reflexivity]. cbn [option_map].
  rewrite afterChar_cr. destruct (afterChar 61 r) as [t|]; [|reflexivity].
  cbn [option_map]. rewrite existsb_app. cbn [existsb].
  change (Regex.anyChar 13) with false. rewrite !orb_false_r.
  rewrite valueOf_cr. reflexivity.
Qed.

Lemma firstValue_crLines lines : firstValue (crLines lines) = firstValue lines.
Proof.
  induction lines as [|l ls IH]; [reflexivity|].
  destruct ls as [|l' ls]; [reflexivity|].
  rewrite crLines_cons by discriminate. cbn [firstValue] in *.
  rewrite lineValue_cr. destruct (lineValue l); [reflexivity|exact IH].
Qed.

Lemma asciiLineVertices_cr lower l :
  asciiLineVertices lower (l ++ [13%N]) = asciiLineVertices lower l.
Proof. unfold asciiLineVertices. rewrite trim_app_ws by reflexivity. reflexivity. Qed.

Lemma objLineVertices_cr l : objLineVertices (l ++ [13%N]) = objLineVertices l.
Proof. unfold objLineVertices. rewrite trim_app_ws by reflexivity. reflexivity. Qed.

Lemma flat_map_crLines {A} (f : jsstring -> list A) lines :
  (forall l, f (l ++ [13%N]) = f l) ->
  flat_map f (crLines lines) = flat_map f lines.
Proof.
  intros Hf. induction lines as [|l ls IH]; [reflexivity|].
  destruct ls as [|l' ls]; [reflexivity|].
  rewrite crLines_cons by discriminate. cbn [flat_map] in *. rewrite Hf, IH. reflexivity.
Qed.

End LineFacts.

(** X4. The print time that [parsePrintTime] returns is tidy: it holds no
    line terminator and no white space at either end. *)
Theorem parsePrintTime_tidy :
  forall text : jsstring,
    Str.trim (parsePrintTime text) = parsePrintTime text /\
    forallb Regex.anyChar (parsePrintTime text) = true.
Proof.
  intros text. unfold parsePrintTime.
  rewrite PrintTimeFacts.scanPrintTime_firstValue. apply LineFacts.firstValue_tidy.
Qed.

(** X5. Windows line ends do not change the print time: putting a carriage
    return before every line feed of the G-code leaves the result of
    [parsePrintTime] as it is. *)
Theorem parsePrintTime_crlf :
  forall text : jsstring, parsePrintTime (Text.crlf text) = parsePrintTime text.
Proof.
  intros text. unfold parsePrintTime.
  rewrite !PrintTimeFacts.scanPrintTime_firstValue, LineFacts.split_crlf.
  apply LineFacts.firstValue_crLines.
Qed.

(** X6. Windows line ends do not change the vertices read from an ASCII
    STL text, whatever the case mapping. *)
Theorem readASCIISTL_crlf :
  forall (toLowerCase : jsstring -> jsstring) (txt : jsstring),
    readASCIISTL toLowerCase (Text.crlf txt) = readASCIISTL toLowerCase txt.
Proof.
  intros lower txt. unfold readASCIISTL. rewrite LineFacts.split_crlf.
  apply LineFacts.flat_map_crLines. intros l. apply LineFacts.asciiLineVertices_cr.
Qed.

(** X7. [readASCIISTL] reads line by line and keeps the order of the
    lines: the vertices of two texts joined by a line feed are those of
    the first text followed by those of the second. *)
Theorem readASCIISTL_app :
  forall (toLowerCase : jsstring -> jsstring) (a b : jsstring),
    readASCIISTL toLowerCase (a ++ 10%N :: b) =
    readASCIISTL toLowerCase a ++ readASCIISTL toLowerCase b.
Proof.
  intros lower a b. unfold readASCIISTL.
  rewrite LineFacts.split_app. apply flat_map_app.
Qed.

(** ** Materials and the command line *)

Module MaterialFacts.

Lemma eqb_eq a b : Str.eqb a b = true <-> a = b.
Proof. unfold Str.eqb. destruct (decide (a = b)); split; congruence. Qed.

Lemma ownProperty_None key table :
  ~ In key (map (fun kp => js (fst kp)) table) -> ownProperty key table = None.
Proof.
  induction table as [|[k p] table IH]; [reflexivity|]. cbn [map fst In ownProperty].
  intros H. destruct (Str.eqb key (js k)) eqn:E.
  - apply eqb_eq in E. exfalso. apply H. left. symmetry. exact E.
  - apply IH. intros Hin. apply H. right. exact Hin.
Qed.

Lemma inherited_existsb key :
  existsb (fun k => Str.eqb key (js k)) objectPrototypeKeys = true <-> In key inheritedKeys.
Proof.
  unfold inheritedKeys. rewrite existsb_exists, in_map_iff. split.
  - intros (k & Hk & E). apply eqb_eq in E. exists k. split; [symmetry; exact E|exact Hk].
  - intros (k & E & Hk). exists k. split; [exact Hk|]. apply eqb_eq. symmetry. exact E.
Qed.

Lemma inherited_not_own key : In key inheritedKeys -> ownProperty key settings = None.
Proof.
  unfold inheritedKeys, objectPrototypeKeys. cbn [map]. intros H.
  repeat (destruct H as [<-|H]; [vm_compute; reflexivity|]). destruct H.
Qed.

Lemma getMaterialSettings_inherited key :
  In key inheritedKeys -> getMaterialSettings key = InheritedMember.
Proof.
  intros H. unfold getMaterialSettings. rewrite (inherited_not_own key H).
  apply inherited_existsb in H. rewrite H. reflexivity.
Qed.

Lemma getMaterialSettings_profile key :
  ~ In key inheritedKeys -> exists p, getMaterialSettings key = Profile p.
Proof.
  intros H. unfold getMaterialSettings.
  destruct (ownProperty key settings) as [p|]; [eauto|].
  destruct (existsb _ objectPrototypeKeys) eqn:E; [|eauto].
  apply inherited_existsb in E. contradiction.
Qed.

Lemma getMaterialSettings_default key :
  ~ In key ownKeys -> ~ In key inheritedKeys ->
  getMaterialSettings key = Profile defaultProfile.
Proof.
  intros Ho Hi. unfold getMaterialSettings.
  rewrite (ownProperty_None key settings Ho).
  destruct (existsb _ objectPrototypeKeys) eqn:E; [|reflexivity].
  apply inherited_existsb in E. contradiction.
Qed.

Lemma spliceInsert_length {A} (start : Z) (x : A) l :
  length (spliceInsert start x l) = S (length l).
Proof.
  unfold spliceInsert. rewrite length_app. cbn [length].
  rewrite <- Nat.add_succ_comm. cbn [Nat.add].
  rewrite <- length_app, firstn_skipn. reflexivity.
Qed.

End MaterialFacts.

(** X8. A material that is neither a key of the settings table nor a
    member inherited from [Object.prototype] is sliced as PLA: it gets
    the PLA profile, and with a material type given its command line is
    the one of a PLA request with that material type. *)
Theorem unknown_material_is_PLA :
  forall (cfg : config) (inputFilePath outputFilePath : jsstring),
    ~ In (material cfg) ownKeys -> ~ In (material cfg) inheritedKeys ->
    getMaterialSettings (material cfg) = getMaterialSettings (js "PLA") /\
    (materialType cfg <> [] ->
     generatePrusaCommand cfg inputFilePath outputFilePath =
     generatePrusaCommand
       (mkConfig (js "PLA") (materialType cfg) (nozzleSize cfg) (fillDensity cfg)
                 (supportMaterial cfg))
       inputFilePath outputFilePath).
Proof.
  intros cfg inp out Ho Hi.
  pose proof (MaterialFacts.getMaterialSettings_default _ Ho Hi) as Hd.
  assert (Hp : getMaterialSettings (js "PLA") = Profile defaultProfile) by reflexivity.
  split; [rewrite Hd, Hp; reflexivity|].
  intros Hmt. unfold generatePrusaCommand.
  cbn [material materialType nozzleSize fillDensity supportMaterial].
  rewrite Hd, Hp.
  destruct (materialType cfg) as [|c t] eqn:Et; [congruence|].
  reflexivity.
Qed.

Lemma unknown_material_is_PLA_witness :
  let cfg := mkConfig (js "Resin") (js "Standard") (lit "0.4") (lit "20") false in
  ~ In (material cfg) ownKeys /\ ~ In (material cfg) inheritedKeys /\
  getMaterialSettings (material cfg) = getMaterialSettings (js "PLA") /\
  (materialType cfg <> [] ->
   generatePrusaCommand cfg (js "in.stl") (js "out.gcode") =
   generatePrusaCommand
     (mkConfig (js "PLA") (materialType cfg) (nozzleSize cfg) (fillDensity cfg)
               (supportMaterial cfg))
     (js "in.stl") (js "out.gcode")).
Proof.
  intros cfg.
  assert (Ho : ~ In (material cfg) ownKeys).
  { intros H. vm_compute in H. repeat (destruct H as [H|H]; [discriminate H|]). exact H. }
  assert (Hi : ~ In (material cfg) inheritedKeys).
  { intros H. vm_compute in H. repeat (destruct H as [H|H]; [discriminate H|]). exact H. }
  split; [exact Ho|]. split; [exact Hi|].
  exact (unknown_material_is_PLA cfg (js "in.stl") (js "out.gcode") Ho Hi).
Defined.

(** X9. [generatePrusaCommand] throws exactly for the materials named like
    a member that the settings table inherits from [Object.prototype]
    ("constructor", "toString", ...); for every other material it returns
    24 arguments, 25 with support material. *)
Theorem generatePrusaCommand_throws_iff_inherited :
  forall (cfg : config) (inputFilePath outputFilePath : jsstring),
    (In (material cfg) inheritedKeys ->
     generatePrusaCommand cfg inputFilePath outputFilePath =
     Throw (TypeError "Cannot read properties of undefined (reading 'toString')")) /\
    (~ In (material cfg) inheritedKeys ->
     exists args,
       generatePrusaCommand cfg inputFilePath outputFilePath = Return args /\
       length args = if supportMaterial cfg then 25%nat else 24%nat).
Proof.
  intros cfg inp out. split; intros H; unfold generatePrusaCommand.
  - rewrite (MaterialFacts.getMaterialSettings_inherited _ H). reflexivity.
  - destruct (MaterialFacts.getMaterialSettings_profile _ H) as [p ->].
    eexists. split; [reflexivity|].
    destruct (supportMaterial cfg); [|reflexivity].
    rewrite MaterialFacts.spliceInsert_length. reflexivity.
Qed.

Lemma generatePrusaCommand_throws_iff_inherited_witness :
  In (js "constructor") inheritedKeys /\
  generatePrusaCommand (mkConfig (js "constructor") (js "PLA") (lit "0.4") (lit "20") false)
                       (js "in.stl") (js "out.gcode") =
  Throw (TypeError "Cannot read properties of undefined (reading 'toString')").
Proof.
  assert (H : In (js "constructor") inheritedKeys) by (left; reflexivity).
  split; [exact H|].
  exact (proj1 (generatePrusaCommand_throws_iff_inherited
                  (mkConfig (js "constructor") (js "PLA") (lit "0.4") (lit "20") false)
                  (js "in.stl") (js "out.gcode")) H).
Defined.

(** ** Temp files and other files *)

Module FrameFacts.

Lemma ret_leaves {A} p (a : A) : leaves p (ret a).
Proof. intros w. reflexivity. Qed.

Lemma throw_leaves {A} p ex : leaves p (@throw A ex).
Proof. intros w. reflexivity. Qed.

Lemma bind_leaves {A B} p (c : M A) (k : A -> M B) :
  leaves p c -> (forall a, leaves p (k a)) -> leaves p (bind c k).
Proof.
  intros Hc Hk w. unfold bind. specialize (Hc w).
  destruct (c w) as [[a|ex] w']; cbn [snd] in *; [|exact Hc].
  rewrite (Hk a w'). exact Hc.
Qed.

Lemma tryCatch_leaves {A} p (c : M A) (h : exn -> M A) :
  leaves p c -> (forall ex, leaves p (h ex)) -> leaves p (tryCatch c h).
Proof.
  intros Hc Hh w. unfold tryCatch. specialize (Hc w).
  destruct (c w) as [[a|ex] w']; cbn [snd] in *; [exact Hc|].
  rewrite (Hh ex w'). exact Hc.
Qed.

Lemma liftC_leaves {A} p (c : completion A) : leaves p (liftC c).
Proof. intros w. reflexivity. Qed.

Lemma existsSync_leaves p q : leaves p (Fs.existsSync q).
Proof. intros w. reflexivity. Qed.

Lemma consoleWrite_leaves p entry : leaves p (consoleWrite entry).
Proof. intros w. reflexivity. Qed.

Lemma unlinkSync_leaves p q : p <> q -> leaves p (Fs.unlinkSync q).
Proof.
  intros H w. unfold Fs.unlinkSync.
  destruct (files (fs w) !! q); [|reflexivity].
  destruct (bool_decide (q ∈ locked (fs w))); [reflexivity|].
  cbn [snd fs files]. apply lookup_delete_ne. congruence.
Qed.

Lemma cleanup_leaves inp out p : p <> inp -> p <> out -> leaves p (cleanup inp out).
Proof.
  intros Hi Ho. unfold cleanup.
  apply tryCatch_leaves; [|intros ex; apply consoleWrite_leaves].
  apply bind_leaves; [apply existsSync_leaves|]. intros b1.
  apply bind_leaves.
  { destruct b1; [apply unlinkSync_leaves, Hi|apply ret_leaves]. }
  intros _. apply bind_leaves; [apply existsSync_leaves|]. intros b2.
  destruct b2; [apply unlinkSync_leaves, Ho|apply ret_leaves].
Qed.

Lemma catchBlock_leaves inp out err p :
  p <> inp -> p <> out -> leaves p (catchBlock inp out err).
Proof.
  intros Hi Ho. unfold catchBlock.
  apply bind_leaves; [apply cleanup_leaves; assumption|]. intros _.
  apply bind_leaves; [apply consoleWrite_leaves|]. intros _. apply ret_leaves.
Qed.

Lemma staged_frame inp p data w :
  p <> inp -> files (fs (staged w inp data)) !! p = files (fs w) !! p.
Proof. intros H. unfold staged. cbn [fs files]. apply lookup_insert_ne. congruence. Qed.

End FrameFacts.

(** X10. When neither temp file is locked and the slicer changes no lock,
    no exit path of the handler leaves a temp file behind: after the
    request neither the temp input file nor the temp output file
    exists, whatever the slicer did and whatever was answered. *)
Theorem temp_files_never_left :
  forall (e : env) (up : uploaded) (rq : request) (now1 now2 : number) (w : world),
    tempInputPath e up now1 ∉ locked (fs w) ->
    tempOutputPath e now2 ∉ locked (fs w) ->
    keepsLocks e ->
    let w' := snd (submitStaged e up rq now1 now2 w) in
    files (fs w') !! tempInputPath e up now1 = None /\
    files (fs w') !! tempOutputPath e now2 = None.
Proof.
  intros e up rq now1 now2 w Hi Ho Hl.
  exact (CleanupFacts.temp_files_removed e up rq now1 now2 w Hi Ho Hl).
Qed.

Lemma temp_files_never_left_witness :
  let e := Scenario.warningEnvironment in
  let up := Scenario.upload in
  let w := Scenario.emptyWorld in
  let w' := snd (submitStaged e up Scenario.body Scenario.now Scenario.now w) in
  files (fs w') !! tempInputPath e up Scenario.now = None /\
  files (fs w') !! tempOutputPath e Scenario.now = None.
Proof.
  intros e up w.
  assert (Hl : keepsLocks e).
  { intros prog args fsys. unfold e, Scenario.warningEnvironment, Scenario.warningSlicer.
    cbn [execFileAsync]. destruct (Scenario.outputArgument args); reflexivity. }
  exact (temp_files_never_left e up Scenario.body Scenario.now Scenario.now w
           (not_elem_of_empty _) (not_elem_of_empty _) Hl).
Defined.

(** X11. The handler touches no file but its two temp files: a path other
    than these that the slicer leaves alone holds after the request what
    it held before, on every exit path. *)
Theorem other_files_untouched :
  forall (e : env) (up : uploaded) (rq : request) (now1 now2 : number) (w : world)
         (path : jsstring),
    path <> tempInputPath e up now1 ->
    path <> tempOutputPath e now2 ->
    preserves e path ->
    files (fs (snd (submitStaged e up rq now1 now2 w))) !! path = files (fs w) !! path.
Proof.
  intros e up rq now1 now2 w p Hi Ho Hp.
  unfold submitStaged, tryCatch.
  set (inp := tempInputPath e up now1) in *. set (out := tempOutputPath e now2) in *.
  rewrite HandlerFacts.tryBlock_eq.
  pose proof (FrameFacts.staged_frame inp p (buffer up) w Hi) as Hs.
  pose proof (fun err => FrameFacts.catchBlock_leaves inp out err p Hi Ho) as Hc.
  destruct (denied (fs w) !! inp) as [[err residue]|].
  { rewrite (Hc err (writeFailed w inp residue)).
    destruct residue as [part|]; [|reflexivity].
    exact (FrameFacts.staged_frame inp p part w Hi). }
  destruct (generatePrusaCommand (configOf rq) inp out) as [args|ex].
  - rewrite HandlerFacts.sliceAndRespond_eq.
    pose proof (Hp (PRUSA_SLICER_PATH e) args (fs (staged w inp (buffer up)))) as He.
    destruct (execFileAsync e (PRUSA_SLICER_PATH e) args (fs (staged w inp (buffer up))))
      as [outcome fs1].
    cbn [snd] in He. cbn zeta.
    set (w1 := mkWorld fs1 (console (staged w inp (buffer up)))).
    assert (H1 : files (fs w1) !! p = files (fs w) !! p) by (unfold w1; cbn [fs]; rewrite He; exact Hs).
    destruct (files fs1 !! out) as [data|] eqn:Eout.
    + assert (Hb : leaves p (let! _ := Fs.unlinkSync inp in
                             let! _ := Fs.unlinkSync out in
                             let! current := liftC (currentUpload e up) in
                             let! _ := consoleWrite (LogSuccess (parsePrintTime (Utf8.toString data))) in
                             ret (Status200 (processed current rq (parsePrintTime (Utf8.toString data)))))).
      { apply FrameFacts.bind_leaves; [apply FrameFacts.unlinkSync_leaves, Hi|]. intros _.
        apply FrameFacts.bind_leaves; [apply FrameFacts.unlinkSync_leaves, Ho|]. intros _.
        apply FrameFacts.bind_leaves; [apply FrameFacts.liftC_leaves|]. intros current.
        apply FrameFacts.bind_leaves; [apply FrameFacts.consoleWrite_leaves|]. intros _.
        apply FrameFacts.ret_leaves. }
      specialize (Hb w1).
      destruct ((let! _ := Fs.unlinkSync inp in _) w1) as [[r|ex] w2]; cbn [snd] in Hb.
      * cbn [snd]. congruence.
      * rewrite (Hc ex w2). congruence.
    + rewrite (Hc missingOutput w1). exact H1.
  - rewrite (Hc ex (staged w inp (buffer up))). exact Hs.
Qed.

Lemma other_files_untouched_witness :
  let e := mkEnv (js "/tmp") 47 (js "/usr/bin/prusa-slicer")
                 (fun _ _ fsys => (Rejected (Some 1) false [] [], fsys)) Some in
  let w := mkWorld (mkFs {[ js "/tmp/keep.txt" := Utf8.bytes "keep" ]} ∅ ∅) [] in
  files (fs (snd (submitStaged e Scenario.upload Scenario.body Scenario.now Scenario.now w)))
    !! js "/tmp/keep.txt" = files (fs w) !! js "/tmp/keep.txt".
Proof.
  intros e w.
  assert (Hi : js "/tmp/keep.txt" <> tempInputPath e Scenario.upload Scenario.now).
  { unfold tempInputPath, pathJoin. cbn [tmpdir sep e]. intros H.
    apply (f_equal (fun s => nth 5 s 0%N)) in H. vm_compute in H. discriminate H. }
  assert (Ho : js "/tmp/keep.txt" <> tempOutputPath e Scenario.now).
  { unfold tempOutputPath, pathJoin. cbn [tmpdir sep e]. intros H.
    apply (f_equal (fun s => nth 5 s 0%N)) in H. vm_compute in H. discriminate H. }
  assert (Hp : preserves e (js "/tmp/keep.txt")).
  { intros prog args fsys. reflexivity. }
  exact (other_files_untouched e Scenario.upload Scenario.body Scenario.now Scenario.now w
           _ Hi Ho Hp).
Defined.

(** ** The two handlers *)

Module ServerFacts.

(** After staging no exception leaves the handler. *)
Lemma submitStaged_returns e up rq now1 now2 w :
  exists r, fst (submitStaged e up rq now1 now2 w) = Return r.
Proof.
  unfold submitStaged, tryCatch.
  destruct (tryBlock e up rq _ _ w) as [[r|ex] w']; [eauto|].
  rewrite HandlerFacts.catchBlock_response. eauto.
Qed.

Lemma postDimensions_cases lower file s :
  (exists msg, postDimensions lower file s = (Rejected400 msg, s)) \/
  (exists f kind err,
      file = Some f /\ meshExtensionOf (extensionOf lower (originalname f)) = Some kind /\
      fileBuffer f <> [] /\
      dimensions lower kind (fileBuffer f) = Throw err /\
      postDimensions lower file s =
      (Failed500 err,
       note (NoticeReadError err)
            (note (NoticeGot (extensionOf lower (originalname f)) (originalname f)
                             (length (fileBuffer f))) s))) \/
  (exists f kind sz,
      file = Some f /\ meshExtensionOf (extensionOf lower (originalname f)) = Some kind /\
      fileBuffer f <> [] /\
      dimensions lower kind (fileBuffer f) = Return sz /\
      postDimensions lower file s =
      (Dimensions sz,
       mkServer (Some (mkUploaded (fileBuffer f) (originalname f)
                                  (extensionOf lower (originalname f))))
                (timers s ++ [originalname f])
                (journal s ++ [NoticeGot (extensionOf lower (originalname f)) (originalname f)
                                         (length (fileBuffer f)); NoticeDone sz])
                (host s))).
Proof.
  destruct file as [f|]; [|left; eexists; reflexivity].
  unfold postDimensions.
  destruct (meshExtensionOf (extensionOf lower (originalname f))) as [kind|] eqn:Ek;
    [|left; eexists; reflexivity].
  destruct (fileBuffer f) as [|b bs] eqn:Eb; [left; eexists; reflexivity|].
  rewrite <- Eb.
  destruct (dimensions lower kind (fileBuffer f)) as [sz|err] eqn:Ed.
  - right. right. exists f, kind, sz. rewrite Ek, Ed, Eb.
    repeat split; try congruence.
    cbn [note timers journal host uploadedFile]. rewrite <- app_assoc. reflexivity.
  - right. left. exists f, kind, err. rewrite Ek, Ed, Eb. repeat split; congruence.
Qed.

Lemma dimensions_vertexCount lower kind file sz :
  dimensions lower kind file = Return sz -> (0 < vertexCount sz)%nat.
Proof.
  unfold dimensions. destruct (decodeMesh lower kind file) as [verts|]; [|discriminate].
  cbn [cbind]. destruct verts as [|v vs]; [discriminate|].
  unfold getSize. intros H. injection H as <-. cbn [vertexCount length]. lia.
Qed.

Lemma meshExtensionOf_Some ext kind :
  meshExtensionOf ext = Some kind -> ext = js "stl" \/ ext = js "obj".
Proof.
  unfold meshExtensionOf.
  destruct (Str.eqb ext (js "stl")) eqn:E1.
  { apply MaterialFacts.eqb_eq in E1. auto. }
  destruct (Str.eqb ext (js "obj")) eqn:E2; [|discriminate].
  apply MaterialFacts.eqb_eq in E2. auto.
Qed.

Lemma last_split_no_sep sep s :
  ~ In sep s -> Str.split sep s = [s].
Proof.
  induction s as [|c s IH]; [reflexivity|]. intros H. cbn [Str.split].
  destruct (N.eqb_spec c sep) as [->|Hc].
  - exfalso. apply H. left. reflexivity.
  - rewrite IH; [reflexivity|]. intros Hin. apply H. right. exact Hin.
Qed.

End ServerFacts.

(** X12. The extension of an upload is the lower-cased text after the last
    dot of its name; a name without a dot is its own extension. *)
Theorem extension_is_last_segment :
  forall (toLowerCase : jsstring -> jsstring) (base ext : jsstring),
    ~ In 46%N ext ->
    extensionOf toLowerCase (base ++ 46%N :: ext) = toLowerCase ext /\
    extensionOf toLowerCase ext = toLowerCase ext.
Proof.
  intros lower base ext H. unfold extensionOf.
  rewrite LineFacts.split_app, (ServerFacts.last_split_no_sep 46 ext H).
  split; [|reflexivity]. rewrite last_last. reflexivity.
Qed.

Lemma extension_is_last_segment_witness :
  ~ In 46%N (js "STL") /\
  extensionOf Str.asciiLowerCase (js "part.v2" ++ 46%N :: js "STL") = js "stl" /\
  extensionOf Str.asciiLowerCase (js "STL") = js "stl".
Proof.
  assert (H : ~ In 46%N (js "STL")).
  { intros H. vm_compute in H. repeat (destruct H as [H|H]; [discriminate H|]). exact H. }
  split; [exact H|].
  exact (extension_is_last_segment Str.asciiLowerCase (js "part.v2") (js "STL") H).
Defined.

(** X13. An upload that is not answered with dimensions changes nothing
    that is retained: the file kept from an earlier upload and the
    pending timers stay as they were.  An upload answered with
    dimensions has at least one vertex and an extension "stl" or "obj";
    it replaces the retained file by its own bytes, name and extension
    and registers one more timer. *)
Theorem upload_retained_only_on_success :
  forall (toLowerCase : jsstring -> jsstring) (file : option multerFile) (s : server),
    let r := postDimensions toLowerCase file s in
    host (snd r) = host s /\
    match fst r with
    | Dimensions sz =>
        exists f,
          file = Some f /\ (0 < vertexCount sz)%nat /\
          (extensionOf toLowerCase (originalname f) = js "stl" \/
           extensionOf toLowerCase (originalname f) = js "obj") /\
          uploadedFile (snd r) =
            Some (mkUploaded (fileBuffer f) (originalname f)
                             (extensionOf toLowerCase (originalname f))) /\
          timers (snd r) = timers s ++ [originalname f]
    | _ => uploadedFile (snd r) = uploadedFile s /\ timers (snd r) = timers s
    end.
Proof.
  intros lower file s r. subst r.
  destruct (ServerFacts.postDimensions_cases lower file s)
    as [(msg & ->)|[(f & kind & err & -> & Hk & Hb & Hd & ->)
                   |(f & kind & sz & -> & Hk & Hb & Hd & ->)]];
    cbn [fst snd host uploadedFile timers note]; split; auto.
  exists f. repeat split; auto.
  - eapply ServerFacts.dimensions_vertexCount; eauto.
  - eapply ServerFacts.meshExtensionOf_Some; eauto.
Qed.

(** X14. All timers run 30 minutes, so the timer of an upload fires before
    the timer of a later one.  When a file is uploaded and then another,
    the first timer clears the retained file exactly when both uploads
    carry the same name: a second upload under the same name is dropped
    by the timer of the first while its own timer is still pending; under
    another name it is kept. *)
Theorem first_timer_clears_same_name :
  forall (toLowerCase : jsstring -> jsstring) (f1 f2 : multerFile) (s s1 s2 : server)
         (sz1 sz2 : size),
    timers s = [] ->
    postDimensions toLowerCase (Some f1) s = (Dimensions sz1, s1) ->
    postDimensions toLowerCase (Some f2) s1 = (Dimensions sz2, s2) ->
    timers (expire s2) = [originalname f2] /\
    (originalname f1 = originalname f2 -> uploadedFile (expire s2) = None) /\
    (originalname f1 <> originalname f2 -> uploadedFile (expire s2) = uploadedFile s2) /\
    uploadedFile s2 =
      Some (mkUploaded (fileBuffer f2) (originalname f2)
                       (extensionOf toLowerCase (originalname f2))).
Proof.
  intros lower f1 f2 s s1 s2 sz1 sz2 Ht H1 H2.
  destruct (ServerFacts.postDimensions_cases lower (Some f1) s)
    as [(msg & E)|[(f & kind & err & _ & _ & _ & _ & E)
                  |(f & kind & sz & Ef & _ & _ & _ & E)]];
    rewrite E in H1; try discriminate H1.
  injection Ef as <-. injection H1 as _ <-.
  destruct (ServerFacts.postDimensions_cases lower (Some f2) (mkServer
      (Some (mkUploaded (fileBuffer f1) (originalname f1) (extensionOf lower (originalname f1))))
      (timers s ++ [originalname f1])
      (journal s ++ [NoticeGot (extensionOf lower (originalname f1)) (originalname f1)
                               (length (fileBuffer f1)); NoticeDone sz])
      (host s)))
    as [(msg & E2)|[(f & kind' & err & _ & _ & _ & _ & E2)
                   |(f & kind' & sz' & Ef & _ & _ & _ & E2)]];
    rewrite E2 in H2; try discriminate H2.
  injection Ef as <-. injection H2 as _ <-.
  rewrite Ht. cbn [app timers uploadedFile journal host].
  unfold expire. cbn [timers uploadedFile journal host].
  unfold autoClear. cbn [uploadedFile filename].
  destruct (Str.eqb (originalname f2) (originalname f1)) eqn:Eq.
  - apply MaterialFacts.eqb_eq in Eq.
    unfold clearUploadedFile, note. cbn [uploadedFile timers journal host].
    repeat split; auto. intros Hne. congruence.
  - cbn [uploadedFile timers]. repeat split; auto.
    intros Heq. exfalso. rewrite Heq in Eq.
    assert (Str.eqb (originalname f2) (originalname f2) = true) by (apply MaterialFacts.eqb_eq; reflexivity).
    congruence.
Qed.

Lemma first_timer_clears_same_name_witness :
  let f := mkFile (js "part.obj") (Utf8.bytes "v 1 2 3") in
  let s := mkServer None [] [] Scenario.emptyWorld in
  let s1 := snd (postDimensions Str.asciiLowerCase (Some f) s) in
  let s2 := snd (postDimensions Str.asciiLowerCase (Some f) s1) in
  timers s = [] /\
  uploadedFile s2 = Some (mkUploaded (Utf8.bytes "v 1 2 3") (js "part.obj") (js "obj")) /\
  timers (expire s2) = [js "part.obj"] /\
  uploadedFile (expire s2) = None.
Proof.
  intros f s s1 s2.
  pose (sz := mkSize (S754_zero false) (S754_zero false) (S754_zero false) 1).
  assert (H1 : postDimensions Str.asciiLowerCase (Some f) s = (Dimensions sz, s1))
    by reflexivity.
  assert (H2 : postDimensions Str.asciiLowerCase (Some f) s1 = (Dimensions sz, s2))
    by reflexivity.
  destruct (first_timer_clears_same_name Str.asciiLowerCase f f s s1 s2 sz sz eq_refl H1 H2)
    as (Ht & Hsame & _ & Hup).
  split; [reflexivity|]. split; [exact Hup|]. split; [exact Ht|].
  exact (Hsame eq_refl).
Defined.

Module SubmitFacts.

(** A value that [ToNumber] converts is also converted by [ToString]. *)
Lemma ToNumber_ToString v x :
  Coerce.ToNumber v = Return x -> exists t, Coerce.ToString v = Return t.
Proof.
  destruct v as [| |[|]|n|t|l|m]; try (intros _; eexists; reflexivity);
    unfold Coerce.ToNumber;
    match goal with |- context [Coerce.ToString ?v] => destruct (Coerce.ToString v) end;
    cbn [cbind]; intros H; try discriminate H; eauto.
Qed.

Lemma below_ToNumber v n r :
  Coerce.below v n = Return r -> exists x, Coerce.ToNumber v = Return x.
Proof.
  unfold Coerce.below. destruct (Coerce.ToNumber v); [eauto|discriminate].
Qed.

Lemma nozzle_ToNumber b r :
  nozzleOutOfRange b = Return r -> exists x, Coerce.ToNumber (body_nozzleSize b) = Return x.
Proof.
  unfold nozzleOutOfRange.
  destruct (Coerce.below (body_nozzleSize b) (lit "0.2")) eqn:E; [|discriminate].
  intros _. eapply below_ToNumber, E.
Qed.

Lemma density_ToNumber b r :
  densityOutOfRange b = Return r -> exists x, Coerce.ToNumber (body_fillDensity b) = Return x.
Proof.
  unfold densityOutOfRange.
  destruct (Coerce.below (body_fillDensity b) (lit "0")) eqn:E; [|discriminate].
  intros _. eapply below_ToNumber, E.
Qed.

(** When the range checks return, the conversions of lines 390-391 do not
    throw. *)
Lemma checked_requestOf b r1 r2 :
  nozzleOutOfRange b = Return r1 -> densityOutOfRange b = Return r2 ->
  exists rq,
    requestOf b = Return rq /\
    Coerce.parseFloat (body_nozzleSize b) = Return (rq_nozzleSize rq) /\
    Coerce.parseInt (body_fillDensity b) = Return (rq_fillDensity rq) /\
    rq_designUnit rq = textOf (body_designUnit b) /\
    rq_material rq = textOf (body_material b) /\
    rq_materialType rq = textOf (body_materialType b) /\
    rq_supportMaterial rq = Coerce.ToBoolean (body_supportMaterial b).
Proof.
  intros H1 H2.
  destruct (nozzle_ToNumber b r1 H1) as [x1 E1].
  destruct (density_ToNumber b r2 H2) as [x2 E2].
  destruct (ToNumber_ToString _ _ E1) as [t1 T1].
  destruct (ToNumber_ToString _ _ E2) as [t2 T2].
  unfold requestOf, Coerce.parseFloat, Coerce.parseInt. rewrite T1, T2. cbn [cbind].
  eexists. repeat split.
Qed.

Lemma accepted_checks b :
  accepted b = true <->
  missingFields b = false /\ nozzleOutOfRange b = Return false /\
  densityOutOfRange b = Return false.
Proof.
  unfold accepted.
  destruct (missingFields b), (nozzleOutOfRange b) as [[|]|], (densityOutOfRange b) as [[|]|];
    cbn [negb andb]; split; try discriminate; try (intros (? & ? & ?); discriminate); auto.
Qed.

(** After staging no exception leaves the handler. *)
Lemma stage_returns e up b now1 now2 w :
  exists r, fst (stage e up b now1 now2 w) = Return r.
Proof.
  unfold stage. destruct (requestOf b) as [rq|err].
  - apply ServerFacts.submitStaged_returns.
  - unfold tryCatch.
    destruct ((let! _ := stageInput up _ in throw err) w) as [[r|ex] w']; [eauto|].
    rewrite HandlerFacts.catchBlock_response. eauto.
Qed.

Lemma postSubmit_cases e has reqBody now1 now2 s :
  let s0 := note (NoticeProcessing reqBody) s in
  let r := postSubmitConfiguration e has reqBody now1 now2 s in
  (has = false /\ r = (Status503, note NoticeUnavailable s0)) \/
  (has = true /\ reqBody = None /\ exists err, r = internal err s0) \/
  (has = true /\ exists b, reqBody = Some b /\
     ((uploadedFile s = None \/ accepted b = false) /\
      (forall up err, uploadedFile s = Some up -> missingFields b = false ->
                      ~ checkThrows b err) /\
      (exists msg, r = (Status400 msg, s0)) \/
      (exists up err,
        uploadedFile s = Some up /\ missingFields b = false /\ checkThrows b err /\
        r = internal err s0) \/
      exists up rq x,
        uploadedFile s = Some up /\ accepted b = true /\ requestOf b = Return rq /\
        submitStaged e up rq now1 now2 (host s) = (Return x, host (snd r)) /\
        r = (Staged x, withHost s0 (host (snd r))))).
Proof.
  intros s0 r. subst r. unfold postSubmitConfiguration. fold s0.
  destruct has; [|left; auto]. right. cbn [negb].
  destruct reqBody as [b|]; [right|left; eauto].
  split; [reflexivity|]. exists b. split; [reflexivity|].
  change (uploadedFile s0) with (uploadedFile s). change (host s0) with (host s).
  destruct (uploadedFile s) as [up|] eqn:Eu.
  2:{ left. split; [auto|]. split; [discriminate|eauto]. }
  unfold accepted, checkThrows.
  destruct (missingFields b) eqn:Em.
  { left. split; [auto|]. split; [discriminate|eauto]. }
  destruct (nozzleOutOfRange b) as [[|]|err] eqn:En.
  { left. split; [auto|]. split; [|eauto]. intros ? ? _ _ [?|[? _]]; discriminate. }
  2:{ right. left. exists up, err. auto. }
  destruct (densityOutOfRange b) as [[|]|err] eqn:Ed.
  { left. split; [auto|]. split; [|eauto]. intros ? ? _ _ [?|[_ ?]]; discriminate. }
  2:{ right. left. exists up, err. auto 6. }
  right. right. exists up.
  destruct (checked_requestOf b _ _ En Ed) as (rq & Hrq & _).
  unfold stage. rewrite Hrq. exists rq.
  destruct (ServerFacts.submitStaged_returns e up rq now1 now2 (host s)) as [x Hx].
  destruct (submitStaged e up rq now1 now2 (host s)) as [c w] eqn:Es.
  cbn [fst] in Hx. subst c. exists x. cbn [snd host withHost]. auto.
Qed.

(** A size that is an object with an own member [toString]: the
    comparison of line 360 throws, and the outer [catch] answers. *)
Lemma object_size_throws :
  let size := VObject [(js "valueOf", VNumber (lit "0")); (js "toString", VNumber (lit "0"))] in
  let b := mkBody (Some (js "mm")) (Some (js "PLA")) (Some (js "PLA"))
                  size (VNumber (lit "20")) VUndefined in
  let s := mkServer (Some Scenario.upload) [] [] Scenario.emptyWorld in
  missingFields b = false /\
  nozzleOutOfRange b = Throw Coerce.notPrimitive /\
  postSubmitConfiguration Scenario.environment true (Some b) Scenario.now Scenario.now s =
  (StatusInternal,
   note (NoticeInternal Coerce.notPrimitive) (note (NoticeProcessing (Some b)) s)).
Proof. repeat split. Qed.

End SubmitFacts.

(** X15. Which requests reach the slicer stage: exactly those sent while
    the slicer is installed and a file is retained, with a body that has
    all required fields and sizes that the range checks can compare and
    find in range.  The answer is 503 exactly when the slicer is not
    installed, whatever else holds.  The generic 500 of the outer [catch]
    is the answer exactly when the slicer is installed and either the
    request has no parsed body, or a file is retained, no field is
    missing and a range check throws because a size is an object or
    array that cannot be converted to a number.  The names (designUnit,
    material, materialType) are Strings when present. *)
Theorem submit_reaches_slicer_iff :
  forall (e : env) (hasPrusaSlicer : bool) (reqBody : option body)
         (now1 now2 : number) (s : server),
    let r := postSubmitConfiguration e hasPrusaSlicer reqBody now1 now2 s in
    ((exists x, fst r = Staged x) <->
     hasPrusaSlicer = true /\
     exists b up, reqBody = Some b /\ uploadedFile s = Some up /\
                  missingFields b = false /\
                  nozzleOutOfRange b = Return false /\
                  densityOutOfRange b = Return false) /\
    (fst r = Status503 <-> hasPrusaSlicer = false) /\
    (fst r = StatusInternal <->
     hasPrusaSlicer = true /\
     (reqBody = None \/
      exists b up err,
        reqBody = Some b /\ uploadedFile s = Some up /\ missingFields b = false /\
        (nozzleOutOfRange b = Throw err \/
         (nozzleOutOfRange b = Return false /\ densityOutOfRange b = Throw err)))).
Proof.
  intros e has reqBody now1 now2 s r.
  pose proof (SubmitFacts.accepted_checks) as Hacc.
  destruct (SubmitFacts.postSubmit_cases e has reqBody now1 now2 s)
    as [(Hh & E)|[(Hh & Hb & err & E)
                 |(Hh & b & Hb & [(Hu & Hn & msg & E)
                                 |[(up & err & Hu & Hm & Ht & E)
                                  |(up & rq & x & Hu & Ha & _ & _ & E)]])]];
    fold r in E; rewrite E; cbn [fst internal]; subst has; try subst reqBody;
    unfold checkThrows in *; try (apply Hacc in Ha; destruct Ha as (Ha1 & Ha2 & Ha3));
    (split; [|split]); split;
    try discriminate; try (intros [? _]; discriminate); try (intros [? ?]; discriminate);
    try (intros _; reflexivity); eauto 12.
  - intros (_ & b' & _ & ? & _). discriminate.
  - intros (_ & b' & up & Hb' & Hu' & H). injection Hb' as <-.
    apply Hacc in H. destruct Hu; congruence.
  - intros (_ & [?|(b' & up & err & Hb' & Hu' & Hm' & Ht')]); [discriminate|].
    injection Hb' as <-. exfalso. exact (Hn up err Hu' Hm' Ht').
  - intros (_ & b' & up' & Hb' & _ & _ & H1 & H2). injection Hb' as <-.
    destruct Ht as [Ht|[Ht1 Ht2]]; congruence.
  - intros (_ & [?|(b' & up' & err & Hb' & _ & _ & Ht)]); [discriminate|].
    injection Hb' as <-. destruct Ht as [Ht|[Ht1 Ht2]]; congruence.
Qed.

(** X16. The submit handler never changes what is retained from the
    upload, and an answer other than the one of the slicer stage (503,
    400, the generic 500) leaves the file system and the console of that
    stage as they were: nothing is staged and the slicer is not started. *)
Theorem submit_rejection_has_no_effect :
  forall (e : env) (hasPrusaSlicer : bool) (reqBody : option body)
         (now1 now2 : number) (s : server),
    let r := postSubmitConfiguration e hasPrusaSlicer reqBody now1 now2 s in
    uploadedFile (snd r) = uploadedFile s /\ timers (snd r) = timers s /\
    match fst r with
    | Staged _ => True
    | _ => host (snd r) = host s
    end.
Proof.
  intros e has reqBody now1 now2 s r.
  destruct (SubmitFacts.postSubmit_cases e has reqBody now1 now2 s)
    as [(Hh & E)|[(Hh & Hb & err & E)
                 |(Hh & b & Hb & [(_ & _ & msg & E)
                                 |[(up & err & _ & _ & _ & E)
                                  |(up & rq & x & Hu & Ha & _ & _ & E)]])]];
    fold r in E; rewrite E;
    cbn [fst snd uploadedFile timers host note withHost internal]; auto.
Qed.

Module StagedFacts.

(** A 200 answer of the slicer stage echoes the request, with the name
    of the file that is retained when the slicer has settled. *)
Lemma submitStaged_200 e up rq now1 now2 w d :
  fst (submitStaged e up rq now1 now2 w) = Return (Status200 d) ->
  exists current printTime,
    resumedUpload e up = Some current /\ d = processed current rq printTime.
Proof.
  unfold submitStaged, tryCatch. rewrite HandlerFacts.tryBlock_eq.
  set (inp := tempInputPath e up now1). set (out := tempOutputPath e now2).
  destruct (denied (fs w) !! inp) as [[err residue]|].
  { rewrite HandlerFacts.catchBlock_response. discriminate. }
  destruct (generatePrusaCommand (configOf rq) inp out) as [args|ex].
  - rewrite HandlerFacts.sliceAndRespond_eq.
    destruct (execFileAsync e (PRUSA_SLICER_PATH e) args _) as [outcome fs1]. cbn zeta.
    destruct (files fs1 !! out) as [data|].
    + unfold bind.
      destruct (Fs.unlinkSync inp _) as [[[]|ex] w2].
      * destruct (Fs.unlinkSync out w2) as [[[]|ex] w3].
        -- unfold liftC, currentUpload.
           destruct (resumedUpload e up) as [current|].
           ++ unfold consoleWrite, ret. cbn [fst]. intros H.
              injection H as <-. exists current. eexists. split; reflexivity.
           ++ rewrite HandlerFacts.catchBlock_response. discriminate.
        -- rewrite HandlerFacts.catchBlock_response. discriminate.
      * rewrite HandlerFacts.catchBlock_response. discriminate.
    + rewrite HandlerFacts.catchBlock_response. discriminate.
  - rewrite HandlerFacts.catchBlock_response. discriminate.
Qed.

Lemma lt_NaN_l x y : Num.isNaN x = true -> Num.lt x y = false.
Proof. destruct x; try discriminate. reflexivity. Qed.

Lemma lt_NaN_r x y : Num.isNaN y = true -> Num.lt x y = false.
Proof. destruct y; try discriminate. destruct x; reflexivity. Qed.

End StagedFacts.

(** X17. The range checks compare [ToNumber] of the sizes, the slicer gets
    what [parseFloat] and [parseInt] read from them.  A nozzle size and
    a fill density that [ToNumber] converts to NaN (a String such as
    "5mm") are therefore never out of range: the request reaches the
    slicer stage with the sizes read from their prefixes. *)
Theorem unreadable_sizes_pass_validation :
  forall (e : env) (now1 now2 : number) (s : server) (up : uploaded) (b : body)
         (nozzle density : number),
    uploadedFile s = Some up ->
    missingFields b = false ->
    Coerce.ToNumber (body_nozzleSize b) = Return nozzle -> Num.isNaN nozzle = true ->
    Coerce.ToNumber (body_fillDensity b) = Return density -> Num.isNaN density = true ->
    accepted b = true /\
    exists rq x,
      requestOf b = Return rq /\
      Coerce.parseFloat (body_nozzleSize b) = Return (rq_nozzleSize rq) /\
      Coerce.parseInt (body_fillDensity b) = Return (rq_fillDensity rq) /\
      fst (postSubmitConfiguration e true (Some b) now1 now2 s) = Staged x /\
      fst (submitStaged e up rq now1 now2 (host s)) = Return x.
Proof.
  intros e now1 now2 s up b nozzle density Hu Hm En Hn Ed Hd.
  assert (H1 : nozzleOutOfRange b = Return false).
  { unfold nozzleOutOfRange, Coerce.below, Coerce.above. rewrite En. cbn [cbind].
    rewrite (StagedFacts.lt_NaN_l _ _ Hn), (StagedFacts.lt_NaN_r _ _ Hn). reflexivity. }
  assert (H2 : densityOutOfRange b = Return false).
  { unfold densityOutOfRange, Coerce.below, Coerce.above. rewrite Ed. cbn [cbind].
    rewrite (StagedFacts.lt_NaN_l _ _ Hd), (StagedFacts.lt_NaN_r _ _ Hd). reflexivity. }
  assert (Ha : accepted b = true) by (apply SubmitFacts.accepted_checks; auto).
  split; [exact Ha|].
  destruct (SubmitFacts.checked_requestOf b _ _ H1 H2) as (rq & Hrq & Hf & Hi & _).
  destruct (SubmitFacts.postSubmit_cases e true (Some b) now1 now2 s)
    as [(Hh & _)|[(_ & Hb & _)
                 |(_ & b' & Hb & [([Hu'|Ha'] & _)
                                 |[(up' & err & _ & _ & Ht & _)
                                  |(up' & rq' & x & Hu' & _ & Hrq' & Es & E)]])]];
    try discriminate; try (injection Hb as <-); try congruence.
  { destruct Ht as [Ht|[_ Ht]]; congruence. }
  assert (up' = up) by congruence. subst up'.
  assert (rq' = rq) by congruence. subst rq'.
  exists rq, x. rewrite E, Es. cbn [fst]. auto.
Qed.

Lemma unreadable_sizes_pass_validation_witness :
  let b := mkBody (Some (js "mm")) (Some (js "PLA")) (Some (js "PLA"))
                  (VString (js "5mm")) (VString (js "dense")) VUndefined in
  let s := mkServer (Some Scenario.upload) [] [] Scenario.emptyWorld in
  missingFields b = false /\
  Coerce.ToNumber (body_nozzleSize b) = Return Num.NaN /\
  Coerce.ToNumber (body_fillDensity b) = Return Num.NaN /\
  Coerce.parseFloat (body_nozzleSize b) = Return (lit "5") /\
  Coerce.parseInt (body_fillDensity b) = Return Num.NaN /\
  accepted b = true /\
  exists rq x,
    requestOf b = Return rq /\
    Coerce.parseFloat (body_nozzleSize b) = Return (rq_nozzleSize rq) /\
    Coerce.parseInt (body_fillDensity b) = Return (rq_fillDensity rq) /\
    fst (postSubmitConfiguration Scenario.warningEnvironment true (Some b)
           Scenario.now Scenario.now s) = Staged x /\
    fst (submitStaged Scenario.warningEnvironment Scenario.upload rq
           Scenario.now Scenario.now (host s)) = Return x.
Proof.
  intros b s.
  split; [reflexivity|]. split; [reflexivity|]. split; [reflexivity|].
  split; [reflexivity|]. split; [reflexivity|].
  exact (unreadable_sizes_pass_validation Scenario.warningEnvironment Scenario.now
           Scenario.now s Scenario.upload b Num.NaN Num.NaN
           eq_refl eq_refl eq_refl eq_refl eq_refl eq_refl).
Defined.

(** X18. Upload, then submit: after an upload that was answered with
    dimensions, a submitted body that passes the checks reaches the
    slicer stage with the bytes, the name and the extension of that
    upload and with the sizes as [parseFloat] and [parseInt] read them.
    A 200 answer carries these sizes and the name of the file that is
    retained when the slicer has settled (line 443 reads [uploadedFile]
    again): the name of this upload when it is still the retained one. *)
Theorem upload_then_submit :
  forall (toLowerCase : jsstring -> jsstring) (e : env) (f : multerFile) (sz : size)
         (s s1 : server) (b : body) (now1 now2 : number),
    postDimensions toLowerCase (Some f) s = (Dimensions sz, s1) ->
    accepted b = true ->
    let up := mkUploaded (fileBuffer f) (originalname f)
                         (extensionOf toLowerCase (originalname f)) in
    exists rq x,
      requestOf b = Return rq /\
      Coerce.parseFloat (body_nozzleSize b) = Return (rq_nozzleSize rq) /\
      Coerce.parseInt (body_fillDensity b) = Return (rq_fillDensity rq) /\
      fst (postSubmitConfiguration e true (Some b) now1 now2 s1) = Staged x /\
      fst (submitStaged e up rq now1 now2 (host s)) = Return x /\
      forall d, x = Status200 d ->
        pc_nozzleSize d = rq_nozzleSize rq /\
        pc_fillDensity d = rq_fillDensity rq /\
        (exists current,
            resumedUpload e up = Some current /\ pc_filename d = filename current) /\
        (resumedUpload e up = Some up -> pc_filename d = originalname f).
Proof.
  intros lower e f sz s s1 b now1 now2 Hup Ha up.
  destruct (ServerFacts.postDimensions_cases lower (Some f) s)
    as [(msg & E)|[(f' & kind & err & _ & _ & _ & _ & E)
                  |(f' & kind & sz' & Ef & _ & _ & _ & E)]];
    rewrite E in Hup; try discriminate Hup.
  injection Ef as <-. injection Hup as _ <-.
  pose proof Ha as Hc. apply SubmitFacts.accepted_checks in Hc.
  destruct Hc as (Hm & H1 & H2).
  destruct (SubmitFacts.checked_requestOf b _ _ H1 H2) as (rq & Hrq & Hf & Hi & _).
  destruct (SubmitFacts.postSubmit_cases e true (Some b) now1 now2
              (mkServer (Some up) (timers s ++ [originalname f])
                 (journal s ++ [NoticeGot (extensionOf lower (originalname f)) (originalname f)
                                          (length (fileBuffer f)); NoticeDone sz'])
                 (host s)))
    as [(Hh & _)|[(_ & Hb & _)
                 |(_ & b' & Hb & [([Hu'|Ha'] & _)
                                 |[(up' & err & _ & _ & Ht & _)
                                  |(up' & rq' & x & Hu' & _ & Hrq' & Es & E')]])]];
    try discriminate; try (injection Hb as <-); try congruence.
  { destruct Ht as [Ht|[_ Ht]]; congruence. }
  cbn [uploadedFile host] in Hu', Es. injection Hu' as <-.
  assert (rq' = rq) by congruence. subst rq'.
  exists rq, x. fold up. rewrite E'. cbn [fst].
  split; [exact Hrq|]. split; [exact Hf|]. split; [exact Hi|].
  split; [reflexivity|]. split; [rewrite Es; reflexivity|].
  intros d ->.
  destruct (StagedFacts.submitStaged_200 e up rq now1 now2 (host s) d)
    as (current & pt & Hcur & ->).
  { rewrite Es. reflexivity. }
  cbn [processed pc_filename pc_nozzleSize pc_fillDensity].
  split; [reflexivity|]. split; [reflexivity|]. split; [eauto|].
  intros Hsame. rewrite Hcur in Hsame. injection Hsame as ->. reflexivity.
Qed.

Lemma upload_then_submit_witness :
  let f := mkFile (js "part.obj") (Utf8.bytes "v 1 2 3") in
  let s := mkServer None [] [] Scenario.emptyWorld in
  let b := mkBody (Some (js "mm")) (Some (js "PLA")) (Some (js "PLA"))
                  (VNumber (lit "0.4")) (VString (js "20")) (VBool false) in
  let e := Scenario.warningEnvironment in
  accepted b = true /\
  fst (postSubmitConfiguration e true (Some b) Scenario.now Scenario.now
         (snd (postDimensions Str.asciiLowerCase (Some f) s))) =
  Staged (Status200 (mkProcessed (js "mm") (js "PLA") (js "PLA") (lit "0.4") (lit "20")
                                 false (js "1h 2m") (js "part.obj"))) /\
  exists rq x,
    requestOf b = Return rq /\
    fst (postSubmitConfiguration e true (Some b) Scenario.now Scenario.now
           (snd (postDimensions Str.asciiLowerCase (Some f) s))) = Staged x /\
    forall d, x = Status200 d ->
      pc_nozzleSize d = rq_nozzleSize rq /\
      pc_fillDensity d = rq_fillDensity rq /\
      (exists current,
          resumedUpload e (mkUploaded (Utf8.bytes "v 1 2 3") (js "part.obj") (js "obj"))
          = Some current /\ pc_filename d = filename current) /\
      (resumedUpload e (mkUploaded (Utf8.bytes "v 1 2 3") (js "part.obj") (js "obj"))
       = Some (mkUploaded (Utf8.bytes "v 1 2 3") (js "part.obj") (js "obj")) ->
       pc_filename d = js "part.obj").
Proof.
  intros f s b e.
  pose (sz := mkSize (S754_zero false) (S754_zero false) (S754_zero false) 1).
  assert (H1 : postDimensions Str.asciiLowerCase (Some f) s =
               (Dimensions sz, snd (postDimensions Str.asciiLowerCase (Some f) s)))
    by reflexivity.
  split; [reflexivity|]. split; [vm_compute; reflexivity|].
  destruct (upload_then_submit Str.asciiLowerCase e f sz s _ b
              Scenario.now Scenario.now H1 eq_refl) as (rq & x & Hrq & _ & _ & Hx & _ & Hd).
  exists rq, x. split; [exact Hrq|]. split; [exact Hx|exact Hd].
Defined.

(** X19. A request whose material is named like a member inherited from
    [Object.prototype] never starts the slicer: the handler behaves the
    same whatever the slicer would do and whatever happens to the
    retained file meanwhile.  The answer is 500: with the error of the
    write of line 379 when that write fails, and otherwise with the
    TypeError of the command line. *)
Theorem inherited_material_never_sliced :
  forall (e : env) (up : uploaded) (rq : request) (now1 now2 : number) (w : world)
         (otherSlicer : jsstring -> list jsstring -> filesystem -> execOutcome * filesystem)
         (otherResumed : uploaded -> option uploaded),
    In (rq_material rq) inheritedKeys ->
    let inp := tempInputPath e up now1 in
    fst (submitStaged e up rq now1 now2 w) =
      Return (Status500
                match denied (fs w) !! inp with
                | Some (writeError, _) => writeError
                | None => TypeError "Cannot read properties of undefined (reading 'toString')"
                end) /\
    submitStaged (mkEnv (tmpdir e) (sep e) (PRUSA_SLICER_PATH e) otherSlicer otherResumed)
                 up rq now1 now2 w =
    submitStaged e up rq now1 now2 w.
Proof.
  intros e up rq now1 now2 w other resumed H inp.
  assert (Hg : forall inp out, generatePrusaCommand (configOf rq) inp out =
               Throw (TypeError "Cannot read properties of undefined (reading 'toString')")).
  { intros inp' out. unfold generatePrusaCommand. cbn [configOf material].
    rewrite (MaterialFacts.getMaterialSettings_inherited _ H). reflexivity. }
  split.
  - unfold submitStaged, tryCatch. rewrite HandlerFacts.tryBlock_eq, Hg. fold inp.
    destruct (denied (fs w) !! inp) as [[err residue]|];
      apply HandlerFacts.catchBlock_response.
  - unfold submitStaged, tryCatch. rewrite !HandlerFacts.tryBlock_eq, !Hg. reflexivity.
Qed.

Lemma inherited_material_never_sliced_witness :
  let rq := mkRequest (js "mm") (js "toString") (js "PLA") (lit "0.4") (lit "20") false in
  let e := Scenario.environment in
  let inp := tempInputPath e Scenario.upload Scenario.now in
  let readOnly :=
    mkWorld (mkFs ∅ ∅ {[ inp := (SystemError "EROFS" "open" inp, None) ]}) [] in
  In (rq_material rq) inheritedKeys /\
  fst (submitStaged e Scenario.upload rq Scenario.now Scenario.now Scenario.emptyWorld) =
    Return (Status500 (TypeError "Cannot read properties of undefined (reading 'toString')")) /\
  fst (submitStaged e Scenario.upload rq Scenario.now Scenario.now readOnly) =
    Return (Status500 (SystemError "EROFS" "open" inp)).
Proof.
  intros rq e inp readOnly.
  assert (H : In (rq_material rq) inheritedKeys).
  { unfold inheritedKeys, objectPrototypeKeys. cbn [map]. do 6 right. left. reflexivity. }
  split; [exact H|]. split.
  - exact (proj1 (inherited_material_never_sliced e Scenario.upload rq
                    Scenario.now Scenario.now Scenario.emptyWorld Scenario.slicer Some H)).
  - pose proof (proj1 (inherited_material_never_sliced e Scenario.upload rq
                         Scenario.now Scenario.now readOnly Scenario.slicer Some H)) as E.
    cbv zeta in E. fold inp in E.
    replace (denied (fs readOnly) !! inp)
      with (Some (SystemError "EROFS" "open" inp, @None (list byte))) in E
      by (symmetry; apply lookup_singleton_eq).
    exact E.
Defined.

Module ObjFacts.

Lemma objLineVertices_noNaN line : forallb noNaN (objLineVertices line) = true.
Proof.
  unfold objLineVertices.
  destruct (Regex.split whiteSpaceRun (Str.trim line)) as [|p0 [|t1 [|t2 [|t3 rest]]]];
    try reflexivity.
  destruct (Str.eqb p0 (js "v")); [|reflexivity].
  destruct (negb (Num.isNaN (Conv.StringToNumber t1)) &&
            negb (Num.isNaN (Conv.StringToNumber t2)) &&
            negb (Num.isNaN (Conv.StringToNumber t3))) eqn:E; [|reflexivity].
  cbn [forallb]. unfold noNaN. cbn [vx vy vz fst snd]. rewrite E. reflexivity.
Qed.

Lemma flat_map_noNaN lines : forallb noNaN (flat_map objLineVertices lines) = true.
Proof.
  induction lines as [|l ls IH]; [reflexivity|].
  cbn [flat_map]. rewrite forallb_app, objLineVertices_noNaN, IH. reflexivity.
Qed.

End ObjFacts.

(** X20. What [readOBJ] returns is never empty and holds no NaN
    coordinate: a vertex line with a coordinate that is not a number is
    left out, and a file without any accepted vertex line is rejected. *)
Theorem readOBJ_vertices_are_numbers :
  forall (buf : list byte) (verts : list vertex),
    readOBJ buf = Return verts ->
    verts <> [] /\ forallb noNaN verts = true.
Proof.
  intros buf verts. unfold readOBJ.
  pose proof (ObjFacts.flat_map_noNaN (Str.split 10 (Utf8.decode buf))) as H.
  destruct (flat_map objLineVertices (Str.split 10 (Utf8.decode buf))) as [|v vs];
    [discriminate|].
  intros E. injection E as <-. split; [discriminate|exact H].
Qed.

Lemma readOBJ_vertices_are_numbers_witness :
  let buf := Utf8.bytes "v 1 2 3
v 1 two 3
vn 0 0 1
v 4 5 6 1.0" in
  readOBJ buf = Return [(lit "1", lit "2", lit "3"); (lit "4", lit "5", lit "6")] /\
  forallb noNaN [(lit "1", lit "2", lit "3"); (lit "4", lit "5", lit "6")] = true.
Proof.
  intros buf.
  assert (H : readOBJ buf = Return [(lit "1", lit "2", lit "3"); (lit "4", lit "5", lit "6")])
    by (vm_compute; reflexivity).
  split; [exact H|].
  exact (proj2 (readOBJ_vertices_are_numbers buf _ H)).
Defined.

(** ** Binary32 data as Numbers *)

Module WideningFacts.
Import SyntheticFacts.

Lemma digits2_pos_lt m k : 0 <= k -> Zpos m < 2 ^ k -> Zpos (digits2_pos m) <= k.
Proof.
  intros Hk H. pose proof (digits2_pos_bounds m) as [Hlo _].
  destruct (Z.le_gt_cases (Zpos (digits2_pos m)) k) as [|Hgt]; [assumption|].
  exfalso. assert (2 ^ k <= 2 ^ (Zpos (digits2_pos m) - 1)) by (apply Z.pow_le_mono_r; lia).
  lia.
Qed.

Lemma digits2_pos_ge m k : 0 <= k -> 2 ^ k <= Zpos m -> k < Zpos (digits2_pos m).
Proof.
  intros Hk H. pose proof (digits2_pos_bounds m) as [_ Hhi].
  destruct (Z.lt_ge_cases k (Zpos (digits2_pos m))) as [|Hge]; [assumption|].
  exfalso. assert (2 ^ Zpos (digits2_pos m) <= 2 ^ k) by (apply Z.pow_le_mono_r; lia).
  lia.
Qed.

(** Every 32-bit pattern denotes a binary32 datum. *)
Lemma ofBits_valid bits : valid_binary 24 128 (Float32.ofBits bits) = true.
Proof.
  unfold Float32.ofBits.
  assert (He : 0 <= Float32.exponentField bits < 256).
  { unfold Float32.exponentField. change 255 with (Z.ones 8).
    rewrite Z.land_ones by lia. apply Z.mod_pos_bound. lia. }
  assert (Hf : 0 <= Float32.fractionField bits < 2 ^ 23).
  { unfold Float32.fractionField. change (2 ^ 23 - 1) with (Z.ones 23).
    rewrite Z.land_ones by lia. apply Z.mod_pos_bound. lia. }
  set (E := Float32.exponentField bits) in *. set (F := Float32.fractionField bits) in *.
  destruct (Z.eqb_spec E 255); [destruct (F =? 0); reflexivity|].
  destruct (Z.eqb_spec E 0).
  - destruct F as [|p|p] eqn:EF; try reflexivity.
    cbn [valid_binary]. unfold bounded, canonical_mantissa, fexp, emin.
    pose proof (digits2_pos_lt p 23 ltac:(lia) ltac:(lia)).
    apply andb_true_iff. split; [apply Z.eqb_eq|apply Z.leb_le]; lia.
  - cbn [valid_binary]. unfold bounded, canonical_mantissa, fexp, emin.
    assert (Hm : Zpos (Z.to_pos (F + 2 ^ 23)) = F + 2 ^ 23) by (apply Z2Pos.id; lia).
    pose proof (digits2_pos_lt (Z.to_pos (F + 2 ^ 23)) 24 ltac:(lia) ltac:(rewrite Hm; lia)).
    pose proof (digits2_pos_ge (Z.to_pos (F + 2 ^ 23)) 23 ltac:(lia) ltac:(rewrite Hm; lia)).
    apply andb_true_iff. split; [apply Z.eqb_eq|apply Z.leb_le]; lia.
Qed.

(** Widening a binary32 datum gives a binary64 datum of the same class. *)
Lemma toNumber_valid x :
  valid_binary 24 128 x = true ->
  validNumber (Float32.toNumber x) = true /\ isFinite (Float32.toNumber x) = isFinite x.
Proof.
  destruct x as [s|s| |s m e]; cbn [valid_binary]; intros H; try (split; reflexivity).
  apply bounded_binary32 in H. destruct H as (Hd & He & _ & _).
  pose proof (Pos2Z.is_pos (digits2_pos m)) as Hd0.
  cbn [Float32.toNumber]. unfold binary_round, Num.prec, Num.emax.
  assert (Hf : fexp 53 1024 (Zpos (digits2_pos m) + e) = Zpos (digits2_pos m) + e - 53).
  { unfold fexp, emin. lia. }
  rewrite Hf. unfold shl_align.
  destruct (Zpos (digits2_pos m) + e - 53 - e) as [|k|k] eqn:Hk; [lia | lia |].
  rewrite binary_round_aux_exact;
    [| rewrite iter_xO_digits, Pos2Z.inj_add; lia | lia].
  split; [|reflexivity].
  unfold validNumber, Num.prec, Num.emax. cbn [valid_binary].
  unfold bounded, canonical_mantissa, fexp, emin.
  rewrite iter_xO_digits, Pos2Z.inj_add.
  apply andb_true_iff. split; [apply Z.eqb_eq|apply Z.leb_le]; lia.
Qed.

Lemma getFloat32_valid ab off x :
  DataView.getFloat32 ab off = Return x -> validNumber x = true.
Proof.
  unfold DataView.getFloat32. destruct (DataView.bytesAt ab off 4) as [bs|]; [|discriminate].
  cbn [cbind]. intros H.
  replace x with (Float32.toNumber (Float32.ofBits (DataView.littleEndian bs)))
    by congruence.
  apply toNumber_valid, ofBits_valid.
Qed.

Lemma readVertices_valid ab j : forall off acc r,
  forallb validVertex acc = true ->
  readVertices ab j off acc = Return r -> forallb validVertex (snd r) = true.
Proof.
  induction j as [|j IH]; intros off acc r Hacc H; cbn [readVertices] in H.
  - injection H as <-. exact Hacc.
  - destruct (DataView.getFloat32 ab off) as [x|] eqn:Ex; [|discriminate].
    destruct (DataView.getFloat32 ab (off + 4)) as [y|] eqn:Ey; [|discriminate].
    destruct (DataView.getFloat32 ab (off + 8)) as [z|] eqn:Ez; [|discriminate].
    cbn [cbind] in H. apply IH in H; [exact H|].
    rewrite forallb_app, Hacc. cbn [forallb]. unfold validVertex. cbn [vx vy vz fst snd].
    rewrite (getFloat32_valid _ _ _ Ex), (getFloat32_valid _ _ _ Ey),
      (getFloat32_valid _ _ _ Ez). reflexivity.
Qed.

Lemma readTriangles_valid ab n : forall off acc pts,
  forallb validVertex acc = true ->
  readTriangles ab n off acc = Return pts -> forallb validVertex pts = true.
Proof.
  induction n as [|n IH]; intros off acc pts Hacc H; cbn [readTriangles] in H.
  - injection H as <-. exact Hacc.
  - destruct (readVertices ab 3 (off + 12) acc) as [[off' verts]|] eqn:E; [|discriminate].
    cbn [cbind] in H. apply readVertices_valid in E; [|exact Hacc].
    eapply IH; [exact E|exact H].
Qed.

End WideningFacts.

(** X21. The points decoded from a binary STL are well-formed Numbers,
    and when none of their coordinates is NaN or infinite the extents
    that [getSize] reports for them are never negative and never NaN. *)
Theorem binary_stl_extents_nonNegative :
  forall (toLowerCase : jsstring -> jsstring) (buf : list byte) (pts : list vertex),
    sizeMatches buf ->
    readSTL toLowerCase buf = Return pts ->
    forallb validVertex pts = true /\
    (forallb finiteCoordinates pts = true ->
     exists d, getSize pts = Return d /\
       nonNegative (size_x d) /\ nonNegative (size_y d) /\ nonNegative (size_z d)).
Proof.
  intros lower buf pts Hs Hr.
  pose proof (DecoderFacts.binary_path_nonempty lower buf pts Hs Hr) as Hne.
  assert (Hv : forallb validVertex pts = true).
  { destruct Hs as (Hlen & count & Hc & Hsz). unfold readSTL in Hr.
    destruct (Z.ltb_spec 84 (Z.of_nat (length buf))); [|lia].
    rewrite Hc in Hr. cbn [cbind] in Hr. rewrite Hsz, Z.eqb_refl in Hr.
    unfold readBinarySTL in Hr.
    eapply WideningFacts.readTriangles_valid; [|exact Hr]. reflexivity. }
  split; [exact Hv|]. intros Hf.
  destruct (getSize pts) as [d|ex] eqn:Ed.
  - exists d. split; [reflexivity|].
    apply (FloatFacts.finite_extents pts d); [|exact Ed].
    rewrite forallb_forall in *. intros v Hin.
    specialize (Hv v Hin). specialize (Hf v Hin).
    unfold validVertex, validNumber in Hv. unfold finiteCoordinates, isFinite in Hf.
    unfold finiteVertex, isFiniteNumber.
    apply andb_true_iff in Hv as [Hv Hz]. apply andb_true_iff in Hv as [Hx Hy].
    apply andb_true_iff in Hf as [Hf Fz]. apply andb_true_iff in Hf as [Fx Fy].
    rewrite Hx, Hy, Hz. cbn [andb]. rewrite Fx, Fy, Fz. reflexivity.
  - exfalso. destruct pts; [congruence|discriminate Ed].
Qed.

Lemma binary_stl_extents_nonNegative_witness :
  let buf := repeat "000"%byte 80 ++ Synthetic.le32 1 ++ repeat "000"%byte 50 in
  let o := (S754_zero false, S754_zero false, S754_zero false) in
  sizeMatches buf /\
  readSTL Str.asciiLowerCase buf = Return [o; o; o] /\
  forallb validVertex [o; o; o] = true /\
  (forallb finiteCoordinates [o; o; o] = true ->
   exists d, getSize [o; o; o] = Return d /\
     nonNegative (size_x d) /\ nonNegative (size_y d) /\ nonNegative (size_z d)).
Proof.
  intros buf o.
  assert (Hs : sizeMatches buf).
  { split; [reflexivity|]. exists 1. split; reflexivity. }
  assert (Hr : readSTL Str.asciiLowerCase buf = Return [o; o; o]) by (vm_compute; reflexivity).
  split; [exact Hs|]. split; [exact Hr|].
  exact (binary_stl_extents_nonNegative Str.asciiLowerCase buf [o; o; o] Hs Hr).
Defined.

(** ** The layer height *)

Module HalvingFacts.
Import SyntheticFacts NumKey NumOrder ExtentFacts FloatFacts WideningFacts.

Lemma lit_values :
  lit "0.5" = S754_finite false 4503599627370496 (-53) /\
  lit "0.3" = S754_finite false 5404319552844595 (-54) /\
  lit "0.2" = S754_finite false 7205759403792794 (-55) /\
  lit "0.1" = S754_finite false 7205759403792794 (-56).
Proof. repeat split; vm_compute; reflexivity. Qed.

Lemma mul_pow52 m : (m * 4503599627370496)%positive = Pos.iter xO m 52.
Proof. apply Pos2Z.inj. rewrite iter_xO_value, Pos2Z.inj_mul. reflexivity. Qed.

(** Halving a normal Number above the least exponent is exact. *)
Lemma halve_normal s m e :
  Zpos (digits2_pos m) = 53 -> -1073 <= e <= 971 ->
  binary_round_aux 53 1024 s (Zpos (m * 4503599627370496)) (e + -53) loc_Exact =
  S754_finite s m (e - 1).
Proof.
  intros Hd He. rewrite mul_pow52.
  assert (Hs1 : fexp 53 1024 (Zdigits2 (Zpos (Pos.iter xO m 52)) + (e + -53)) - (e + -53) = 52).
  { cbn [Zdigits2]. rewrite iter_xO_digits, Pos2Z.inj_add, Hd. unfold fexp, emin. lia. }
  assert (Hs2 : fexp 53 1024 (Zdigits2 (Zpos m) + (e - 1)) - (e - 1) = 0).
  { cbn [Zdigits2]. rewrite Hd. unfold fexp, emin. lia. }
  unfold binary_round_aux, shr_fexp. rewrite Hs1.
  cbn [shr shr_record_of_loc].
  assert (Hit : SpecFloat.iter_pos shr_1 52
                  {| shr_m := Zpos (Pos.iter xO m 52); shr_r := false; shr_s := false |} =
                {| shr_m := Zpos m; shr_r := false; shr_s := false |}) by reflexivity.
  rewrite Hit. cbn [loc_of_shr_record shr_m round_nearest_even].
  replace (e + -53 + 52) with (e - 1) by lia. rewrite Hs2. cbn [shr shr_m].
  destruct (Z.leb_spec (e - 1) (1024 - 53)); [reflexivity|lia].
Qed.

Lemma shr_1_le mrs : 0 <= shr_m mrs -> shr_m (shr_1 mrs) <= shr_m mrs.
Proof.
  destruct mrs as [m r s]. cbn [shr_m]. intros H.
  destruct m as [|[p|p|]|p]; cbn [shr_1 shr_m]; lia.
Qed.

Lemma iter_shr_le p : forall mrs,
  0 <= shr_m mrs -> shr_m (SpecFloat.iter_pos shr_1 p mrs) <= shr_m mrs.
Proof.
  induction p as [p IH|p IH|]; intros mrs H; cbn [SpecFloat.iter_pos].
  - pose proof (shr_1_nonneg mrs H). pose proof (shr_1_le mrs H).
    pose proof (iter_shr_nonneg p _ H0). pose proof (IH _ H0). pose proof (IH _ H2). lia.
  - pose proof (iter_shr_nonneg p _ H). pose proof (IH _ H). pose proof (IH _ H0). lia.
  - apply shr_1_le, H.
Qed.

Lemma shr_fexp_le m e l :
  0 <= m -> shr_m (fst (shr_fexp 53 1024 m e l)) <= m.
Proof.
  intros H. unfold shr_fexp, shr.
  assert (H0 : shr_m (shr_record_of_loc m l) = m) by (destruct l as [|[]]; reflexivity).
  destruct (fexp 53 1024 (Zdigits2 m + e) - e); cbn [fst]; try lia.
  pose proof (iter_shr_le p (shr_record_of_loc m l) ltac:(lia)). lia.
Qed.

Lemma shr_fexp_exponent m e l :
  snd (shr_fexp 53 1024 m e l) = Z.max e (fexp 53 1024 (Zdigits2 m + e)).
Proof.
  unfold shr_fexp, shr.
  destruct (fexp 53 1024 (Zdigits2 m + e) - e) eqn:E; cbn [snd]; lia.
Qed.

Lemma round_le m l : round_nearest_even m l <= m + 1.
Proof.
  destruct l as [|[]]; cbn [round_nearest_even]; try lia. destruct (Z.even m); lia.
Qed.

Lemma Zdigits2_le z k : 0 <= k -> 0 <= z < 2 ^ k -> Zdigits2 z <= k.
Proof.
  intros Hk H. destruct z as [|p|p]; cbn [Zdigits2]; [lia| |lia].
  apply digits2_pos_lt; lia.
Qed.

(** Halving a Number at the least exponent gives a zero or a Number with
    a small exponent. *)
Lemma halve_least s m :
  Zpos m < 2 ^ 53 ->
  match binary_round_aux 53 1024 s (Zpos (m * 4503599627370496)) (-1074 + -53) loc_Exact with
  | S754_zero s' => s' = s
  | S754_finite s' _ e' => s' = s /\ e' <= -900
  | _ => False
  end.
Proof.
  intros Hm. set (M := Zpos (m * 4503599627370496)).
  assert (HM : 0 <= M < 2 ^ 105).
  { unfold M. rewrite Pos2Z.inj_mul. change (2 ^ 105) with (2 ^ 53 * 4503599627370496). nia. }
  unfold binary_round_aux.
  pose proof (shr_fexp_nonneg M (-1074 + -53) loc_Exact ltac:(lia)) as N1.
  pose proof (shr_fexp_le M (-1074 + -53) loc_Exact ltac:(lia)) as L1.
  pose proof (shr_fexp_exponent M (-1074 + -53) loc_Exact) as X1.
  destruct (shr_fexp 53 1024 M (-1074 + -53) loc_Exact) as [mrs' e'].
  cbn [fst snd] in N1, L1, X1.
  set (m1 := round_nearest_even (shr_m mrs') (loc_of_shr_record mrs')).
  pose proof (round_nonneg _ (loc_of_shr_record mrs') N1) as R0. fold m1 in R0.
  pose proof (round_le (shr_m mrs') (loc_of_shr_record mrs')) as R1. fold m1 in R1.
  pose proof (shr_fexp_nonneg m1 e' loc_Exact R0) as N2.
  pose proof (shr_fexp_exponent m1 e' loc_Exact) as X2.
  destruct (shr_fexp 53 1024 m1 e' loc_Exact) as [mrs'' e''].
  cbn [fst snd] in N2, X2.
  assert (D0 : Zdigits2 M <= 105) by (apply Zdigits2_le; lia).
  assert (D0' : 0 <= Zdigits2 M) by (destruct M; cbn; lia).
  assert (D1 : Zdigits2 m1 <= 106).
  { apply Zdigits2_le; [lia|]. change (2 ^ 106) with (2 ^ 105 * 2). lia. }
  assert (D1' : 0 <= Zdigits2 m1) by (destruct m1; cbn; lia).
  unfold fexp, emin in X1, X2.
  destruct (shr_m mrs'') as [|p|p]; [reflexivity| |lia].
  destruct (Z.leb_spec e'' (1024 - 53)); [split; [reflexivity|lia]|lia].
Qed.

Lemma le_small (p : number) :
  match p with
  | S754_zero _ => True
  | S754_finite false _ e => e <= -900
  | S754_finite true _ _ => True
  | S754_infinity s => s = true
  | S754_nan => False
  end ->
  Num.isNaN p = false /\ Num.le p (lit "0.2") = true.
Proof.
  destruct lit_values as (_ & _ & -> & _).
  destruct p as [s|[]| |[] m e]; intros H; try discriminate; try contradiction;
    split; try reflexivity.
  apply le_key; [reflexivity|reflexivity|]. cbn [key leK]. lia.
Qed.

(** Half of a Number that is at most 0.3 is at most 0.2. *)
Lemma half_le n :
  validNumber n = true -> Num.le n (lit "0.3") = true ->
  Num.isNaN (Num.mul n (lit "0.5")) = false /\
  Num.le (Num.mul n (lit "0.5")) (lit "0.2") = true.
Proof.
  destruct lit_values as (H05 & H03 & H02 & _). rewrite H05, H03.
  intros Hv Hle.
  destruct n as [s|s| |s m e].
  - apply le_small. exact I.
  - destruct s; [|discriminate Hle]. apply le_small. reflexivity.
  - discriminate Hle.
  - unfold validNumber in Hv. cbn [valid_binary] in Hv.
    apply bounded_binary64 in Hv as (He & Hsub & Hm).
    unfold Num.mul, SFmul, Num.prec, Num.emax. rewrite xorb_false_r.
    destruct s.
    + (* a negative Number: the half is negative, a zero or -Infinity *)
      pose proof (binary_round_aux_sign true (Zpos (m * 4503599627370496)) (e + -53)
                    loc_Exact ltac:(lia)) as Hs.
      apply le_small.
      destruct (binary_round_aux 53 1024 true _ _ _) as [s'|s'| |s' m' e'];
        try subst s'; auto.
    + apply le_key in Hle; [|reflexivity|reflexivity]. cbn [key leK] in Hle.
      destruct (Z.eq_dec e (-1074)) as [->|Hne].
      * pose proof (halve_least false m Hm) as Hh. apply le_small.
        destruct (binary_round_aux 53 1024 false _ _ _) as [s'|s'| |s' m' e'];
          try contradiction; auto.
        destruct Hh as [-> Hh]. exact Hh.
      * assert (Hd : Zpos (digits2_pos m) = 53).
        { assert (2 ^ 52 <= Zpos m).
          { destruct (Z.lt_ge_cases (Zpos m) (2 ^ 52)) as [Hc|Hc]; [|exact Hc].
            specialize (Hsub Hc). lia. }
          pose proof (digits2_pos_lt m 53 ltac:(lia) Hm).
          pose proof (digits2_pos_ge m 52 ltac:(lia) H). lia. }
        rewrite halve_normal by lia. rewrite H02.
        split; [reflexivity|]. apply le_key; [reflexivity|reflexivity|].
        cbn [key leK]. lia.
Qed.

End HalvingFacts.

(** X22. For every nozzle size that is a well-formed Number (NaN and the
    infinities included) the layer height passed to the slicer is a
    Number between 0.1 and 0.2. *)
Theorem layer_height_bounded :
  forall cfg : config,
    validNumber (nozzleSize cfg) = true ->
    Num.isNaN (layerHeight cfg) = false /\
    Num.le (lit "0.1") (layerHeight cfg) = true /\
    Num.le (layerHeight cfg) (lit "0.2") = true.
Proof.
  intros cfg Hv. unfold layerHeight.
  destruct (Num.le (nozzleSize cfg) (lit "0.3")) eqn:Hle.
  - destruct (HalvingFacts.half_le _ Hv Hle) as [Hn Hh].
    assert (H01 : Num.isNaN (lit "0.1") = false) by reflexivity.
    destruct (ExtentFacts.max_spec (lit "0.1") _ H01 Hn) as (Hm & [E|E] & Hlo & _).
    + rewrite E. repeat split; reflexivity.
    + repeat split; [exact Hm|exact Hlo|]. rewrite E. exact Hh.
  - repeat split; reflexivity.
Qed.

Lemma layer_height_bounded_witness :
  let cfg := mkConfig (js "PLA") (js "PLA") (lit "0.25") (lit "20") false in
  validNumber (nozzleSize cfg) = true /\
  layerHeight cfg = lit "0.125" /\
  Num.isNaN (layerHeight cfg) = false /\
  Num.le (lit "0.1") (layerHeight cfg) = true /\
  Num.le (layerHeight cfg) (lit "0.2") = true.
Proof.
  intros cfg. split; [reflexivity|]. split; [vm_compute; reflexivity|].
  exact (layer_height_bounded cfg eq_refl).
Defined.

(** ** Failures and successes *)

Module ErrorFacts.

(** [readSTL] returns, or throws the format error: no read of the
    [DataView] is out of bounds. *)
Lemma readSTL_cases lower buf :
  (exists pts, readSTL lower buf = Return pts) \/
  readSTL lower buf = Throw (Error "Not a valid STL file").
Proof.
  assert (Hascii : forall text : jsstring,
             (exists pts,
                 (if Str.includes (lower text) (js "solid") && Str.includes (lower text) (js "facet")
                  then Return (readASCIISTL lower text)
                  else Throw (Error "Not a valid STL file")) = Return pts) \/
             (if Str.includes (lower text) (js "solid") && Str.includes (lower text) (js "facet")
              then Return (readASCIISTL lower text)
              else Throw (Error "Not a valid STL file")) = Throw (Error "Not a valid STL file")).
  { intros text. destruct (_ && _); eauto. }
  unfold readSTL.
  destruct (Z.ltb_spec 84 (Z.of_nat (length buf))) as [Hlen|Hlen]; [|apply Hascii].
  destruct (DecoderFacts.getUint32_in_range buf Hlen) as [count Hc].
  rewrite Hc. cbn [cbind].
  destruct (Z.eqb_spec (Z.of_nat (length buf)) (84 + count * 50)) as [Hsz|Hsz];
    [|apply Hascii].
  left. pose proof (BinaryReads.getUint32_nonneg _ _ _ Hc) as H0.
  destruct (BinaryReads.readTriangles_in_range buf (Z.to_nat count) 84 [])
    as (pts & E & _); [lia|lia|].
  exists pts. exact E.
Qed.

End ErrorFacts.

(** X23. The dimensions of a mesh fail in three ways only: an STL file is
    not a valid STL file, or it has no vertices; an OBJ file has no valid
    vertices.  In particular no read outside the buffer is ever reported,
    and an OBJ file that decodes always has dimensions. *)
Theorem dimensions_errors :
  forall (toLowerCase : jsstring -> jsstring) (ext : meshExtension) (file : list byte)
         (err : exn),
    dimensions toLowerCase ext file = Throw err ->
    match ext with
    | ExtStl => err = Error "Not a valid STL file" \/ err = Error "No vertices found"
    | ExtObj => err = Error "No valid vertices in OBJ"
    end.
Proof.
  intros lower ext file err. unfold dimensions, decodeMesh. destruct ext.
  - destruct (ErrorFacts.readSTL_cases lower file) as [(pts & ->)| ->]; cbn [cbind].
    + destruct pts as [|v vs]; [|discriminate]. cbn [getSize]. intros H. right. congruence.
    + intros H. left. congruence.
  - destruct (DecoderFacts.readOBJ_cases file) as [->|(v & vs & ->)]; cbn [cbind].
    + intros H. congruence.
    + discriminate.
Qed.

Lemma dimensions_errors_witness :
  dimensions Str.asciiLowerCase ExtStl (Utf8.bytes "not a mesh") =
    Throw (Error "Not a valid STL file") /\
  dimensions Str.asciiLowerCase ExtObj (Utf8.bytes "not a mesh") =
    Throw (Error "No valid vertices in OBJ").
Proof.
  assert (H1 : exists err, dimensions Str.asciiLowerCase ExtStl (Utf8.bytes "not a mesh")
                           = Throw err) by (eexists; vm_compute; reflexivity).
  assert (H2 : exists err, dimensions Str.asciiLowerCase ExtObj (Utf8.bytes "not a mesh")
                           = Throw err) by (eexists; vm_compute; reflexivity).
  destruct H1 as [e1 H1], H2 as [e2 H2].
  pose proof (dimensions_errors _ _ _ _ H2) as E2. cbn iota in E2.
  split; [vm_compute; reflexivity|]. rewrite H2, E2. reflexivity.
Defined.

(** X24. A 200 answer of the slicer stage means that the upload was
    staged, the command line built, that the slicer ran and left an
    output file, that both temp files were then deleted and that a file
    was still retained when the answer was built.  The print time of the
    answer is the one parsed from the text of that output file, its file
    name is the name of the file retained at that moment, its other
    fields are those of the request; afterwards neither temp file
    exists. *)
Theorem ok_answer_means_output_read :
  forall (e : env) (up : uploaded) (rq : request) (now1 now2 : number) (w : world)
         (d : processedConfig),
    fst (submitStaged e up rq now1 now2 w) = Return (Status200 d) ->
    let inp := tempInputPath e up now1 in
    let out := tempOutputPath e now2 in
    let w' := snd (submitStaged e up rq now1 now2 w) in
    exists args outcome fs1 data current,
      denied (fs w) !! inp = None /\
      generatePrusaCommand (configOf rq) inp out = Return args /\
      execFileAsync e (PRUSA_SLICER_PATH e) args (fs (staged w inp (buffer up)))
        = (outcome, fs1) /\
      files fs1 !! out = Some data /\
      is_Some (files fs1 !! inp) /\ (inp ∉ locked fs1) /\ (out ∉ locked fs1) /\
      resumedUpload e up = Some current /\
      pc_printTime d = parsePrintTime (Utf8.toString data) /\
      pc_filename d = filename current /\
      pc_designUnit d = rq_designUnit rq /\
      pc_material d = rq_material rq /\
      pc_materialType d = rq_materialType rq /\
      pc_nozzleSize d = rq_nozzleSize rq /\
      pc_fillDensity d = rq_fillDensity rq /\
      pc_supportMaterial d = rq_supportMaterial rq /\
      files (fs w') !! inp = None /\ files (fs w') !! out = None.
Proof.
  intros e up rq now1 now2 w d H inp out w'. subst w'.
  pose proof (HandlerFacts.paths_differ e up now1 now2) as Hne. fold inp out in Hne.
  unfold submitStaged, tryCatch in *. fold inp out in H |- *.
  rewrite HandlerFacts.tryBlock_eq in *.
  destruct (denied (fs w) !! inp) as [[err residue]|] eqn:Ewrite;
    [rewrite HandlerFacts.catchBlock_response in H; discriminate H|].
  destruct (generatePrusaCommand (configOf rq) inp out) as [args|ex];
    [|rewrite HandlerFacts.catchBlock_response in H; discriminate H].
  rewrite HandlerFacts.sliceAndRespond_eq in *.
  destruct (execFileAsync e (PRUSA_SLICER_PATH e) args (fs (staged w inp (buffer up))))
    as [outcome fs1] eqn:Erun. cbn zeta in *.
  destruct (files fs1 !! out) as [data|] eqn:Eout;
    [|rewrite HandlerFacts.catchBlock_response in H; discriminate H].
  exists args, outcome, fs1, data.
  unfold bind, Fs.unlinkSync, liftC, currentUpload, consoleWrite, ret in *.
  cbn [fs files locked] in *.
  destruct (files fs1 !! inp) as [di|] eqn:Ein;
    [|rewrite HandlerFacts.catchBlock_response in H; discriminate H].
  destruct (bool_decide (inp ∈ locked fs1)) eqn:Eli;
    [rewrite HandlerFacts.catchBlock_response in H; discriminate H|].
  cbn [fs files locked] in *.
  rewrite lookup_delete_ne in * by exact Hne. rewrite Eout in *.
  destruct (bool_decide (out ∈ locked fs1)) eqn:Elo;
    [rewrite HandlerFacts.catchBlock_response in H; discriminate H|].
  destruct (resumedUpload e up) as [current|];
    [|rewrite HandlerFacts.catchBlock_response in H; discriminate H].
  cbn [fst snd fs files] in *.
  injection H as <-. exists current.
  apply bool_decide_eq_false in Eli, Elo.
  rewrite lookup_delete_ne, !lookup_delete_eq by congruence.
  cbn [processed pc_printTime pc_filename pc_designUnit pc_material pc_materialType
       pc_nozzleSize pc_fillDensity pc_supportMaterial].
  repeat (split; [first [reflexivity|assumption|eauto]|]). reflexivity.
Qed.

Lemma ok_answer_means_output_read_witness :
  let e := Scenario.warningEnvironment in
  let up := Scenario.upload in
  let r := submitStaged e up Scenario.body Scenario.now Scenario.now Scenario.emptyWorld in
  let d := mkProcessed (rq_designUnit Scenario.body) (rq_material Scenario.body)
                       (rq_materialType Scenario.body) (rq_nozzleSize Scenario.body)
                       (rq_fillDensity Scenario.body) (rq_supportMaterial Scenario.body)
                       (js "1h 2m") (filename up) in
  fst r = Return (Status200 d) /\
  (exists data, parsePrintTime (Utf8.toString data) = js "1h 2m") /\
  files (fs (snd r)) !! tempInputPath e up Scenario.now = None /\
  files (fs (snd r)) !! tempOutputPath e Scenario.now = None.
Proof.
  intros e up r d.
  assert (H : fst r = Return (Status200 d)) by (vm_compute; reflexivity).
  split; [exact H|].
  destruct (ok_answer_means_output_read e up Scenario.body Scenario.now Scenario.now
              Scenario.emptyWorld _ H)
    as (args & outcome & fs1 & data & current & _ & _ & _ & _ & _ & _ & _ & _ & Hpt
        & _ & _ & _ & _ & _ & _ & _ & Hi & Ho).
  split; [exists data; symmetry; exact Hpt|]. split; [exact Hi|exact Ho].
Defined.

(** ** Line ends in the bytes of a file *)

Module Utf8Facts.
Import Utf8 Text.
Local Open Scope N_scope.

Lemma crlf_app a b : crlf (a ++ b) = crlf a ++ crlf b.
Proof.
  induction a as [|c a IH]; [reflexivity|]. cbn [app crlf].
  destruct (c =? 10); cbn [app]; rewrite IH; reflexivity.
Qed.

Lemma crlf_id a : ~ In 10 a -> crlf a = a.
Proof.
  induction a as [|c a IH]; [reflexivity|]. intros H. cbn [crlf].
  destruct (N.eqb_spec c 10) as [->|_]; [exfalso; apply H; left; reflexivity|].
  rewrite IH; [reflexivity|]. intros Hin. apply H. right. exact Hin.
Qed.

Lemma byteN_lf b : byteN b = 10 <-> b = "010"%byte.
Proof.
  unfold byteN. split; [|intros ->; reflexivity].
  intros H. pose proof (Byte.of_to_N b) as E. rewrite H in E. cbv in E. congruence.
Qed.

(** The states in which the decoder can be: an open sequence expects a
    continuation byte, and its code point so far is not zero unless the
    next byte must be at least 144. *)
Lemma lead_good b :
  b <> 10 ->
  ~ In 10 (fst (lead b)) /\ openState (snd (lead b)).
Proof.
  intros Hb. unfold openState, lead.
  destruct (N.leb_spec b 127).
  { cbn [fst snd start bytesNeeded]. split; [|left; reflexivity].
    intros [E|[]]. congruence. }
  destruct (N.leb_spec 194 b); cbn [andb].
  2:{ destruct (N.leb_spec 224 b); [lia|]. cbn [andb].
      destruct (N.leb_spec 240 b); [lia|]. cbn [andb fst snd start bytesNeeded].
      split; [|left; reflexivity]. intros [E|[]]. discriminate E. }
  destruct (N.leb_spec b 223).
  { cbn [fst snd bytesNeeded lower upper codePoint]. split; [intros []|]. right.
    change 31 with (N.ones 5). rewrite N.land_ones.
    repeat split; try lia. left.
    assert (b = 192 + (b - 192)) as -> by lia.
    change 192 with (6 * 2 ^ 5). rewrite N.add_comm, N.Div0.mod_add.
    rewrite N.mod_small; change (2 ^ 5) with 32; lia. }
  destruct (N.leb_spec 224 b); cbn [andb].
  2:{ destruct (N.leb_spec 240 b); [lia|]. cbn [andb fst snd start bytesNeeded].
      split; [|left; reflexivity]. intros [E|[]]. discriminate E. }
  destruct (N.leb_spec b 239).
  { cbn [fst snd bytesNeeded lower upper codePoint]. split; [intros []|]. right.
    change 15 with (N.ones 4). rewrite N.land_ones.
    split; [destruct (b =? 224); lia|]. split; [destruct (b =? 237); lia|].
    destruct (N.eqb_spec b 224) as [->|Hne]; [right; lia|left].
    assert (b = 224 + (b - 224)) as -> by lia.
    change 224 with (14 * 2 ^ 4). rewrite N.add_comm, N.Div0.mod_add.
    rewrite N.mod_small; change (2 ^ 4) with 16; lia. }
  destruct (N.leb_spec 240 b); cbn [andb].
  2:{ lia. }
  destruct (N.leb_spec b 244).
  { cbn [fst snd bytesNeeded lower upper codePoint]. split; [intros []|]. right.
    change 7 with (N.ones 3). rewrite N.land_ones.
    split; [destruct (b =? 240); lia|]. split; [destruct (b =? 244); lia|].
    destruct (N.eqb_spec b 240) as [->|Hne]; [right; lia|left].
    assert (b = 240 + (b - 240)) as -> by lia.
    change 240 with (30 * 2 ^ 3). rewrite N.add_comm, N.Div0.mod_add.
    rewrite N.mod_small; change (2 ^ 3) with 8; lia. }
  cbn [fst snd start bytesNeeded]. split; [|left; reflexivity].
  intros [E|[]]. discriminate E.
Qed.


Lemma step_good st b :
  openState st -> b <> 10 ->
  ~ In 10 (fst (step st b)) /\ openState (snd (step st b)).
Proof.
  intros Hst Hb. unfold step.
  destruct (bytesNeeded st) as [|n] eqn:En; [apply lead_good, Hb|].
  destruct Hst as [Hst|(Hlo & Hup & Hcp)]; [congruence|].
  destruct ((lower st <=? b) && (b <=? upper st)) eqn:Er.
  - apply andb_true_iff in Er as [E1 E2]. apply N.leb_le in E1, E2.
    set (cp := N.lor (N.shiftl (codePoint st) 6) (N.land b 63)).
    assert (Hnz : cp <> 0 /\ (1 <= codePoint st -> cp <> 10)).
    { split.
      - unfold cp. intros H0. apply N.lor_eq_0_iff in H0 as [H1 H2].
        apply N.shiftl_eq_0_iff in H1.
        change 63 with (N.ones 6) in H2. rewrite N.land_ones in H2.
        destruct Hcp as [Hcp|[_ Hcp]]; [lia|].
        assert (b = 128 + (b - 128)) as Eb by lia. rewrite Eb in H2.
        change 128 with (2 * 2 ^ 6) in H2 at 1. rewrite N.add_comm, N.Div0.mod_add in H2.
        rewrite N.mod_small in H2; change (2 ^ 6) with 64; lia.
      - intros Hc H10. apply (f_equal (fun x => N.shiftr x 6)) in H10.
        unfold cp in H10. rewrite N.shiftr_lor, N.shiftr_shiftl_l in H10 by lia.
        change (6 - 6) with 0 in H10. rewrite N.shiftl_0_r in H10.
        change (N.shiftr 10 6) with 0 in H10.
        apply N.lor_eq_0_iff in H10 as [H1 _]. lia. }
    destruct Hnz as [Hnz H10].
    destruct n as [|n'].
    + cbn [fst snd]. split; [|left; reflexivity].
      intros [E|[]]. apply H10; [|exact E].
      destruct Hcp as [Hcp|[Hcp _]]; [exact Hcp|lia].
    + cbn [fst snd]. split; [intros []|]. right. cbn [lower upper codePoint bytesNeeded].
      repeat split; lia.
  - pose proof (lead_good b Hb) as [Hl1 Hl2].
    destruct (lead b) as [out st']. cbn [fst snd] in *. split; [|exact Hl2].
    intros [E|Hin]; [discriminate E|]. apply Hl1, Hin.
Qed.

Lemma step_lf st :
  openState st ->
  exists pre, ~ In 10 pre /\
    step st 10 = (pre ++ [10], start) /\ step st 13 = (pre ++ [13], start).
Proof.
  intros Hst. unfold step.
  destruct (bytesNeeded st) as [|n] eqn:En.
  - exists []. split; [intros []|]. split; reflexivity.
  - destruct Hst as [Hst|(Hlo & Hup & Hcp)]; [congruence|].
    destruct (N.leb_spec (lower st) 10); [lia|].
    destruct (N.leb_spec (lower st) 13); [lia|]. cbn [andb].
    exists [replacement]. split; [intros [E|[]]; discriminate E|]. split; reflexivity.
Qed.

Lemma openState_start : openState start.
Proof. left. reflexivity. Qed.

(** Decoding commutes with the change of line ends. *)
Lemma codePoints_crlf bs : forall st,
  openState st -> codePoints st (crlfBytes bs) = crlf (codePoints st bs).
Proof.
  induction bs as [|b bs IH]; intros st Hst.
  - cbn [crlfBytes codePoints]. destruct (bytesNeeded st); reflexivity.
  - cbn [crlfBytes]. destruct (Byte.eqb b "010") eqn:Eb.
    + apply Byte.byte_dec_bl in Eb. subst b.
      destruct (step_lf st Hst) as (pre & Hpre & E10 & E13).
      cbn [codePoints]. change (byteN "013") with 13. change (byteN "010") with 10.
      rewrite E13, E10. change (step start 10) with ([10], start). cbv beta iota.
      rewrite (IH start openState_start).
      rewrite !crlf_app, (crlf_id pre Hpre). cbn [crlf app N.eqb Pos.eqb].
      rewrite <- !app_assoc. reflexivity.
    + assert (Hb : byteN b <> 10).
      { intros H. apply byteN_lf in H. subst b. discriminate Eb. }
      cbn [codePoints].
      pose proof (step_good st (byteN b) Hst Hb) as [Ho Hs].
      destruct (step st (byteN b)) as [out st']. cbn [fst snd] in *.
      rewrite (IH st' Hs), crlf_app, (crlf_id out Ho). reflexivity.
Qed.

Lemma codeUnits_crlf cps : flat_map codeUnits (crlf cps) = crlf (flat_map codeUnits cps).
Proof.
  induction cps as [|c cps IH]; [reflexivity|].
  cbn [crlf flat_map]. destruct (N.eqb_spec c 10) as [->|Hc].
  - cbn [flat_map]. rewrite IH. reflexivity.
  - cbn [flat_map]. rewrite IH, crlf_app. f_equal. symmetry. apply crlf_id.
    unfold codeUnits. destruct (N.ltb_spec c 65536).
    + intros [E|[]]. congruence.
    + intros [E|[E|[]]]; lia.
Qed.


(** [decode] drops a leading byte-order mark. *)
Lemma decode_eq bs :
  decode bs =
  flat_map codeUnits
    (match codePoints start bs with
     | c :: r => if c =? 65279 then r else c :: r
     | [] => []
     end).
Proof.
  unfold decode. destruct (codePoints start bs) as [|c r]; [reflexivity|].
  destruct (N.eqb_spec c 65279) as [->|Hne]; [reflexivity|].
  destruct c as [|p]; [reflexivity|].
  do 17 (try (destruct p as [p|p|]; try reflexivity;
              try (exfalso; apply Hne; reflexivity))).
Qed.

Lemma decode_crlf bs : decode (crlfBytes bs) = crlf (decode bs).
Proof.
  rewrite !decode_eq, (codePoints_crlf bs start openState_start).
  rewrite <- codeUnits_crlf. f_equal.
  destruct (codePoints start bs) as [|c r]; [reflexivity|].
  cbn [crlf]. destruct (N.eqb_spec c 10) as [->|Hc]; [reflexivity|].
  destruct (c =? 65279); [reflexivity|].
  cbn [crlf]. destruct (N.eqb_spec c 10); [contradiction|reflexivity].
Qed.

End Utf8Facts.

(** X25. Windows line ends do not change what [readOBJ] reads: the file
    with a carriage return before every line feed gives the same
    vertices, or the same rejection. *)
Theorem readOBJ_crlf :
  forall buf : list byte, readOBJ (Text.crlfBytes buf) = readOBJ buf.
Proof.
  intros buf. unfold readOBJ.
  rewrite Utf8Facts.decode_crlf, LineFacts.split_crlf.
  rewrite (LineFacts.flat_map_crLines objLineVertices _ LineFacts.objLineVertices_cr).
  reflexivity.
Qed.
